(** * NLP-backtest: a shallow embedding of the two simulators and the metrics

    The development follows the Python sources:
    - [portfolio_backtester.py]  (module [Portfolio])
    - [backtester.py]            (module [Single])
    - [report_generator.py]      (modules [Report] and [Sharpe])
    - [nlp_backtest_workflow.py] (module [Sharpe])

    and, further down, the statistics of the single-instrument run
    (module [SingleStats]), the maximum drawdown, the two CSV loaders
    (modules [SingleLoader] and [PortfolioLoader]), the allocation
    groups of the report (module [Groups]), the parameters that the
    workflow reads from a parsed strategy (module [Workflow]) and the
    dictionary returned by the portfolio run (module
    [PortfolioResults]).

    Numbers.  Prices, cash and thresholds are Python/NumPy floats in the
    source.  They are modelled as exact rationals [Q]; rounding is not
    modelled.  The special values that pandas produces instead of raising
    (NaN of [shift]/[rolling], the infinities of a vectorised division by
    zero) are kept, in the type [fnum].  Scalar Python divisions, which
    raise [ZeroDivisionError], are modelled in the error monad [result].

    Dates.  A pandas [Timestamp] is modelled by its integer value in
    nanoseconds; [Timedelta.days] is the floor division by one day. *)

From Stdlib Require Import String.
From Stdlib Require Import List ZArith QArith Qround Lia Psatz Bool Sorted.
From Stdlib Require Import Reals.
From Stdlib Require OrderedTypeEx.
Import ListNotations.

Local Open Scope Z_scope.
Local Open Scope Q_scope.

(* ------------------------------------------------------------------ *)
(** ** Numbers *)

Inductive fnum : Type :=
| Fin (q : Q)
| PInf
| NInf
| NaN.

Definition Qltb (a b : Q) : bool := negb (Qle_bool b a).
Definition Qgeb (a b : Q) : bool := Qle_bool b a.
Definition Qeqb (a b : Q) : bool := Qle_bool a b && Qle_bool b a.
Definition Qmaxb (a b : Q) : Q := if Qle_bool a b then b else a.

(** NumPy true division: a zero divisor gives an infinity or NaN. *)
Definition np_div (a b : Q) : fnum :=
  if Qeqb b 0 then
    (if Qltb 0 a then PInf else if Qltb a 0 then NInf else NaN)
  else Fin (a / b).

Definition fsub (x : fnum) (c : Q) : fnum :=
  match x with
  | Fin q => Fin (q - c)
  | other => other
  end.

(** [x * side] for [side] = 1 or -1. *)
Definition fmul_sign (x : fnum) (s : Z) : fnum :=
  match x with
  | Fin q => Fin (q * inject_Z s)
  | PInf => if (0 <? s)%Z then PInf else if (s <? 0)%Z then NInf else NaN
  | NInf => if (0 <? s)%Z then NInf else if (s <? 0)%Z then PInf else NaN
  | NaN => NaN
  end.

(** Comparisons of a column value with a scalar; NaN compares false. *)
Definition f_le (x : fnum) (t : Q) : bool :=
  match x with
  | Fin q => Qle_bool q t
  | NInf => true
  | PInf | NaN => false
  end.

Definition f_ge (x : fnum) (t : Q) : bool :=
  match x with
  | Fin q => Qle_bool t q
  | PInf => true
  | NInf | NaN => false
  end.

(* ------------------------------------------------------------------ *)
(** ** Errors *)

Inductive error : Type :=
| ValueError
| ZeroDivisionError
| KeyError
| TypeError.

Inductive result (A : Type) : Type :=
| Ok (a : A)
| Err (e : error).
Arguments Ok {A} a.
Arguments Err {A} e.

Definition bind {A B} (m : result A) (k : A -> result B) : result B :=
  match m with
  | Ok a => k a
  | Err e => Err e
  end.

Notation "x <- m ;; k" := (bind m (fun x => k))
  (at level 61, m at next level, right associativity).

(** Python scalar float division. *)
Definition py_div (a b : Q) : result Q :=
  if Qeqb b 0 then Err ZeroDivisionError else Ok (a / b).

(** Python float floor division [a // b], then [int(...)]. *)
Definition py_floordiv (a b : Q) : result Z :=
  if Qeqb b 0 then Err ZeroDivisionError else Ok (Qfloor (a / b)).

(* ------------------------------------------------------------------ *)
(** ** Dates *)

Definition Timestamp := Z.
Definition NS_PER_DAY : Z := 86400000000000%Z.

(** [(b - a).days] *)
Definition timedelta_days (b a : Timestamp) : Z := ((b - a) / NS_PER_DAY)%Z.

(** [sorted(df["date"].unique())] *)
Fixpoint insert_uniq (d : Timestamp) (l : list Timestamp) : list Timestamp :=
  match l with
  | [] => [d]
  | x :: r =>
      if (d <? x)%Z then d :: l
      else if (d =? x)%Z then l
      else x :: insert_uniq d r
  end.

Definition sorted_unique (l : list Timestamp) : list Timestamp :=
  fold_right insert_uniq [] l.

(* ------------------------------------------------------------------ *)
(** ** Dictionaries (insertion-ordered, as Python's) and ledger rows *)

Inductive value : Type :=
| VStr (s : string)
| VNum (x : fnum)
| VInt (n : Z)
| VDate (d : Timestamp).

Definition dict (V : Type) := list (string * V).

Fixpoint dict_get {V} (k : string) (d : dict V) : option V :=
  match d with
  | [] => None
  | (k', v) :: r => if String.eqb k k' then Some v else dict_get k r
  end.

(** [d[k] = v]: an existing key keeps its place, a new one goes last. *)
Fixpoint dict_set {V} (k : string) (v : V) (d : dict V) : dict V :=
  match d with
  | [] => [(k, v)]
  | (k', v') :: r =>
      if String.eqb k k' then (k, v) :: r else (k', v') :: dict_set k v r
  end.

(** [del d[k]] *)
Fixpoint dict_del {V} (k : string) (d : dict V) : dict V :=
  match d with
  | [] => []
  | (k', v') :: r =>
      if String.eqb k k' then r else (k', v') :: dict_del k r
  end.

Definition dict_keys {V} (d : dict V) : list string := map fst d.

Definition dict_mem {V} (k : string) (d : dict V) : bool :=
  match dict_get k d with Some _ => true | None => false end.

(** [DataFrame.head(n)]; a negative [n] drops the last [-n] rows. *)
Definition head {A} (n : Z) (l : list A) : list A :=
  if (0 <=? n)%Z then firstn (Z.to_nat n) l
  else firstn (length l - Z.to_nat (- n)) l.

(* ------------------------------------------------------------------ *)
(** ** portfolio_backtester.py *)

Module Portfolio.

(** A row of [self.data] restricted to the sector ([df]).  Rows with a
    missing date, symbol, open or close were dropped by
    [_load_and_prepare_data]. *)
Record Row : Type := mkRow {
  date : Timestamp;
  symbol : string;
  open : Q;
  close : Q
}.

(** [x.shift(1)] on a group's close column. *)
Definition shift1 (x : list Q) : list (option Q) :=
  firstn (length x) (None :: map Some x).

(** The rows [j-w+1 .. j] of a column, clipped at the start. *)
Definition window {A} (w j : nat) (s : list A) : list A :=
  firstn (S j - (S j - w)) (skipn (S j - w) s).

(** Maximum of the non-null values, null when there is none
    ([min_periods=1]). *)
Definition omax (acc : option Q) (v : option Q) : option Q :=
  match acc, v with
  | None, _ => v
  | Some a, None => Some a
  | Some a, Some b => Some (Qmaxb a b)
  end.

Definition nanmax (vals : list (option Q)) : option Q :=
  fold_left omax vals None.

(** [s.rolling(w, min_periods=1).max()] *)
Definition rolling_max (w : nat) (s : list (option Q)) : list (option Q) :=
  map (fun j => nanmax (window w j s)) (seq 0 (length s)).

(** The lambda of line 67, applied to one symbol's closes. *)
Definition trailing_high_group (lookback : nat) (x : list Q) : list (option Q) :=
  rolling_max lookback (shift1 x).

(** [df.groupby("symbol")["close"]]: the closes of one symbol, in row order. *)
Definition group_rows (s : string) (df : list Row) : list Row :=
  filter (fun r => String.eqb (symbol r) s) df.

Definition group_close (s : string) (df : list Row) : list Q :=
  map close (group_rows s df).

(** Position of row [i] inside its own group. *)
Definition group_pos (df : list Row) (i : nat) (s : string) : nat :=
  length (group_rows s (firstn i df)).

(** [df["trailing_high"]]: [transform] puts each group's result back on
    the group's rows. *)
Definition trailing_high_at (lookback : nat) (df : list Row) (i : nat) : option Q :=
  match nth_error df i with
  | None => None
  | Some r =>
      nth (group_pos df i (symbol r))
          (trailing_high_group lookback (group_close (symbol r) df)) None
  end.

(** [df["drop_from_high"] = df["open"] / df["trailing_high"] - 1.0] *)
Definition drop_from_high_of (o : Q) (th : option Q) : fnum :=
  match th with
  | None => NaN
  | Some h => fsub (np_div o h) 1
  end.

(** A row of [df] with the two computed columns. *)
Record XRow : Type := mkXRow {
  row : Row;
  trailing_high : option Q;
  drop_from_high : fnum
}.

Definition xrow_at (lookback : nat) (df : list Row) (i : nat) (r : Row) : XRow :=
  let th := trailing_high_at lookback df i in
  mkXRow r th (drop_from_high_of (open r) th).

Fixpoint add_columns_from (lookback : nat) (df : list Row) (i : nat)
         (rows : list Row) : list XRow :=
  match rows with
  | [] => []
  | r :: rest => xrow_at lookback df i r :: add_columns_from lookback df (S i) rest
  end.

Definition add_columns (lookback : nat) (df : list Row) : list XRow :=
  add_columns_from lookback df 0 df.

(** [positions[sym]] *)
Record Pos : Type := mkPos {
  entry_price : Q;
  shares : Q;
  entry_date : Timestamp
}.

Inductive exit_reason : Type := take_profit_reason | stop_loss_reason.

Definition reason_str (r : exit_reason) : string :=
  match r with
  | take_profit_reason => "take_profit"
  | stop_loss_reason => "stop_loss"
  end.

(** The dictionary appended to [trades] (lines 101-109). *)
Definition trade_row (sym : string) (p : Pos) (d : Timestamp) (price ret : Q)
           (why : exit_reason) : dict value :=
  [ ("symbol", VStr sym);
    ("entry_date", VDate (entry_date p));
    ("exit_date", VDate d);
    ("entry_price", VNum (Fin (entry_price p)));
    ("exit_price", VNum (Fin price));
    ("return", VNum (Fin ret));
    ("exit_reason", VStr (reason_str why)) ]%string.

Record State : Type := mkState {
  cash : Q;
  positions : dict Pos;
  trades : list (dict value);
  equity_curve : list (Timestamp * Q)
}.

Section Strategy.

Variable starting_capital : Q.
Variable drop_pct : Q.
Variable allocation_per_trade : Q.
Variable stop_loss : Q.
Variable take_profit : Q.

(** [day_data[day_data["symbol"] == sym]] *)
Definition sub_of (sym : string) (day_data : list XRow) : list XRow :=
  filter (fun x => String.eqb (symbol (row x)) sym) day_data.

(** Lines 92-97. *)
Definition exit_decision (ret : Q) : option exit_reason :=
  if Qle_bool take_profit ret then Some take_profit_reason
  else if Qle_bool ret (- stop_loss) then Some stop_loss_reason
  else None.

(** One iteration of the exit loop (lines 85-110). *)
Definition exit_one (d : Timestamp) (day_data : list XRow)
           (st : State) (sym : string) : result State :=
  match dict_get sym (positions st) with
  | None => Err KeyError
  | Some pos =>
      match sub_of sym day_data with
      | [] => Ok st
      | x :: _ =>
          let price := close (row x) in
          q <- py_div price (entry_price pos) ;;
          let ret := q - 1 in
          match exit_decision ret with
          | None => Ok st
          | Some why =>
              let proceeds := price * shares pos in
              Ok (mkState (cash st + proceeds)
                          (dict_del sym (positions st))
                          (trades st ++ [trade_row sym pos d price ret why])
                          (equity_curve st))
          end
      end
  end.

Fixpoint exit_loop (d : Timestamp) (day_data : list XRow)
         (keys : list string) (st : State) : result State :=
  match keys with
  | [] => Ok st
  | sym :: rest =>
      st' <- exit_one d day_data st sym ;;
      exit_loop d day_data rest st'
  end.

Definition exit_phase (d : Timestamp) (day_data : list XRow) (st : State)
  : result State :=
  exit_loop d day_data (dict_keys (positions st)) st.

(** Lines 115-118; [positions] is the dictionary after the exits. *)
Definition is_candidate (ps : dict Pos) (x : XRow) : bool :=
  f_le (drop_from_high x) (- drop_pct) && negb (dict_mem (symbol (row x)) ps).

Definition candidates_of (ps : dict Pos) (day_data : list XRow) : list XRow :=
  filter (is_candidate ps) day_data.

Definition invest_amt : Q := starting_capital * allocation_per_trade.

(** One iteration of the loop of line 122. *)
Definition entry_one (d : Timestamp) (st : State) (x : XRow) : result State :=
  if Qltb (cash st) invest_amt then Ok st
  else
    sh <- py_div invest_amt (open (row x)) ;;
    Ok (mkState (cash st - invest_amt)
                (dict_set (symbol (row x))
                          (mkPos (open (row x)) sh d) (positions st))
                (trades st)
                (equity_curve st)).

Fixpoint entry_loop (d : Timestamp) (rows : list XRow) (st : State)
  : result State :=
  match rows with
  | [] => Ok st
  | x :: rest =>
      st' <- entry_one d st x ;;
      entry_loop d rest st'
  end.

(** Lines 113-132. *)
Definition entry_phase (d : Timestamp) (day_data : list XRow) (st : State)
  : result State :=
  let open_trades := inject_Z (Z.of_nat (length (positions st))) in
  if Qltb (open_trades * allocation_per_trade) 1 then
    match candidates_of (positions st) day_data with
    | [] => Ok st
    | candidates =>
        let available_fraction := 1 - open_trades * allocation_per_trade in
        max_new <- py_floordiv available_fraction allocation_per_trade ;;
        entry_loop d (head max_new candidates) st
    end
  else Ok st.

(** Lines 135-142. *)
Definition mkt_val (day_data : list XRow) (ps : dict Pos) : Q :=
  fold_left
    (fun acc kv =>
       match sub_of (fst kv) day_data with
       | [] => acc
       | x :: _ => acc + shares (snd kv) * close (row x)
       end)
    ps 0.

Definition equity_phase (d : Timestamp) (day_data : list XRow) (st : State)
  : State :=
  mkState (cash st) (positions st) (trades st)
          (equity_curve st ++ [(d, cash st + mkt_val day_data (positions st))]).

(** The body of [for date in dates]. *)
Definition day_step (xdf : list XRow) (st : State) (d : Timestamp)
  : result State :=
  let day_data := filter (fun x => (date (row x) =? d)%Z) xdf in
  st1 <- exit_phase d day_data st ;;
  st2 <- entry_phase d day_data st1 ;;
  Ok (equity_phase d day_data st2).

Fixpoint run_days (xdf : list XRow) (dates : list Timestamp) (st : State)
  : result State :=
  match dates with
  | [] => Ok st
  | d :: rest =>
      st' <- day_step xdf st d ;;
      run_days xdf rest st'
  end.

Definition init_state : State := mkState starting_capital [] [] [].

Definition dates_of (df : list Row) : list Timestamp :=
  sorted_unique (map date df).

(** [run_sector_strategy], from the sector's rows [df] to the final state
    (ledger [trades], [equity_curve], remaining [positions] and [cash]). *)
Definition run_sector_strategy (df : list Row) (lookback_days : Z)
  : result State :=
  match df with
  | [] => Err ValueError
  | _ =>
      if (lookback_days <? 1)%Z then Err ValueError
      else
        let xdf := add_columns (Z.to_nat lookback_days) df in
        run_days xdf (dates_of df) init_state
  end.

End Strategy.

End Portfolio.

(* ------------------------------------------------------------------ *)
(** ** backtester.py *)

Module Single.

(** A row of [df], the rows of [self.data] for the requested symbol. *)
Record Row : Type := mkRow {
  date : Timestamp;
  close : Q
}.

(** The [condition] dictionary; [None] stands for a missing key. *)
Record Condition : Type := mkCondition {
  period_days : option Z;
  threshold : option Q;
  direction : option string;
  stop_loss : option Q;
  take_profit : option Q
}.

Record Rule : Type := mkRule {
  action : string;
  rule_symbol : string;
  condition : Condition
}.

(** [{"entry": ..., "exit": ...}]; a bare rule is an entry without exit. *)
Record Strategy : Type := mkStrategy {
  entry : Rule;
  exit : option Rule
}.

(** [str.upper()] on ASCII letters. *)
Definition upper_ascii (c : Ascii.ascii) : Ascii.ascii :=
  let n := Ascii.nat_of_ascii c in
  if (97 <=? n)%nat && (n <=? 122)%nat then Ascii.ascii_of_nat (n - 32) else c.

Fixpoint upper (s : string) : string :=
  match s with
  | EmptyString => EmptyString
  | String c r => String (upper_ascii c) (upper r)
  end.

(** [int(cond.get("period_days") or 3)] *)
Definition period_of (c : Condition) : Z :=
  match period_days c with
  | None => 3%Z
  | Some p => if (p =? 0)%Z then 3%Z else p
  end.

(** [s.shift(p)[i]] *)
Definition shift_at (p : Z) (xs : list Q) (i : nat) : option Q :=
  let k := (Z.of_nat i - p)%Z in
  if (k <? 0)%Z then None else nth_error xs (Z.to_nat k).

(** [df["close"].pct_change(periods=p)] *)
Definition pct_change_at (p : Z) (xs : list Q) (i : nat) : fnum :=
  match nth_error xs i, shift_at p xs i with
  | Some x, Some prev => fsub (np_div x prev) 1
  | _, _ => NaN
  end.

Definition pct_change (p : Z) (xs : list Q) : list fnum :=
  map (pct_change_at p xs) (seq 0 (length xs)).

(** Lines 85-90 and 104-109. *)
Definition directional (dir : string) (thr : Q) (change : fnum) : bool :=
  if String.eqb dir "down" then f_le change (- thr)
  else if String.eqb dir "up" then f_ge change thr
  else false.

Definition default {A} (d : A) (o : option A) : A :=
  match o with Some a => a | None => d end.

(** A row of [df] with the signal columns of lines 84-122. *)
Record XRow : Type := mkXRow {
  row : Row;
  entry_change : fnum;
  entry_signal : bool;
  exit_change : option fnum;
  exit_signal : bool;
  exit_reason_base : bool;
  exit_reason_sl : bool;
  exit_reason_tp : bool
}.

Definition xrow_of (s : Strategy) (closes : list Q) (i : nat) (r : Row) : XRow :=
  let econd := condition (entry s) in
  let e_change := pct_change_at (period_of econd) closes i in
  let e_sig :=
    directional (default "down"%string (direction econd))
                (default (5 # 100) (threshold econd)) e_change in
  match exit s with
  | Some xr =>
      let xcond := condition xr in
      let x_change := pct_change_at (period_of xcond) closes i in
      let base_exit :=
        directional (default "up"%string (direction xcond))
                    (default (3 # 100) (threshold xcond)) x_change in
      let sl_exit :=
        match stop_loss xcond with
        | Some sl => f_le x_change (- sl)
        | None => false
        end in
      let tp_exit :=
        match take_profit xcond with
        | Some tp => f_ge x_change tp
        | None => false
        end in
      mkXRow r e_change e_sig (Some x_change)
             (base_exit || sl_exit || tp_exit) base_exit sl_exit tp_exit
  | None => mkXRow r e_change e_sig None false false false false
  end.

Fixpoint add_signals_from (s : Strategy) (closes : list Q) (i : nat)
         (rows : list Row) : list XRow :=
  match rows with
  | [] => []
  | r :: rest => xrow_of s closes i r :: add_signals_from s closes (S i) rest
  end.

Definition add_signals (s : Strategy) (df : list Row) : list XRow :=
  add_signals_from s (map close df) 0 df.

(** The variables of the simulation loop (lines 125-131). *)
Record State : Type := mkState {
  position : Z;
  positions : list Z;
  ledger : list (dict value);
  entry_idx : option nat;
  entry_price : option Q;
  entry_date : option Timestamp;
  side : Z
}.

Definition init_state : State := mkState 0 [] [] None None None 0.

(** Lines 148-152. *)
Definition reason_of (x : XRow) : string :=
  if exit_reason_tp x then "take_profit"
  else if exit_reason_sl x then "stop_loss"
  else "rule_exit".

(** The dictionary appended to [ledger] (lines 160-170). *)
Definition ledger_row (sym : string) (sd : Z) (e_date : Timestamp) (e_price : Q)
           (x_date : Timestamp) (x_price : Q) (gross_ret : fnum) (hold_days : Z)
           (reason : string) : dict value :=
  [ ("symbol", VStr sym);
    ("side", VStr (if (sd =? 1)%Z then "long" else "short"));
    ("entry_date", VDate e_date);
    ("entry_price", VNum (Fin e_price));
    ("exit_date", VDate x_date);
    ("exit_price", VNum (Fin x_price));
    ("return", VNum gross_ret);
    ("holding_days", VInt hold_days);
    ("exit_reason", VStr reason) ]%string.

Definition push_position (st : State) : State :=
  mkState (position st) (positions st ++ [position st]) (ledger st)
          (entry_idx st) (entry_price st) (entry_date st) (side st).

(** The body of [for i in range(len(df))], before [positions.append]. *)
Definition branch (sym act : string) (i : nat) (x : XRow) (st : State)
  : result State :=
  let price := close (row x) in
  let d := date (row x) in
  if (position st =? 0)%Z && entry_signal x then
    let sd := if String.eqb act "buy" then 1%Z else (-1)%Z in
    Ok (mkState sd (positions st) (ledger st) (Some i) (Some price) (Some d) sd)
  else if negb (position st =? 0)%Z then
    if exit_signal x then
      match entry_price st, entry_date st with
      | Some e_price, Some e_date =>
          let gross_ret := fmul_sign (fsub (np_div price e_price) 1) (side st) in
          let hold_days := timedelta_days d e_date in
          Ok (mkState 0 (positions st)
                      (ledger st ++
                         [ledger_row sym (side st) e_date e_price d price
                                     gross_ret hold_days (reason_of x)])
                      None None None 0)
      | _, _ => Err TypeError
      end
    else Ok st
  else Ok st.

Definition step (sym act : string) (i : nat) (x : XRow) (st : State)
  : result State :=
  st' <- branch sym act i x st ;;
  Ok (push_position st').

Fixpoint loop (sym act : string) (i : nat) (rows : list XRow) (st : State)
  : result State :=
  match rows with
  | [] => Ok st
  | x :: rest =>
      st' <- step sym act i x st ;;
      loop sym act (S i) rest st'
  end.

(** [Backtester.run], from the symbol's rows [df] to the final loop state
    (the ledger and the position series). *)
Definition run (s : Strategy) (df : list Row) : result State :=
  let sym := upper (rule_symbol (entry s)) in
  if String.eqb sym EmptyString then Err ValueError
  else
    match df with
    | [] => Err ValueError
    | _ => loop sym (action (entry s)) 0 (add_signals s df) init_state
    end.

End Single.

(* ------------------------------------------------------------------ *)
(** ** report_generator.py: trade metrics *)

Module Report.

(** The two columns of the ledger DataFrame that the metrics read.
    [holding_days] is [None] when the ledger has no such column (the
    portfolio ledger).  Returns are finite numbers. *)
Record Trades : Type := mkTrades {
  returns : list Q;
  holding_days : option (list Z)
}.

Record Metrics : Type := mkMetrics {
  win_rate : Q;
  avg_win : Q;
  avg_loss : Q;
  profit_factor : fnum;
  expectancy : Q;
  median_hold : fnum
}.

Definition qsum (l : list Q) : Q := fold_left Qplus l 0.
Definition qlen (l : list Q) : Q := inject_Z (Z.of_nat (length l)).

(** [s.mean() if len(s) else 0.0] *)
Definition mean_or_zero (l : list Q) : Q :=
  match l with
  | [] => 0
  | _ => qsum l / qlen l
  end.

Fixpoint insert_sorted (x : Z) (l : list Z) : list Z :=
  match l with
  | [] => [x]
  | y :: r => if (x <=? y)%Z then x :: l else y :: insert_sorted x r
  end.

Definition sort (l : list Z) : list Z := fold_right insert_sorted [] l.

(** [Series.median()] of an integer column. *)
Definition median (l : list Z) : fnum :=
  let s := sort l in
  let n := length s in
  match n with
  | O => NaN
  | _ =>
      if Nat.odd n then Fin (inject_Z (nth (n / 2) s 0%Z))
      else Fin ((inject_Z (nth (n / 2 - 1) s 0%Z)
                 + inject_Z (nth (n / 2) s 0%Z)) / 2)
  end.

Definition zero_metrics : Metrics :=
  mkMetrics 0 0 0 (Fin 0) 0 (Fin 0).

(** [ReportGenerator._extra_metrics_from_trades]; the argument is
    [self.trades], [None] or a DataFrame. *)
Definition _extra_metrics_from_trades (trades : option Trades) : Metrics :=
  match trades with
  | None => zero_metrics
  | Some t =>
      match returns t with
      | [] => zero_metrics
      | r =>
          let wins := filter (fun x => Qltb 0 x) r in
          let losses := filter (fun x => Qle_bool x 0) r in
          let win_rate := qlen wins / qlen r in
          let avg_win := mean_or_zero wins in
          let avg_loss := mean_or_zero losses in
          let gross_profit := match wins with [] => 0 | _ => qsum wins end in
          let gross_loss := match losses with [] => 0 | _ => - qsum losses end in
          let profit_factor :=
            if Qltb 0 gross_loss then Fin (gross_profit / gross_loss)
            else if Qltb 0 gross_profit then PInf
            else Fin 0 in
          let expectancy := win_rate * avg_win + (1 - win_rate) * avg_loss in
          let median_hold :=
            match holding_days t with
            | Some h => median h
            | None => Fin 0
            end in
          mkMetrics win_rate avg_win avg_loss profit_factor expectancy median_hold
      end
  end.

End Report.

(* ------------------------------------------------------------------ *)
(** ** Sharpe ratio (nlp_backtest_workflow.py and report_generator.py)

    Square roots and fractional powers leave the rationals: the two
    Sharpe computations are modelled over the real numbers.  [None]
    stands for NaN (the mean of no value, the sample standard deviation
    of fewer than two values). *)

Module Sharpe.

Local Open Scope R_scope.

Definition rsum (l : list R) : R := fold_right Rplus 0 l.
Definition rlen (l : list R) : R := INR (length l).

(** [Series.mean()] *)
Definition mean (l : list R) : option R :=
  match l with
  | [] => None
  | _ => Some (rsum l / rlen l)
  end.

(** [Series.std()], the sample standard deviation ([ddof=1]). *)
Definition std (l : list R) : option R :=
  match l with
  | [] | [_] => None
  | _ =>
      let m := rsum l / rlen l in
      Some (sqrt (rsum (map (fun x => (x - m) * (x - m)) l) / (rlen l - 1)))
  end.

Definition is_zero (o : option R) : bool :=
  match o with
  | Some s => if Req_dec_T s 0 then true else false
  | None => false
  end.

(** [a * m / s] on possibly-NaN operands. *)
Definition scaled_ratio (a : R) (m s : option R) : option R :=
  match m, s with
  | Some m', Some s' => Some (a * m' / s')
  | _, _ => None
  end.

(** [(1 + risk_free_rate) ** (1 / 252) - 1] *)
Definition daily_rf (risk_free_rate : R) : R :=
  Rpower (1 + risk_free_rate) (1 / 252) - 1.

(** [calculate_sharpe_ratio] of nlp_backtest_workflow.py. *)
Definition calculate_sharpe_ratio (returns : list R) (risk_free_rate : R)
  : option R :=
  if is_zero (std returns) then Some 0
  else
    let excess_returns := map (fun x => x - daily_rf risk_free_rate) returns in
    scaled_ratio (sqrt 252) (mean excess_returns) (std excess_returns).

(** The Sharpe ratio of [ReportGenerator.summary] (line 61), on the
    non-null values of [df["return"]]. *)
Definition summary_sharpe (returns : list R) : option R :=
  if negb (is_zero (std returns)) then
    match mean returns, std returns with
    | Some m, Some s => Some (m / s * sqrt 252)
    | _, _ => None
    end
  else Some 0.

(** The formula in the words of the specification: zero when the
    standard deviation of the return series is zero, otherwise
    [sqrt(252) * mean(excess) / std(excess)]. *)
Definition sharpe_spec (annual_rf : R) (returns : list R) : option R :=
  let excess := map (fun x => x - (Rpower (1 + annual_rf) (1 / 252) - 1)) returns in
  match std returns with
  | Some s =>
      if Req_dec_T s 0 then Some 0
      else scaled_ratio (sqrt 252) (mean excess) (std excess)
  | None => scaled_ratio (sqrt 252) (mean excess) (std excess)
  end.

End Sharpe.

(* ------------------------------------------------------------------ *)
(** ** Specification-side notions *)

(** [o] is the maximum of [w]: null exactly when [w] is empty, otherwise
    an element of [w] that bounds every element. *)
Definition is_max_of (w : list Q) (o : option Q) : Prop :=
  match o with
  | None => w = []
  | Some m => In m w /\ Forall (fun y => y <= m) w
  end.

(** The rows [j-w .. j-1] of a group: the [w] rows strictly before row
    [j], clipped at the start of the series. *)
Definition prior_window {A} (w j : nat) (s : list A) : list A :=
  firstn (j - (j - w)) (skipn (j - w) s).

(** Two panels agree on a row as far as symbol [s] is concerned. *)
Definition agree_on (s : string) (a b : Portfolio.Row) : Prop :=
  Portfolio.symbol a = Portfolio.symbol b /\
  (Portfolio.symbol a = s -> Portfolio.close a = Portfolio.close b).

(** Within every symbol the rows are in strictly increasing date order
    (a panel sorted by symbol and date, without duplicates). *)
Definition dates_increasing (df : list Portfolio.Row) : Prop :=
  forall s, StronglySorted Z.lt (map Portfolio.date (Portfolio.group_rows s df)).

(** The rows of the symbol of row [i] that precede row [i], last
    [lookback] of them. *)
Definition prior_rows (lookback : nat) (df : list Portfolio.Row) (i : nat)
           (s : string) : list Portfolio.Row :=
  let g := Portfolio.group_rows s (firstn i df) in
  skipn (length g - lookback) g.

(** While a position is open its entry price and date are recorded. *)
Definition open_has_entry (st : Single.State) : Prop :=
  Single.position st <> 0%Z ->
  exists p e, Single.entry_price st = Some p /\ Single.entry_date st = Some e.

(** The admission procedure in the words of the specification: go
    through the day's eligible candidates in order with
    [floor(available_slot_fraction / f)] slots; a candidate for which
    the cash is below [starting_capital * f] is skipped and keeps the
    slot free; an admitted candidate takes one slot. *)
Fixpoint admit_spec (starting_capital f : Q) (d : Timestamp) (slots : nat)
         (cands : list Portfolio.XRow) (st : Portfolio.State)
  : result Portfolio.State :=
  match cands, slots with
  | [], _ => Ok st
  | _ :: _, O => Ok st
  | x :: rest, S k =>
      if Qltb (Portfolio.cash st) (starting_capital * f) then
        admit_spec starting_capital f d (S k) rest st
      else
        let o := Portfolio.open (Portfolio.row x) in
        sh <- py_div (starting_capital * f) o ;;
        admit_spec starting_capital f d k rest
          (Portfolio.mkState
             (Portfolio.cash st - starting_capital * f)
             (dict_set (Portfolio.symbol (Portfolio.row x))
                       (Portfolio.mkPos o sh d) (Portfolio.positions st))
             (Portfolio.trades st) (Portfolio.equity_curve st))
  end.

(** The day's entries in the words of the specification. *)
Definition entry_phase_spec (starting_capital drop_pct f : Q) (d : Timestamp)
           (day_data : list Portfolio.XRow) (st : Portfolio.State)
  : result Portfolio.State :=
  let n_open := inject_Z (Z.of_nat (length (Portfolio.positions st))) in
  let available_slot_fraction := 1 - n_open * f in
  match Portfolio.candidates_of drop_pct (Portfolio.positions st) day_data with
  | [] => Ok st
  | cands =>
      max_new <- py_floordiv available_slot_fraction f ;;
      admit_spec starting_capital f d (Z.to_nat max_new) cands st
  end.

(** Lines 113-122: the rows over which the loop of line 122 runs,
    [candidates.head(max_new)]; none when the test of line 114 fails or
    the day has no candidate. *)
Definition examined (drop_pct f : Q) (day_data : list Portfolio.XRow)
           (st : Portfolio.State) : result (list Portfolio.XRow) :=
  let open_trades := inject_Z (Z.of_nat (length (Portfolio.positions st))) in
  if Qltb (open_trades * f) 1 then
    match Portfolio.candidates_of drop_pct (Portfolio.positions st) day_data with
    | [] => Ok []
    | candidates =>
        max_new <- py_floordiv (1 - open_trades * f) f ;;
        Ok (head max_new candidates)
    end
  else Ok [].

(** The day's cap, [floor(available_slot_fraction / f)]. *)
Definition day_cap (f : Q) (st : Portfolio.State) : nat :=
  Z.to_nat
    (Qfloor ((1 - inject_Z (Z.of_nat (length (Portfolio.positions st))) * f) / f)).

(** The candidates that the procedure of the specification considers
    (tests for cash): it goes on while a slot is free, and a candidate
    skipped for cash leaves the number of free slots as it was. *)
Fixpoint considered_spec (invest : Q) (slots : nat) (cash : Q)
         (cands : list Portfolio.XRow) : list Portfolio.XRow :=
  match cands, slots with
  | [], _ => []
  | _ :: _, O => []
  | x :: rest, S k =>
      if Qltb cash invest then x :: considered_spec invest (S k) cash rest
      else x :: considered_spec invest k (cash - invest) rest
  end.

(** The sentence of the specification: the candidates that the day
    considers are those of the procedure above, so that a candidate
    skipped for cash does not reduce their number. *)
Definition skip_keeps_slot_free (starting_capital drop_pct f : Q)
           (day_data : list Portfolio.XRow) (st : Portfolio.State) : Prop :=
  examined drop_pct f day_data st
  = Ok (considered_spec (starting_capital * f) (day_cap f st) (Portfolio.cash st)
          (Portfolio.candidates_of drop_pct (Portfolio.positions st) day_data)).

(** [len(positions)] as a number. *)
Definition open_count (st : Portfolio.State) : Q :=
  inject_Z (Z.of_nat (length (Portfolio.positions st))).

(** The keys of a portfolio ledger row and of a single-instrument one. *)
Definition portfolio_fields : list string :=
  ["symbol"; "entry_date"; "exit_date"; "entry_price"; "exit_price";
   "return"; "exit_reason"]%string.

Definition single_fields : list string :=
  ["symbol"; "side"; "entry_date"; "entry_price"; "exit_date"; "exit_price";
   "return"; "holding_days"; "exit_reason"]%string.

(** A portfolio ledger row: built by [trade_row], entry before exit. *)
Definition wf_trade_row (r : dict value) : Prop :=
  exists sym pos d price ret why,
    r = Portfolio.trade_row sym pos d price ret why /\
    (Portfolio.entry_date pos < d)%Z.

(** The position was opened on a row of the panel that carried the
    entry signal, at that row's open. *)
Definition entered_on_signal (drop_pct : Q) (xdf : list Portfolio.XRow)
           (sym : string) (pos : Portfolio.Pos) : Prop :=
  exists x, In x xdf /\
            Portfolio.symbol (Portfolio.row x) = sym /\
            Portfolio.date (Portfolio.row x) = Portfolio.entry_date pos /\
            Portfolio.open (Portfolio.row x) = Portfolio.entry_price pos /\
            f_le (Portfolio.drop_from_high x) (- drop_pct) = true.

Definition pos_inv (drop_pct : Q) (xdf : list Portfolio.XRow)
           (later : list Timestamp) (kv : string * Portfolio.Pos) : Prop :=
  ~ Portfolio.entry_price (snd kv) == 0 /\
  entered_on_signal drop_pct xdf (fst kv) (snd kv) /\
  Forall (fun d => (Portfolio.entry_date (snd kv) < d)%Z) later.

(** Invariant of the portfolio loop; [later] are the dates still to be
    processed. *)
Definition portfolio_inv (drop_pct : Q) (xdf : list Portfolio.XRow)
           (later : list Timestamp) (st : Portfolio.State) : Prop :=
  Forall (pos_inv drop_pct xdf later) (Portfolio.positions st) /\
  Forall wf_trade_row (Portfolio.trades st).

(** A single-instrument ledger row: built by [ledger_row] from two dates
    of the series, entry before exit, holding days their difference in
    whole days. *)
Definition wf_ledger_row (dates : list Timestamp) (r : dict value) : Prop :=
  exists sym sd e_date e_price x_date x_price ret reason,
    r = Single.ledger_row sym sd e_date e_price x_date x_price ret
                          (timedelta_days x_date e_date) reason /\
    In e_date dates /\ In x_date dates /\
    (e_date < x_date)%Z.

(** Invariant of the single-instrument loop; [rest] are the rows still
    to be processed. *)
Definition single_inv (dates : list Timestamp) (rest : list Single.XRow)
           (st : Single.State) : Prop :=
  (Single.position st <> 0%Z ->
   exists p e, Single.entry_price st = Some p /\
               Single.entry_date st = Some e /\
               In e dates /\
               Forall (fun x => (e < Single.date (Single.row x))%Z) rest) /\
  Forall (wf_ledger_row dates) (Single.ledger st).

(** Every timestamp is a midnight: the series is daily. *)
Definition daily (dates : list Timestamp) : Prop :=
  Forall (fun d => (d mod NS_PER_DAY = 0)%Z) dates.

(** What a ledger row of each simulator offers to a reader. *)
Definition single_row_ok (r : dict value) : Prop :=
  dict_keys r = single_fields /\
  exists e x,
    dict_get "entry_date" r = Some (VDate e) /\
    dict_get "exit_date" r = Some (VDate x) /\
    (e < x)%Z /\
    dict_get "holding_days" r = Some (VInt (timedelta_days x e)).

Definition portfolio_row_ok (r : dict value) : Prop :=
  dict_keys r = portfolio_fields /\
  exists e x,
    dict_get "entry_date" r = Some (VDate e) /\
    dict_get "exit_date" r = Some (VDate x) /\
    (e < x)%Z.

(** A ledger row that spans at least one day. *)
Definition spans_a_day (dates : list Timestamp) (r : dict value) : Prop :=
  exists e x h,
    dict_get "entry_date" r = Some (VDate e) /\
    dict_get "exit_date" r = Some (VDate x) /\
    dict_get "holding_days" r = Some (VInt h) /\
    (e < x)%Z /\
    (daily dates -> (1 <= h)%Z).

(** A count as a rational. *)
Definition nat_q (n : nat) : Q := inject_Z (Z.of_nat n).

(** Order of instrument identifiers: Python's string comparison, on
    ASCII identifiers. *)
Definition str_lt (a b : string) : Prop := String.compare a b = Lt.

(** The panel order of [_load_and_prepare_data]: by symbol, then by
    date, without duplicate (symbol, date). *)
Definition row_lt (a b : Portfolio.Row) : Prop :=
  str_lt (Portfolio.symbol a) (Portfolio.symbol b) \/
  (Portfolio.symbol a = Portfolio.symbol b /\
   (Portfolio.date a < Portfolio.date b)%Z).

Definition panel_sorted (df : list Portfolio.Row) : Prop :=
  StronglySorted row_lt df.

Definition xsymbol (x : Portfolio.XRow) : string :=
  Portfolio.symbol (Portfolio.row x).

(** [df[df["date"] == d]] on the panel with its computed columns. *)
Definition day_data_of (lookback : nat) (df : list Portfolio.Row) (d : Timestamp)
  : list Portfolio.XRow :=
  filter (fun x => (Portfolio.date (Portfolio.row x) =? d)%Z)
         (Portfolio.add_columns lookback df).

(** The positions dictionary has distinct keys and no zero entry price. *)
Definition positions_ok (st : Portfolio.State) : Prop :=
  NoDup (dict_keys (Portfolio.positions st)) /\
  Forall (fun kv => ~ Portfolio.entry_price (snd kv) == 0) (Portfolio.positions st).

(** Gross profit and gross loss in the words of the specification: the
    sum of the winning returns, and the absolute value of the sum of the
    others. *)
Definition gross_profit (r : list Q) : Q :=
  Report.qsum (filter (fun x => Qltb 0 x) r).

Definition gross_loss (r : list Q) : Q :=
  - Report.qsum (filter (fun x => Qle_bool x 0) r).

(** The Sharpe formula on the raw series, for a daily rate [d]: zero
    when the standard deviation is zero, otherwise
    [sqrt(252) * (mean - d) / std]. *)
Definition sharpe_closed_form (d : R) (returns : list R) : option R :=
  match Sharpe.std returns with
  | Some s =>
      if Req_dec_T s 0%R then Some 0%R
      else
        match Sharpe.mean returns with
        | Some m => Some (sqrt 252 * (m - d) / s)%R
        | None => None
        end
  | None => None
  end.

(** The state of the portfolio loop after the first [k] dates of the
    panel. *)
Definition state_after (starting_capital drop_pct f stop_loss take_profit : Q)
           (lookback : nat) (df : list Portfolio.Row) (k : nat)
  : result Portfolio.State :=
  Portfolio.run_days starting_capital drop_pct f stop_loss take_profit
                     (Portfolio.add_columns lookback df)
                     (firstn k (Portfolio.dates_of df))
                     (Portfolio.init_state starting_capital).

(** The exit date written in a ledger row. *)
Definition row_exit_date (r : dict value) : Timestamp :=
  match dict_get "exit_date" r with
  | Some (VDate d) => d
  | _ => 0%Z
  end.

(** The return of a portfolio ledger row is the relative move from entry
    to exit price, and it is on the side of the threshold named by the
    exit reason. *)
Definition return_matches_reason (stop_loss take_profit : Q) (r : dict value)
  : Prop :=
  exists entry_price exit_price ret,
    dict_get "entry_price" r = Some (VNum (Fin entry_price)) /\
    dict_get "exit_price" r = Some (VNum (Fin exit_price)) /\
    dict_get "return" r = Some (VNum (Fin ret)) /\
    ret = exit_price / entry_price - 1 /\
    ((dict_get "exit_reason" r = Some (VStr "take_profit") /\
      take_profit <= ret) \/
     (dict_get "exit_reason" r = Some (VStr "stop_loss") /\
      ret <= - stop_loss /\ ret < take_profit)).

(** A state without position or trade, with the starting capital as
    cash and a flat equity curve. *)
Definition untouched (starting_capital : Q) (st : Portfolio.State) : Prop :=
  Portfolio.positions st = [] /\
  Portfolio.trades st = [] /\
  Portfolio.cash st = starting_capital /\
  Forall (fun p => snd p == starting_capital) (Portfolio.equity_curve st).

(** The return written in a ledger row, and the sum over a ledger. *)
Definition row_return (r : dict value) : Q :=
  match dict_get "return" r with
  | Some (VNum (Fin q)) => q
  | _ => 0
  end.

Definition realized_return_sum (trades : list (dict value)) : Q :=
  fold_right (fun r acc => row_return r + acc) 0 trades.

(** Cash conservation: the cash is the starting capital, less one slot
    per open position, plus one slot times the sum of the realized
    returns. *)
Definition cash_balanced (starting_capital f : Q) (st : Portfolio.State) : Prop :=
  Portfolio.cash st
  == starting_capital
     - starting_capital * f * open_count st
     + starting_capital * f * realized_return_sum (Portfolio.trades st).

Definition slots_sized (starting_capital f : Q) (st : Portfolio.State) : Prop :=
  Forall (fun kv =>
            ~ Portfolio.entry_price (snd kv) == 0 /\
            Portfolio.shares (snd kv) * Portfolio.entry_price (snd kv)
            == starting_capital * f)
         (Portfolio.positions st).

(** The two facts that every day of the simulation preserves. *)
Definition balanced (starting_capital f : Q) (st : Portfolio.State) : Prop :=
  slots_sized starting_capital f st /\ cash_balanced starting_capital f st.

(* ------------------------------------------------------------------ *)
(** ** Arithmetic on column values *)

(** Sum and product of two floats, exact on finite values, with the
    IEEE rules for the infinities and NaN. *)
Definition fnum_add (x y : fnum) : fnum :=
  match x, y with
  | NaN, _ | _, NaN => NaN
  | Fin a, Fin b => Fin (a + b)
  | PInf, NInf | NInf, PInf => NaN
  | PInf, _ | _, PInf => PInf
  | NInf, _ | _, NInf => NInf
  end.

Definition fnum_scale_inf (positive : bool) (a : Q) : fnum :=
  if Qltb 0 a then (if positive then PInf else NInf)
  else if Qltb a 0 then (if positive then NInf else PInf)
  else NaN.

Definition fnum_mul (x y : fnum) : fnum :=
  match x, y with
  | NaN, _ | _, NaN => NaN
  | Fin a, Fin b => Fin (a * b)
  | Fin a, PInf | PInf, Fin a => fnum_scale_inf true a
  | Fin a, NInf | NInf, Fin a => fnum_scale_inf false a
  | PInf, PInf | NInf, NInf => PInf
  | PInf, NInf | NInf, PInf => NInf
  end.

(** [x / n] for a positive count [n]. *)
Definition fnum_div_count (x : fnum) (n : nat) : fnum :=
  match x with
  | Fin a => Fin (a / inject_Z (Z.of_nat n))
  | other => other
  end.

(** [Series.fillna(0)] on one value. *)
Definition fillna0 (x : fnum) : fnum :=
  match x with
  | NaN => Fin 0
  | other => other
  end.

(** [Series.mean()] of a column without NaN; NaN when it is empty. *)
Definition fnum_mean (l : list fnum) : fnum :=
  match l with
  | [] => NaN
  | _ => fnum_div_count (fold_left fnum_add l (Fin 0)) (length l)
  end.

(** [Series.cumprod()] and [Series.prod()] of a column without NaN. *)
Fixpoint cumprod_from (acc : fnum) (l : list fnum) : list fnum :=
  match l with
  | [] => []
  | x :: r => let a := fnum_mul acc x in a :: cumprod_from a r
  end.

Definition cumprod (l : list fnum) : list fnum :=
  match l with
  | [] => []
  | x :: r => x :: cumprod_from x r
  end.

Definition fnum_prod (l : list fnum) : fnum :=
  fold_left fnum_mul l (Fin 1).

(* ------------------------------------------------------------------ *)
(** ** backtester.py: the statistics of [Backtester.run] (lines 179-207) *)

Module SingleStats.

(** [df["position"].shift(1)] at row [i], as a float. *)
Definition prev_position (positions : list Z) (i : nat) : fnum :=
  match i with
  | O => NaN
  | S j =>
      match nth_error positions j with
      | Some p => Fin (inject_Z p)
      | None => NaN
      end
  end.

(** [df["return"] = df["close"].pct_change() * df["position"].shift(1)] *)
Definition return_at (closes : list Q) (positions : list Z) (i : nat) : fnum :=
  fnum_mul (Single.pct_change_at 1 closes i) (prev_position positions i).

Definition return_col (closes : list Q) (positions : list Z) : list fnum :=
  map (return_at closes positions) (seq 0 (length closes)).

(** [1 + df["return"].fillna(0)] *)
Definition growth (returns : list fnum) : list fnum :=
  map (fun r => fnum_add (Fin 1) (fillna0 r)) returns.

(** [df.loc[signal, change].mean() if signal.any() else 0.0] *)
Definition avg_move (rows : list (bool * fnum)) : fnum :=
  match filter fst rows with
  | [] => Fin 0
  | fired => fnum_mean (map snd fired)
  end.

(** The dictionary returned by [Backtester.run]. *)
Record Result : Type := mkResult {
  symbol : string;
  action : string;
  total_return : fnum;
  num_trades : nat;
  avg_entry_move : fnum;
  avg_exit_move : fnum;
  positions : list Z;
  returns : list fnum;
  equity : list fnum;
  trades : list (dict value)
}.

(** [Backtester.run], with the statistics computed after the loop. *)
Definition run (s : Single.Strategy) (df : list Single.Row) : result Result :=
  st <- Single.run s df ;;
  let xdf := Single.add_signals s df in
  let closes := map Single.close df in
  let rets := return_col closes (Single.positions st) in
  let avg_entry :=
    avg_move (map (fun x => (Single.entry_signal x, Single.entry_change x)) xdf) in
  let avg_exit :=
    avg_move (map (fun x =>
                     match Single.exit_change x with
                     | Some c => (Single.exit_signal x, c)
                     | None => (false, NaN)
                     end) xdf) in
  Ok (mkResult (Single.upper (Single.rule_symbol (Single.entry s)))
               (Single.action (Single.entry s))
               (fsub (fnum_prod (growth rets)) 1)
               (length (Single.ledger st))
               avg_entry avg_exit
               (Single.positions st) rets (cumprod (growth rets))
               (Single.ledger st)).

End SingleStats.

(** The entry date written in a ledger row. *)
Definition row_entry_date (r : dict value) : Timestamp :=
  match dict_get "entry_date" r with
  | Some (VDate d) => d
  | _ => 0%Z
  end.

(** The side that [Backtester.run] trades: long for a buy, short
    otherwise. *)
Definition side_of_action (act : string) : Z :=
  if String.eqb act "buy" then 1%Z else (-1)%Z.

Definition side_name (sd : Z) : string :=
  if (sd =? 1)%Z then "long" else "short".

(** A float that is a finite number equal to [q]. *)
Definition is_fin (x : fnum) (q : Q) : Prop :=
  match x with
  | Fin a => a == q
  | _ => False
  end.

(** The number of rows before the first entry signal: all of them when
    no entry signal fires. *)
Fixpoint rows_before_entry (rows : list Single.XRow) : nat :=
  match rows with
  | [] => 0
  | x :: rest =>
      if Single.entry_signal x then 0 else S (rows_before_entry rest)
  end.

(* ------------------------------------------------------------------ *)
(** ** nlp_backtest_workflow.py: [calculate_max_drawdown] (lines 20-23) *)

(** [Series.cummax()] *)
Fixpoint cummax_from (m : Q) (l : list Q) : list Q :=
  match l with
  | [] => []
  | x :: r => let m' := Qmaxb m x in m' :: cummax_from m' r
  end.

Definition cummax (l : list Q) : list Q :=
  match l with
  | [] => []
  | x :: r => x :: cummax_from x r
  end.

(** The smaller of two floats, NaN being skipped. *)
Definition fnum_min2 (x y : fnum) : fnum :=
  match x, y with
  | NaN, o | o, NaN => o
  | NInf, _ | _, NInf => NInf
  | PInf, o | o, PInf => o
  | Fin a, Fin b => Fin (if Qle_bool a b then a else b)
  end.

(** [Series.min()]: NaN is skipped; NaN when nothing is left. *)
Definition series_min (l : list fnum) : fnum := fold_left fnum_min2 l NaN.

(** [(equity_series - cumulative_max) / cumulative_max] *)
Definition drawdown (equity_series : list Q) : list fnum :=
  map (fun em => np_div (fst em - snd em) (snd em))
      (combine equity_series (cummax equity_series)).

Definition calculate_max_drawdown (equity_series : list Q) : fnum :=
  series_min (drawdown equity_series).

(** A float that is a finite number in the interval (lo, hi]. *)
Definition fin_within (lo hi : Q) (x : fnum) : Prop :=
  match x with
  | Fin d => lo < d /\ d <= hi
  | _ => False
  end.

(* ------------------------------------------------------------------ *)
(** ** Loading the CSV (backtester.py lines 21-54 and 74,
       portfolio_backtester.py lines 18-42 and 57)

    The CSV is modelled after [read_csv], the renaming of the columns and
    [to_datetime(errors="coerce")]: a list of rows whose cells may be
    missing. *)

(** [str.lower()] on ASCII letters. *)
Definition lower_ascii (c : Ascii.ascii) : Ascii.ascii :=
  let n := Ascii.nat_of_ascii c in
  if (65 <=? n)%nat && (n <=? 90)%nat then Ascii.ascii_of_nat (n + 32) else c.

Fixpoint lower (s : string) : string :=
  match s with
  | EmptyString => EmptyString
  | String c r => String (lower_ascii c) (lower r)
  end.

(** The sort key of a row: its symbol and its date. *)
Definition Key : Type := (string * Timestamp)%type.

(** The order of [sort_values(["symbol", "date"])]. *)
Definition key_leb (a b : Key) : bool :=
  match String.compare (fst a) (fst b) with
  | Lt => true
  | Eq => (snd a <=? snd b)%Z
  | Gt => false
  end.

Definition key_eqb (a b : Key) : bool :=
  String.eqb (fst a) (fst b) && (snd a =? snd b)%Z.

Section Frames.

Context {A : Type} (key : A -> Key).

(** [df.sort_values(["symbol", "date"])]: rows with the same key keep
    their order. *)
Fixpoint insert_by (x : A) (l : list A) : list A :=
  match l with
  | [] => [x]
  | y :: r => if key_leb (key x) (key y) then x :: l else y :: insert_by x r
  end.

Definition sort_values (l : list A) : list A := fold_right insert_by [] l.

(** [df.drop_duplicates(subset=["symbol", "date"])]: the first row of
    each key is kept. *)
Fixpoint drop_duplicates_from (seen : list Key) (l : list A) : list A :=
  match l with
  | [] => []
  | x :: r =>
      if existsb (key_eqb (key x)) seen then drop_duplicates_from seen r
      else x :: drop_duplicates_from (key x :: seen) r
  end.

Definition drop_duplicates (l : list A) : list A := drop_duplicates_from [] l.

End Frames.

(** [dropna] and the like: the rows for which [f] gives a value. *)
Fixpoint filter_map {A B} (f : A -> option B) (l : list A) : list B :=
  match l with
  | [] => []
  | x :: r =>
      match f x with
      | Some y => y :: filter_map f r
      | None => filter_map f r
      end
  end.

Module SingleLoader.

(** A row of the CSV read by [Backtester]: the symbol and close columns
    hold values, the date is [None] where it could not be parsed. *)
Record CsvRow : Type := mkCsvRow {
  symbol : string;
  date : option Timestamp;
  close : Q
}.

(** A row of [self.data]. *)
Definition DataRow : Type := (string * Single.Row)%type.

Definition key (r : DataRow) : Key := (fst r, Single.date (snd r)).

(** [df.dropna(subset=["date"])] *)
Definition valid_date (r : CsvRow) : option DataRow :=
  match date r with
  | Some d => Some (symbol r, Single.mkRow d (close r))
  | None => None
  end.

Definition _load_and_validate_data (csv : list CsvRow) : list DataRow :=
  sort_values key (drop_duplicates key (filter_map valid_date csv)).

(** [self.data[self.data["symbol"].str.upper() == symbol]] (line 74) *)
Definition select (sym : string) (data : list DataRow) : list Single.Row :=
  map snd (filter (fun r => String.eqb (Single.upper (fst r)) sym) data).

(** [Backtester(csv).run(strategy)] up to the end of the loop, for a
    strategy as [Single.Strategy] models it: a value of the condition is
    a number or its key is missing. *)
Definition load_and_run (s : Single.Strategy) (csv : list CsvRow)
  : result Single.State :=
  Single.run s (select (Single.upper (Single.rule_symbol (Single.entry s)))
                       (_load_and_validate_data csv)).

End SingleLoader.

Module PortfolioLoader.

(** A row of the CSV read by [PortfolioBacktester]; [None] is a missing
    cell. *)
Record CsvRow : Type := mkCsvRow {
  date : option Timestamp;
  symbol : option string;
  open : option Q;
  close : option Q;
  sector : option string
}.

(** A row of [self.data]: the four required columns and the sector. *)
Definition DataRow : Type := (Portfolio.Row * string)%type.

Definition key {B} (r : Portfolio.Row * B) : Key :=
  (Portfolio.symbol (fst r), Portfolio.date (fst r)).

(** [df.dropna(subset=["date", "symbol", "open", "close"])] *)
Definition complete (r : CsvRow) : option (Portfolio.Row * option string) :=
  match date r, symbol r, open r, close r with
  | Some d, Some s, Some o, Some c => Some (Portfolio.mkRow d s o c, sector r)
  | _, _, _, _ => None
  end.

(** Lines 38-41: the sector as lower-case text ("nan" for a missing
    cell), or "unknown" when the CSV has no sector column. *)
Definition sector_text (has_sector_column : bool) (cell : option string) : string :=
  if has_sector_column then
    lower (match cell with Some s => s | None => "nan"%string end)
  else "unknown"%string.

Definition _load_and_prepare_data (has_sector_column : bool) (csv : list CsvRow)
  : list DataRow :=
  map (fun r => (fst r, sector_text has_sector_column (snd r)))
      (sort_values key (filter_map complete csv)).

(** [self.data[self.data["sector"].str.lower() == sector_name.lower()]]
    (line 57) *)
Definition sector_frame (sector_name : string) (data : list DataRow)
  : list Portfolio.Row :=
  map fst (filter (fun r => String.eqb (lower (snd r)) (lower sector_name)) data).

End PortfolioLoader.

(** The strict order on keys: by symbol, then by date. *)
Definition key_lt (a b : Key) : Prop :=
  str_lt (fst a) (fst b) \/ (fst a = fst b /\ (snd a < snd b)%Z).

(** The same order on rows, through their keys. *)
Definition rows_lt {A : Type} (key : A -> Key) (a b : A) : Prop :=
  key_lt (key a) (key b).

(** The CSV has a dated row for the symbol [sym] (compared in upper
    case). *)
Definition has_data (sym : string) (csv : list SingleLoader.CsvRow) : bool :=
  existsb (fun r =>
             match SingleLoader.date r with
             | Some _ => String.eqb (Single.upper (SingleLoader.symbol r)) sym
             | None => false
             end) csv.

(* ------------------------------------------------------------------ *)
(** ** nlp_backtest_workflow.py: [assign_allocation_groups] (lines 54-73) *)

Module Groups.

(** The two columns of the ledger that the grouping reads. *)
Record Trade : Type := mkTrade {
  entry_date : Timestamp;
  exit_date : Timestamp
}.

(** A row with the two columns that the grouping adds; [None] is the
    initial [group_id]. *)
Record Marked : Type := mkMarked {
  trade : Trade;
  group_id : option Z;
  highlight : bool
}.

(** [(df["entry_date"] < trade["exit_date"]) & (df["exit_date"] > trade["entry_date"])]
    on the row [u]. *)
Definition overlaps (t u : Trade) : bool :=
  ((entry_date u <? exit_date t) && (exit_date u >? entry_date t))%Z.

(** [active_trades * allocation >= 1.0] *)
Definition full (allocation : Q) (frame : list Trade) (t : Trade) : bool :=
  Qle_bool 1 (inject_Z (Z.of_nat (length (filter (overlaps t) frame))) * allocation).

(** [trades_df.loc[overlapping.index, "group_id"] = group_id] *)
Definition set_group (t : Trade) (g : Z) (rows : list Marked) : list Marked :=
  map (fun m => if overlaps t (trade m)
                then mkMarked (trade m) (Some g) (highlight m)
                else m) rows.

(** [trades_df.at[i, "highlight"] = True] *)
Fixpoint set_highlight (i : nat) (rows : list Marked) : list Marked :=
  match rows, i with
  | [], _ => []
  | m :: r, O => mkMarked (trade m) (group_id m) true :: r
  | m :: r, S j => m :: set_highlight j r
  end.

(** One turn of the loop, on row [i]; the state is the frame and the
    next group id. *)
Definition step (allocation : Q) (acc : list Marked * Z) (i : nat)
  : list Marked * Z :=
  let (rows, gid) := acc in
  match nth_error rows i with
  | None => acc
  | Some m =>
      let t := trade m in
      if full allocation (map trade rows) t
      then (set_highlight i (set_group t gid rows), (gid + 1)%Z)
      else acc
  end.

(** Lines 54-73; [frame] is the ledger that line 53 has sorted by entry
    date. *)
Definition loop (allocation : Q) (frame : list Trade) : list Marked :=
  fst (fold_left (step allocation) (seq 0 (length frame))
                 (map (fun t => mkMarked t None false) frame, 1%Z)).

End Groups.

(** The number of highlighted rows. *)
Definition highlighted (rows : list Groups.Marked) : nat :=
  length (filter (fun b : bool => b) (map Groups.highlight rows)).

(** What holds of the frame before the turn on row [k]. *)
Definition groups_inv (allocation : Q) (frame : list Groups.Trade) (k : nat)
           (acc : list Groups.Marked * Z) : Prop :=
  let (rows, gid) := acc in
  map Groups.trade rows = frame /\
  gid = (1 + Z.of_nat (highlighted rows))%Z /\
  forall j m, nth_error rows j = Some m ->
    Groups.highlight m
    = (j <? k)%nat && Groups.full allocation frame (Groups.trade m) /\
    (Groups.highlight m = true ->
     Groups.overlaps (Groups.trade m) (Groups.trade m) = true ->
     Groups.group_id m <> None) /\
    (forall g, Groups.group_id m = Some g -> (1 <= g < gid)%Z).

(* ------------------------------------------------------------------ *)
(** ** From the parsed text to the allocation, stop-loss and take-profit
       of the portfolio run (strategy_parser.py lines 60-81 and 182-200,
       nlp_backtest_workflow.py lines 99-101)

    The regular expressions are not modelled: the numbers they match in
    the text are the input ([None] when an expression does not match).
    The drop threshold and the lookback, which [main] reads from the
    entry condition, are not part of this model. *)

Module Workflow.

Record Matches : Type := mkMatches {
  stop_match : option Q;      (* the number after "stop loss" *)
  take_match : option Q;      (* the number after "take profit" *)
  capital_match : option Q    (* the number before "capital" *)
}.

(** [_extract_stop_take] *)
Definition _extract_stop_take (m : Matches) : option Q * option Q :=
  (option_map (fun v => v / 100) (stop_match m),
   option_map (fun v => v / 100) (take_match m)).

(** [_extract_allocation] *)
Definition _extract_allocation (m : Matches) : option Q :=
  option_map (fun val => if Qltb 1 val then val / 100 else val) (capital_match m).

(** [if x:] on an optional float: [None] and 0.0 are false. *)
Definition truthy (x : option Q) : bool :=
  match x with
  | Some v => negb (Qeqb v 0)
  | None => false
  end.

(** The three keys that [parse] adds to its result only when their value
    is true; [None] is an absent key. *)
Record Parsed : Type := mkParsed {
  allocation : option Q;
  stop_loss : option Q;
  take_profit : option Q
}.

Definition parse (m : Matches) : Parsed :=
  let (sl, tp) := _extract_stop_take m in
  let a := _extract_allocation m in
  mkParsed (if truthy a then a else None)
           (if truthy sl then sl else None)
           (if truthy tp then tp else None).

(** [strategy.get(key, default)] *)
Definition get (x : option Q) (default : Q) : Q :=
  match x with
  | Some v => v
  | None => default
  end.

End Workflow.

(** The numbers matched in a text are written with digits: none is
    negative. *)
Definition matches_nonneg (m : Workflow.Matches) : Prop :=
  (forall v, Workflow.stop_match m = Some v -> 0 <= v) /\
  (forall v, Workflow.take_match m = Some v -> 0 <= v) /\
  (forall v, Workflow.capital_match m = Some v -> 0 <= v).

(* ------------------------------------------------------------------ *)
(** ** portfolio_backtester.py: the dictionary returned by
       [run_sector_strategy] (lines 144-165) *)

Module PortfolioResults.

Record Results : Type := mkResults {
  equity : list (Timestamp * Q);
  trades : list (dict value);
  final_equity : Q;
  total_return : fnum
}.

(** [equity_df["equity"].iloc[-1]] and the return over the starting
    capital; an empty equity curve has no "equity" column. *)
Definition results_of (starting_capital : Q) (st : Portfolio.State)
  : result Results :=
  match rev (Portfolio.equity_curve st) with
  | [] => Err KeyError
  | (_, e) :: _ =>
      Ok (mkResults (Portfolio.equity_curve st) (Portfolio.trades st) e
                    (fsub (np_div e starting_capital) 1))
  end.

Definition run (starting_capital drop_pct f stop_loss take_profit : Q)
           (df : list Portfolio.Row) (lookback_days : Z) : result Results :=
  st <- Portfolio.run_sector_strategy starting_capital drop_pct f stop_loss
          take_profit df lookback_days ;;
  results_of starting_capital st.

End PortfolioResults.

(** [sorted(self.data["symbol"].unique().tolist())] (backtester.py
    line 53) *)
Fixpoint insert_symbol (s : string) (l : list string) : list string :=
  match l with
  | [] => [s]
  | x :: r =>
      match String.compare s x with
      | Lt => s :: l
      | Eq => l
      | Gt => x :: insert_symbol s r
      end
  end.

Definition available_symbols (data : list SingleLoader.DataRow) : list string :=
  fold_right insert_symbol [] (map fst data).

(** Two floats are the same number: equal rationals, or the same special
    value. *)
Definition fnum_eq (x y : fnum) : Prop :=
  match x, y with
  | Fin a, Fin b => a == b
  | PInf, PInf | NInf, NInf | NaN, NaN => True
  | _, _ => False
  end.

(* ------------------------------------------------------------------ *)
(** ** Example data *)

(** A portfolio panel on which both simulated instruments trade. *)
Definition day (n : Z) : Timestamp := (n * NS_PER_DAY)%Z.

Definition demo_panel : list Portfolio.Row :=
  [ Portfolio.mkRow (day 1) "A" 100 100;
    Portfolio.mkRow (day 2) "A" 90 110;
    Portfolio.mkRow (day 3) "A" 120 120;
    Portfolio.mkRow (day 1) "B" 50 50;
    Portfolio.mkRow (day 2) "B" 40 40;
    Portfolio.mkRow (day 3) "B" 45 45 ]%string.

Definition demo_run : result Portfolio.State :=
  Portfolio.run_sector_strategy 1000 (5 # 100) (1 # 2) (5 # 100) (5 # 100)
                                demo_panel 2.

Definition demo_state : Portfolio.State :=
  Eval vm_compute in
    match demo_run with
    | Ok st => st
    | Err _ => Portfolio.init_state 1000
    end.

(** A single-instrument series and strategy that close one trade. *)
Definition demo_series : list Single.Row :=
  [ Single.mkRow (day 1) 100; Single.mkRow (day 2) 100;
    Single.mkRow (day 3) 94; Single.mkRow (day 4) 94;
    Single.mkRow (day 5) 103; Single.mkRow (day 6) 110 ].

Definition demo_strategy : Single.Strategy :=
  Single.mkStrategy
    (Single.mkRule "buy" "x"
       (Single.mkCondition (Some 2%Z) (Some (5 # 100)) (Some "down"%string) None None))
    (Some (Single.mkRule "sell" "x"
       (Single.mkCondition (Some 2%Z) (Some (3 # 100)) (Some "up"%string)
                           (Some (1 # 100)) (Some (2 # 100))))).

(** A position bought at 100 with both thresholds at zero, and a day on
    which the close is 100 again: take-profit and stop-loss hold
    together. *)
Definition demo_flat_state : Portfolio.State :=
  Portfolio.mkState 500 [("A"%string, Portfolio.mkPos 100 5 (day 1))] [] [].

Definition demo_flat_day : list Portfolio.XRow :=
  [Portfolio.mkXRow (Portfolio.mkRow (day 2) "A" 100 100) (Some 100) (Fin 0)].

Definition demo_flat_exit : Portfolio.State :=
  Eval vm_compute in
    match Portfolio.exit_phase 0 0 (day 2) demo_flat_day demo_flat_state with
    | Ok st => st
    | Err _ => demo_flat_state
    end.

(** [demo_strategy] with a take-profit threshold below the stop-loss
    one, so that a fall of six percent meets both. *)
Definition demo_both_strategy : Single.Strategy :=
  Single.mkStrategy
    (Single.mkRule "buy" "x"
       (Single.mkCondition (Some 2%Z) (Some (5 # 100)) (Some "down"%string) None None))
    (Some (Single.mkRule "sell" "x"
       (Single.mkCondition (Some 2%Z) (Some (3 # 100)) (Some "up"%string)
                           (Some (1 # 100)) (Some (- (1 # 10)))))).

Definition demo_both_row : Single.XRow :=
  Single.xrow_of demo_both_strategy (map Single.close demo_series) 3
                 (Single.mkRow (day 4) 94).

Definition demo_both_state : Single.State :=
  Eval vm_compute in
    match Single.loop "X" "buy" 0
            (firstn 3 (Single.add_signals demo_both_strategy demo_series))
            Single.init_state with
    | Ok st => st
    | Err _ => Single.init_state
    end.

(** A panel of five symbols.  P and Q are bought on the second day; on
    the third day P is closed with a profit and Q with a loss, which
    leaves 950 in cash, and A, B and C are candidates. *)
Definition demo_skip_panel : list Portfolio.Row :=
  [ Portfolio.mkRow (day 1) "A" 100 100;
    Portfolio.mkRow (day 2) "A" 100 100;
    Portfolio.mkRow (day 3) "A" 90 90;
    Portfolio.mkRow (day 1) "B" 100 100;
    Portfolio.mkRow (day 2) "B" 100 100;
    Portfolio.mkRow (day 3) "B" 90 90;
    Portfolio.mkRow (day 1) "C" 100 100;
    Portfolio.mkRow (day 2) "C" 100 100;
    Portfolio.mkRow (day 3) "C" 90 90;
    Portfolio.mkRow (day 1) "P" 100 100;
    Portfolio.mkRow (day 2) "P" 90 90;
    Portfolio.mkRow (day 3) "P" 100 99;
    Portfolio.mkRow (day 1) "Q" 100 100;
    Portfolio.mkRow (day 2) "Q" 90 90;
    Portfolio.mkRow (day 3) "Q" 100 72 ]%string.

(** The rows of the third day, and the state of the run on
    [demo_skip_panel] after the exits of the third day. *)
Definition demo_skip_day : list Portfolio.XRow :=
  Eval vm_compute in day_data_of 2 demo_skip_panel (day 3).

Definition demo_skip_state : Portfolio.State :=
  Eval vm_compute in
    match
      st2 <- Portfolio.run_days 1000 (5 # 100) (1 # 2) (5 # 100) (5 # 100)
               (Portfolio.add_columns 2 demo_skip_panel) [day 1; day 2]
               (Portfolio.init_state 1000) ;;
      Portfolio.exit_phase (5 # 100) (5 # 100) (day 3) demo_skip_day st2
    with
    | Ok st => st
    | Err _ => Portfolio.init_state 1000
    end.

(** The state after the entries of the third day, and after the
    admission of A alone. *)
Definition demo_skip_final : Portfolio.State :=
  Eval vm_compute in
    match Portfolio.entry_phase 1000 (5 # 100) (1 # 2) (day 3) demo_skip_day
                                demo_skip_state with
    | Ok st => st
    | Err _ => demo_skip_state
    end.

Definition demo_skip_row (n : nat) : Portfolio.XRow :=
  nth n (Portfolio.candidates_of (5 # 100) (Portfolio.positions demo_skip_state)
                                 demo_skip_day)
      (Portfolio.mkXRow (Portfolio.mkRow 0%Z EmptyString 0 0) None NaN).

(** The third row of [demo_series] with its signals: the entry signal
    and the exit signal both fire on it. *)
Definition demo_entry_row : Single.XRow :=
  Single.xrow_of demo_strategy (map Single.close demo_series) 2
                 (Single.mkRow (day 3) 94).

(** The entry phase of the second day of [demo_panel] with one slot
    for two eligible candidates. *)
Definition demo_entry_state : Portfolio.State :=
  Eval vm_compute in
    match Portfolio.entry_phase 1000 (5 # 100) 1 (day 2)
                                (day_data_of 2 demo_panel (day 2))
                                (Portfolio.init_state 1000) with
    | Ok st => st
    | Err _ => Portfolio.init_state 1000
    end.

(** A ledger of two winning trades, from the portfolio simulator. *)
Definition demo_winning_trades : Report.Trades :=
  Report.mkTrades [1 # 10; 2 # 10] None.

(** [demo_strategy] without its exit rule, and with a direction that the
    simulator does not know. *)
Definition demo_entry_only : Single.Strategy :=
  Single.mkStrategy (Single.entry demo_strategy) None.

Definition demo_sideways : Single.Strategy :=
  Single.mkStrategy
    (Single.mkRule "buy" "x"
       (Single.mkCondition (Some 2%Z) (Some (5 # 100)) (Some "sideways"%string)
                           None None))
    (Single.exit demo_strategy).

Definition demo_result : SingleStats.Result :=
  Eval vm_compute in
    match SingleStats.run demo_strategy demo_series with
    | Ok r => r
    | Err _ => SingleStats.mkResult EmptyString EmptyString NaN 0 NaN NaN [] [] [] []
    end.

(** A CSV with an unreadable date, a repeated row and rows out of
    order. *)
Definition demo_csv : list SingleLoader.CsvRow :=
  [ SingleLoader.mkCsvRow "x" (Some (day 2)) 10;
    SingleLoader.mkCsvRow "x" None 11;
    SingleLoader.mkCsvRow "x" (Some (day 1)) 12;
    SingleLoader.mkCsvRow "x" (Some (day 2)) 13;
    SingleLoader.mkCsvRow "y" (Some (day 1)) 5 ].

(** A CSV of two symbols in two sectors, with an incomplete row. *)
Definition demo_portfolio_csv : list PortfolioLoader.CsvRow :=
  [ PortfolioLoader.mkCsvRow (Some (day 2)) (Some "b"%string) (Some 10) (Some 11)
                             (Some "Tech"%string);
    PortfolioLoader.mkCsvRow (Some (day 1)) (Some "b"%string) (Some 9) (Some 10)
                             (Some "Tech"%string);
    PortfolioLoader.mkCsvRow (Some (day 1)) (Some "a"%string) None (Some 5)
                             (Some "tech"%string);
    PortfolioLoader.mkCsvRow (Some (day 2)) (Some "a"%string) (Some 5) (Some 6)
                             (Some "TECH"%string);
    PortfolioLoader.mkCsvRow (Some (day 1)) (Some "c"%string) (Some 1) (Some 1)
                             None ].

(* ------------------------------------------------------------------ *)
(** * Proofs *)

(* ------------------------------------------------------------------ *)
(** ** Lists *)

Lemma firstn_skipn_firstn {A} (a k m : nat) (l : list A) :
  (k + a <= m)%nat ->
  firstn a (skipn k (firstn m l)) = firstn a (skipn k l).
Proof.
  intros H. rewrite skipn_firstn_comm, firstn_firstn.
  f_equal. lia.
Qed.

Lemma prior_window_firstn {A} (w j : nat) (s : list A) :
  prior_window w j (firstn j s) = prior_window w j s.
Proof.
  unfold prior_window. apply firstn_skipn_firstn. lia.
Qed.

Lemma prior_window_map {A B} (f : A -> B) (w j : nat) (s : list A) :
  map f (prior_window w j s) = prior_window w j (map f s).
Proof.
  unfold prior_window. now rewrite skipn_map, firstn_map.
Qed.

Lemma filter_firstn_length {A} (p : A -> bool) (i : nat) (l : list A) :
  firstn (length (filter p (firstn i l))) (filter p l) = filter p (firstn i l).
Proof.
  rewrite <- (firstn_skipn i l) at 2.
  rewrite filter_app, firstn_app, Nat.sub_diag, firstn_all. simpl.
  now rewrite app_nil_r.
Qed.

Lemma nth_error_split_at {A} (l : list A) (i : nat) (x : A) :
  nth_error l i = Some x -> l = firstn i l ++ x :: skipn (S i) l.
Proof.
  revert i; induction l as [|a l IH]; intros [|i] H; simpl in *; try discriminate.
  - now inversion H.
  - f_equal. now apply IH.
Qed.

(* ------------------------------------------------------------------ *)
(** ** Rational comparisons *)

Lemma Qmaxb_cases (a b : Q) :
  (Qmaxb a b = b /\ a <= b) \/ (Qmaxb a b = a /\ b <= a).
Proof.
  unfold Qmaxb. destruct (Qle_bool a b) eqn:E.
  - left. split; [reflexivity|]. now apply Qle_bool_iff.
  - right. split; [reflexivity|].
    apply Qlt_le_weak, Qnot_le_lt. intros H.
    apply Qle_bool_iff in H. congruence.
Qed.

Lemma Qltb_lt (a b : Q) : Qltb a b = true <-> a < b.
Proof.
  unfold Qltb. rewrite negb_true_iff. split; intros H.
  - apply Qnot_le_lt. intros H'. apply Qle_bool_iff in H'. congruence.
  - destruct (Qle_bool b a) eqn:E; [|reflexivity].
    apply Qle_bool_iff in E. exfalso. now apply (Qlt_not_le a b).
Qed.

Lemma Qltb_ge (a b : Q) : Qltb a b = false <-> b <= a.
Proof.
  unfold Qltb. rewrite negb_false_iff. apply Qle_bool_iff.
Qed.

Lemma Qeqb_eq (a b : Q) : Qeqb a b = true <-> a == b.
Proof.
  unfold Qeqb. rewrite andb_true_iff, !Qle_bool_iff. split.
  - intros [H1 H2]. now apply Qle_antisym.
  - intros H. rewrite H. split; apply Qle_refl.
Qed.

Lemma Qeqb_neq (a b : Q) : Qeqb a b = false <-> ~ a == b.
Proof.
  rewrite <- Qeqb_eq. destruct (Qeqb a b); split; intros; congruence.
Qed.

(* ------------------------------------------------------------------ *)
(** ** Trailing high *)

Lemma fold_omax_some (w : list Q) (a : Q) :
  exists m, fold_left Portfolio.omax (map Some w) (Some a) = Some m /\
            (m = a \/ In m w) /\ a <= m /\ Forall (fun y => y <= m) w.
Proof.
  revert a; induction w as [|b w IH]; intros a; simpl.
  - exists a. repeat split; auto. apply Qle_refl.
  - destruct (IH (Qmaxb a b)) as (m & Hm & Hin & Hle & Hall).
    exists m. split; [exact Hm|].
    destruct (Qmaxb_cases a b) as [[E Hab]|[E Hab]]; rewrite E in *.
    + repeat split.
      * destruct Hin as [->|Hin]; auto.
      * eapply Qle_trans; eauto.
      * constructor; auto.
    + repeat split.
      * destruct Hin as [->|Hin]; auto.
      * exact Hle.
      * constructor; auto. eapply Qle_trans; eauto.
Qed.

Lemma nanmax_is_max (w : list Q) :
  is_max_of w (Portfolio.nanmax (map Some w)).
Proof.
  unfold Portfolio.nanmax. destruct w as [|a w]; simpl; [reflexivity|].
  destruct (fold_omax_some w a) as (m & Hm & Hin & Hle & Hall).
  rewrite Hm. simpl. split.
  - destruct Hin as [->|Hin]; auto.
  - constructor; auto.
Qed.

Lemma window_shift1 (w j : nat) (x : list Q) :
  (1 <= w)%nat -> (j < length x)%nat ->
  Portfolio.nanmax (Portfolio.window w j (Portfolio.shift1 x))
  = Portfolio.nanmax (map Some (prior_window w j x)).
Proof.
  intros Hw Hj. unfold Portfolio.window, Portfolio.shift1, prior_window.
  destruct x as [|x0 x]; [simpl in Hj; lia|].
  change (length (x0 :: x)) with (S (length x)).
  rewrite firstn_cons.
  destruct (Nat.le_gt_cases w j) as [Hle|Hgt].
  - replace (S j - w)%nat with (S (j - w)) by lia.
    rewrite skipn_cons.
    replace (S j - S (j - w))%nat with w by lia.
    replace (j - (j - w))%nat with w by lia.
    rewrite firstn_skipn_firstn by (simpl in Hj; lia).
    now rewrite skipn_map, firstn_map.
  - replace (S j - w)%nat with 0%nat by lia.
    replace (j - w)%nat with 0%nat by lia.
    rewrite !Nat.sub_0_r. simpl skipn. rewrite firstn_cons.
    rewrite firstn_firstn.
    replace (Nat.min j (length x)) with j by (simpl in Hj; lia).
    change (Some x0 :: map Some x) with (map Some (x0 :: x)).
    rewrite firstn_map. reflexivity.
Qed.

Lemma trailing_high_group_nth (w j : nat) (x : list Q) :
  (1 <= w)%nat -> (j < length x)%nat ->
  nth j (Portfolio.trailing_high_group w x) None
  = Portfolio.nanmax (map Some (prior_window w j x)).
Proof.
  intros Hw Hj. unfold Portfolio.trailing_high_group, Portfolio.rolling_max.
  assert (Hlen : length (Portfolio.shift1 x) = length x).
  { unfold Portfolio.shift1. rewrite length_firstn. simpl. rewrite length_map. lia. }
  rewrite Hlen.
  rewrite (nth_indep _ None (Portfolio.nanmax (Portfolio.window w 0 (Portfolio.shift1 x))))
    by (rewrite length_map, length_seq; exact Hj).
  rewrite (map_nth (fun j => Portfolio.nanmax (Portfolio.window w j (Portfolio.shift1 x)))
                   (seq 0 (length x)) 0%nat j).
  rewrite seq_nth by exact Hj. simpl.
  now apply window_shift1.
Qed.

Lemma group_row_at (df : list Portfolio.Row) (i : nat) (r : Portfolio.Row) :
  nth_error df i = Some r ->
  nth_error (Portfolio.group_rows (Portfolio.symbol r) df)
            (Portfolio.group_pos df i (Portfolio.symbol r)) = Some r.
Proof.
  intros H. unfold Portfolio.group_pos.
  rewrite (nth_error_split_at _ _ _ H) at 1.
  unfold Portfolio.group_rows. rewrite filter_app. simpl.
  rewrite String.eqb_refl.
  rewrite nth_error_app2 by lia. now rewrite Nat.sub_diag.
Qed.

Lemma group_prefix (df : list Portfolio.Row) (i : nat) (s : string) :
  firstn (Portfolio.group_pos df i s) (Portfolio.group_rows s df)
  = Portfolio.group_rows s (firstn i df).
Proof.
  unfold Portfolio.group_pos, Portfolio.group_rows. apply filter_firstn_length.
Qed.

Lemma trailing_high_at_window (w : nat) (df : list Portfolio.Row)
      (i : nat) (r : Portfolio.Row) :
  (1 <= w)%nat -> nth_error df i = Some r ->
  Portfolio.trailing_high_at w df i
  = Portfolio.nanmax
      (map Some (map Portfolio.close
         (prior_window w (Portfolio.group_pos df i (Portfolio.symbol r))
                       (Portfolio.group_rows (Portfolio.symbol r) (firstn i df))))).
Proof.
  intros Hw H. unfold Portfolio.trailing_high_at. rewrite H.
  pose proof (group_row_at df i r H) as Hg.
  rewrite trailing_high_group_nth; auto.
  - unfold Portfolio.group_close. rewrite <- prior_window_map.
    rewrite <- (prior_window_firstn w _ (Portfolio.group_rows _ df)).
    now rewrite group_prefix.
  - unfold Portfolio.group_close. rewrite length_map.
    apply nth_error_Some. congruence.
Qed.

Lemma prior_window_all {A} (w : nat) (l : list A) :
  prior_window w (length l) l = skipn (length l - w) l.
Proof.
  unfold prior_window. apply firstn_all2. rewrite length_skipn. lia.
Qed.

Lemma add_columns_from_nth (w : nat) (df rows : list Portfolio.Row) (k i : nat) :
  nth_error (Portfolio.add_columns_from w df k rows) i
  = option_map (Portfolio.xrow_at w df (k + i)) (nth_error rows i).
Proof.
  revert k i; induction rows as [|r rows IH]; intros k [|i]; simpl; auto.
  - now rewrite Nat.add_0_r.
  - rewrite IH. now replace (S k + i)%nat with (k + S i)%nat by lia.
Qed.

Lemma add_columns_nth (w : nat) (df : list Portfolio.Row) (i : nat) :
  nth_error (Portfolio.add_columns w df) i
  = option_map (Portfolio.xrow_at w df i) (nth_error df i).
Proof.
  unfold Portfolio.add_columns. now rewrite add_columns_from_nth.
Qed.

Lemma group_rows_agree (s : string) (l l' : list Portfolio.Row) :
  Forall2 (agree_on s) l l' ->
  map Portfolio.close (Portfolio.group_rows s l)
  = map Portfolio.close (Portfolio.group_rows s l').
Proof.
  induction 1 as [|a b l l' [Hs Hc] _ IH]; simpl; [reflexivity|].
  rewrite <- Hs. destruct (String.eqb_spec (Portfolio.symbol a) s) as [E|E]; simpl.
  - now rewrite IH, (Hc E).
  - exact IH.
Qed.

Lemma sorted_prefix_lt {A} (f : A -> Z) (l1 l2 : list A) (x : A) :
  StronglySorted Z.lt (map f (l1 ++ x :: l2)) ->
  Forall (fun a => (f a < f x)%Z) l1.
Proof.
  induction l1 as [|a l1 IH]; simpl; intros H; [constructor|].
  inversion H as [|? ? Hs Hall]; subst. constructor.
  - rewrite Forall_forall in Hall. apply Hall.
    rewrite map_app. apply in_or_app. right. now left.
  - now apply IH.
Qed.

Lemma trailing_high_at_prior (w : nat) (df : list Portfolio.Row)
      (i : nat) (r : Portfolio.Row) :
  (1 <= w)%nat -> nth_error df i = Some r ->
  Portfolio.trailing_high_at w df i
  = Portfolio.nanmax
      (map Some (map Portfolio.close (prior_rows w df i (Portfolio.symbol r)))).
Proof.
  intros Hw H. rewrite (trailing_high_at_window w df i r Hw H).
  unfold prior_rows, Portfolio.group_pos. now rewrite prior_window_all.
Qed.

(** C1.  In portfolio mode the trailing high of every row is the maximum
    close over the last [lookback] rows of the same instrument that lie
    strictly before the row: today's close is outside the window, in a
    date-sorted panel every row of the window is dated before today, and
    the eligibility columns of the row (trailing high and drop from
    high) are unchanged when today's close, any later row or any other
    instrument's price is replaced. *)
Theorem C1_trailing_high_excludes_today :
  forall (lookback : nat) (df : list Portfolio.Row) (i : nat) (r : Portfolio.Row),
    (1 <= lookback)%nat ->
    nth_error df i = Some r ->
    let s := Portfolio.symbol r in
    let prior := prior_rows lookback df i s in
    let th := Portfolio.trailing_high_at lookback df i in
    nth_error (Portfolio.add_columns lookback df) i
    = Some (Portfolio.mkXRow r th (Portfolio.drop_from_high_of (Portfolio.open r) th)) /\
    is_max_of (map Portfolio.close prior) th /\
    (dates_increasing df ->
     Forall (fun p => (Portfolio.date p < Portfolio.date r)%Z) prior) /\
    (forall (df' : list Portfolio.Row) (r' : Portfolio.Row),
        Forall2 (agree_on s) (firstn i df) (firstn i df') ->
        nth_error df' i = Some r' ->
        Portfolio.symbol r' = s ->
        Portfolio.open r' = Portfolio.open r ->
        option_map (fun x => (Portfolio.trailing_high x, Portfolio.drop_from_high x))
                   (nth_error (Portfolio.add_columns lookback df') i)
        = Some (th, Portfolio.drop_from_high_of (Portfolio.open r) th)).
Proof.
  intros w df i r Hw H s prior th.
  assert (Hth : th = Portfolio.nanmax (map Some (map Portfolio.close prior))).
  { unfold th, prior, s. now apply trailing_high_at_prior. }
  split; [|split; [|split]].
  - rewrite add_columns_nth, H. reflexivity.
  - rewrite Hth. apply nanmax_is_max.
  - intros Hsorted. specialize (Hsorted s).
    unfold Portfolio.group_rows in Hsorted.
    rewrite (nth_error_split_at _ _ _ H) in Hsorted.
    rewrite filter_app in Hsorted. simpl in Hsorted.
    fold s in Hsorted. rewrite String.eqb_refl in Hsorted.
    apply sorted_prefix_lt in Hsorted.
    unfold prior, prior_rows. rewrite Forall_forall in *.
    intros p Hp. apply Hsorted.
    rewrite <- (firstn_skipn (length (Portfolio.group_rows s (firstn i df)) - w)).
    apply in_or_app. now right.
  - intros df' r' Hag H' Hs Ho.
    rewrite add_columns_nth, H'. simpl. unfold Portfolio.xrow_at. simpl.
    assert (Hth' : Portfolio.trailing_high_at w df' i = th).
    { rewrite (trailing_high_at_prior w df' i r' Hw H'), Hth.
      unfold prior, prior_rows. rewrite Hs.
      rewrite <- !skipn_map.
      rewrite <- (group_rows_agree s _ _ Hag).
      rewrite <- (length_map Portfolio.close (Portfolio.group_rows s (firstn i df))).
      rewrite <- (length_map Portfolio.close (Portfolio.group_rows s (firstn i df'))).
      now rewrite <- (group_rows_agree s _ _ Hag). }
    now rewrite Hth', Ho.
Qed.

(** The third row of instrument A in [demo_panel], with a lookback of two
    rows. *)
Lemma C1_trailing_high_excludes_today_witness :
  let r := Portfolio.mkRow (day 3) "A" 120 120 in
  let prior := prior_rows 2 demo_panel 2 "A" in
  let th := Portfolio.trailing_high_at 2 demo_panel 2 in
  nth_error (Portfolio.add_columns 2 demo_panel) 2
  = Some (Portfolio.mkXRow r th (Portfolio.drop_from_high_of 120 th)) /\
  is_max_of (map Portfolio.close prior) th /\
  (dates_increasing demo_panel ->
   Forall (fun p => (Portfolio.date p < day 3)%Z) prior) /\
  (forall (df' : list Portfolio.Row) (r' : Portfolio.Row),
      Forall2 (agree_on "A") (firstn 2 demo_panel) (firstn 2 df') ->
      nth_error df' 2 = Some r' ->
      Portfolio.symbol r' = "A"%string ->
      Portfolio.open r' = 120 ->
      option_map (fun x => (Portfolio.trailing_high x, Portfolio.drop_from_high x))
                 (nth_error (Portfolio.add_columns 2 df') 2)
      = Some (th, Portfolio.drop_from_high_of 120 th)).
Proof.
  apply (C1_trailing_high_excludes_today 2 demo_panel 2
           (Portfolio.mkRow (day 3) "A" 120 120)).
  - exact (le_S 1 1 (le_n 1)).
  - reflexivity.
Defined.

(* ------------------------------------------------------------------ *)
(** ** Dictionaries *)

Lemma dict_get_In {V} (k : string) (v : V) (d : dict V) :
  dict_get k d = Some v -> In (k, v) d.
Proof.
  induction d as [|[k' v'] d IH]; simpl; [discriminate|].
  destruct (String.eqb_spec k k') as [->|_]; intros H.
  - inversion H. now left.
  - right. now apply IH.
Qed.

Lemma dict_del_In {V} (k : string) (kv : string * V) (d : dict V) :
  In kv (dict_del k d) -> In kv d.
Proof.
  induction d as [|[k' v'] d IH]; simpl; [tauto|].
  destruct (String.eqb k k'); simpl; intuition.
Qed.

Lemma dict_set_In {V} (k : string) (v : V) (kv : string * V) (d : dict V) :
  In kv (dict_set k v d) -> kv = (k, v) \/ In kv d.
Proof.
  induction d as [|[k' v'] d IH]; simpl.
  - intuition.
  - destruct (String.eqb k k'); simpl; intuition.
Qed.

Lemma dict_del_length {V} (k : string) (d : dict V) :
  (length (dict_del k d) <= length d)%nat.
Proof.
  induction d as [|[k' v'] d IH]; simpl; [lia|].
  destruct (String.eqb k k'); simpl; lia.
Qed.

Lemma dict_set_length {V} (k : string) (v : V) (d : dict V) :
  (length d <= length (dict_set k v d) <= S (length d))%nat.
Proof.
  induction d as [|[k' v'] d IH]; simpl; [lia|].
  destruct (String.eqb k k'); simpl; lia.
Qed.

Lemma dict_set_fresh {V} (k : string) (v : V) (d : dict V) :
  dict_get k d = None -> dict_set k v d = d ++ [(k, v)].
Proof.
  induction d as [|[k' v'] d IH]; simpl; [reflexivity|].
  destruct (String.eqb k k'); [discriminate|].
  intros H. now rewrite IH.
Qed.

Lemma dict_get_app_fresh {V} (k k' : string) (v : V) (d : dict V) :
  k <> k' -> dict_get k (d ++ [(k', v)]) = dict_get k d.
Proof.
  intros Hne. induction d as [|[k1 v1] d IH]; simpl.
  - destruct (String.eqb_spec k k'); [contradiction|reflexivity].
  - now rewrite IH.
Qed.

Lemma dict_get_del_other {V} (k k' : string) (d : dict V) :
  k <> k' -> dict_get k' (dict_del k d) = dict_get k' d.
Proof.
  intros Hne. induction d as [|[k1 v1] d IH]; simpl; [reflexivity|].
  destruct (String.eqb_spec k k1) as [->|H1]; simpl.
  - destruct (String.eqb_spec k' k1); [congruence|reflexivity].
  - now rewrite IH.
Qed.

Lemma dict_get_keys {V} (k : string) (d : dict V) :
  In k (dict_keys d) -> exists v, dict_get k d = Some v.
Proof.
  induction d as [|[k1 v1] d IH]; simpl; [tauto|].
  destruct (String.eqb_spec k k1) as [->|H1]; [eauto|].
  intros [H|H]; [congruence|auto].
Qed.

Lemma dict_del_keys_incl {V} (k : string) (d : dict V) :
  incl (dict_keys (dict_del k d)) (dict_keys d).
Proof.
  intros x Hx. unfold dict_keys in *. apply in_map_iff in Hx.
  destruct Hx as ((k1, v1) & E & Hin). apply dict_del_In in Hin.
  rewrite <- E. exact (in_map fst _ _ Hin).
Qed.

Lemma dict_del_nodup {V} (k : string) (d : dict V) :
  NoDup (dict_keys d) -> NoDup (dict_keys (dict_del k d)).
Proof.
  induction d as [|[k1 v1] d IH]; simpl; [auto|].
  intros H. inversion H as [|? ? Hnotin Hnd]; subst.
  destruct (String.eqb k k1); [exact Hnd|]. simpl. constructor; [|auto].
  intros Hin. apply Hnotin. now apply (dict_del_keys_incl k).
Qed.

Lemma dict_set_keys {V} (k : string) (v : V) (d : dict V) :
  dict_keys (dict_set k v d) = dict_keys d \/
  (~ In k (dict_keys d) /\ dict_keys (dict_set k v d) = dict_keys d ++ [k]).
Proof.
  induction d as [|[k1 v1] d IH]; simpl.
  - right. auto.
  - destruct (String.eqb_spec k k1) as [->|H1]; simpl; [now left|].
    destruct IH as [E|[Hn E]].
    + left. now rewrite E.
    + right. split; [|now rewrite E]. intros [H|H]; [congruence|auto].
Qed.

Lemma dict_set_nodup {V} (k : string) (v : V) (d : dict V) :
  NoDup (dict_keys d) -> NoDup (dict_keys (dict_set k v d)).
Proof.
  intros H. destruct (dict_set_keys k v d) as [E|[Hn E]]; rewrite E; [exact H|].
  apply NoDup_app; [exact H|repeat constructor; auto|].
  intros x Hx [<-|[]]. contradiction.
Qed.

(* ------------------------------------------------------------------ *)
(** ** The single-instrument loop: basic facts *)

Lemma add_signals_from_nth (s : Single.Strategy) (closes : list Q)
      (rows : list Single.Row) (k i : nat) :
  nth_error (Single.add_signals_from s closes k rows) i
  = option_map (Single.xrow_of s closes (k + i)) (nth_error rows i).
Proof.
  revert k i; induction rows as [|r rows IH]; intros k [|i]; simpl; auto.
  - now rewrite Nat.add_0_r.
  - rewrite IH. now replace (S k + i)%nat with (k + S i)%nat by lia.
Qed.

Lemma add_signals_nth (s : Single.Strategy) (df : list Single.Row) (i : nat)
      (x : Single.XRow) :
  nth_error (Single.add_signals s df) i = Some x ->
  exists r, nth_error df i = Some r /\
            x = Single.xrow_of s (map Single.close df) i r.
Proof.
  unfold Single.add_signals. rewrite add_signals_from_nth. simpl.
  destruct (nth_error df i) as [r|]; simpl; intros H; [|discriminate].
  exists r. split; [reflexivity|]. now inversion H.
Qed.

Lemma add_signals_rows (s : Single.Strategy) (closes : list Q)
      (rows : list Single.Row) (k : nat) :
  map Single.row (Single.add_signals_from s closes k rows) = rows.
Proof.
  revert k; induction rows as [|r rows IH]; intros k; simpl; [reflexivity|].
  rewrite IH. f_equal. unfold Single.xrow_of.
  now destruct (Single.exit s).
Qed.

Lemma branch_open_has_entry (sym act : string) (i : nat) (x : Single.XRow)
      (st : Single.State) :
  open_has_entry st ->
  exists st', Single.branch sym act i x st = Ok st' /\ open_has_entry st'.
Proof.
  intros Hinv. unfold Single.branch.
  destruct ((Single.position st =? 0)%Z && Single.entry_signal x) eqn:E1.
  - eexists. split; [reflexivity|]. intros _. simpl. eauto.
  - destruct (Single.position st =? 0)%Z eqn:E2; simpl.
    + eexists. split; [reflexivity|]. exact Hinv.
    + apply Z.eqb_neq in E2. destruct (Hinv E2) as (p & e & Hp & He).
      destruct (Single.exit_signal x).
      * rewrite Hp, He. eexists. split; [reflexivity|].
        intros H. simpl in H. congruence.
      * eexists. split; [reflexivity|]. exact Hinv.
Qed.

Lemma step_open_has_entry (sym act : string) (i : nat) (x : Single.XRow)
      (st : Single.State) :
  open_has_entry st ->
  exists st', Single.step sym act i x st = Ok st' /\ open_has_entry st'.
Proof.
  intros Hinv. unfold Single.step.
  destruct (branch_open_has_entry sym act i x st Hinv) as (st1 & E & H1).
  rewrite E. simpl. eexists. split; [reflexivity|]. exact H1.
Qed.

Lemma loop_open_has_entry (sym act : string) (rows : list Single.XRow)
      (i : nat) (st : Single.State) :
  open_has_entry st ->
  exists st', Single.loop sym act i rows st = Ok st' /\ open_has_entry st'.
Proof.
  revert i st; induction rows as [|x rows IH]; intros i st Hinv; simpl.
  - eauto.
  - destruct (step_open_has_entry sym act i x st Hinv) as (st1 & E & H1).
    rewrite E. simpl. now apply IH.
Qed.

Lemma init_open_has_entry : open_has_entry Single.init_state.
Proof. intros H. now elim H. Qed.

(* ------------------------------------------------------------------ *)
(** ** Exit priority *)

Lemma xrow_of_exit_flags (s : Single.Strategy) (closes : list Q) (i : nat)
      (r : Single.Row) (xr : Single.Rule) :
  Single.exit s = Some xr ->
  let x := Single.xrow_of s closes i r in
  let c := Single.pct_change_at (Single.period_of (Single.condition xr)) closes i in
  Single.exit_change x = Some c /\
  Single.exit_signal x
  = Single.exit_reason_base x || Single.exit_reason_sl x || Single.exit_reason_tp x /\
  Single.exit_reason_sl x
  = match Single.stop_loss (Single.condition xr) with
    | Some sl => f_le c (- sl)
    | None => false
    end /\
  Single.exit_reason_tp x
  = match Single.take_profit (Single.condition xr) with
    | Some tp => f_ge c tp
    | None => false
    end.
Proof.
  intros H. unfold Single.xrow_of. rewrite H. simpl. auto.
Qed.

(** Closing a position: the row appended to the ledger. *)
Lemma branch_close (sym act : string) (i : nat) (x : Single.XRow)
      (st : Single.State) (p : Q) (e : Timestamp) :
  Single.position st <> 0%Z ->
  Single.entry_price st = Some p ->
  Single.entry_date st = Some e ->
  Single.exit_signal x = true ->
  Single.branch sym act i x st
  = Ok (Single.mkState 0 (Single.positions st)
          (Single.ledger st ++
             [Single.ledger_row sym (Single.side st) e p
                (Single.date (Single.row x)) (Single.close (Single.row x))
                (fmul_sign (fsub (np_div (Single.close (Single.row x)) p) 1)
                           (Single.side st))
                (timedelta_days (Single.date (Single.row x)) e)
                (Single.reason_of x)])
          None None None 0).
Proof.
  intros Hopen Hp He Hs. unfold Single.branch.
  apply Z.eqb_neq in Hopen. rewrite Hopen. simpl.
  now rewrite Hs, Hp, He.
Qed.

(** The exit loop only appends to the ledger. *)
Lemma exit_one_trades_grow (stop_loss take_profit : Q) (d : Timestamp)
      (day_data : list Portfolio.XRow) (st st' : Portfolio.State) (sym : string) :
  Portfolio.exit_one stop_loss take_profit d day_data st sym = Ok st' ->
  exists more, Portfolio.trades st' = Portfolio.trades st ++ more.
Proof.
  unfold Portfolio.exit_one. intros H.
  destruct (dict_get sym (Portfolio.positions st)) as [pos|]; [|discriminate].
  destruct (Portfolio.sub_of sym day_data) as [|x xs].
  { inversion H; subst. exists []. now rewrite app_nil_r. }
  destruct (py_div _ _) as [q|e]; cbn [bind] in H; [|discriminate].
  destruct (Portfolio.exit_decision _ _ _); inversion H; subst; simpl.
  - eauto.
  - exists []. now rewrite app_nil_r.
Qed.

Lemma exit_loop_trades_grow (stop_loss take_profit : Q) (d : Timestamp)
      (day_data : list Portfolio.XRow) (keys : list string)
      (st st' : Portfolio.State) :
  Portfolio.exit_loop stop_loss take_profit d day_data keys st = Ok st' ->
  exists more, Portfolio.trades st' = Portfolio.trades st ++ more.
Proof.
  revert st; induction keys as [|k keys IH]; intros st H; simpl in H.
  - inversion H; subst. exists []. now rewrite app_nil_r.
  - destruct (Portfolio.exit_one stop_loss take_profit d day_data st k)
      as [st1|e] eqn:E1; cbn [bind] in H; [|discriminate].
    apply exit_one_trades_grow in E1. destruct E1 as [m1 E1].
    apply IH in H. destruct H as [m2 H].
    exists (m1 ++ m2). now rewrite H, E1, app_assoc.
Qed.

(** An iteration for another symbol leaves the position in place. *)
Lemma exit_one_other (stop_loss take_profit : Q) (d : Timestamp)
      (day_data : list Portfolio.XRow) (st st' : Portfolio.State)
      (k sym : string) :
  k <> sym ->
  Portfolio.exit_one stop_loss take_profit d day_data st k = Ok st' ->
  dict_get sym (Portfolio.positions st') = dict_get sym (Portfolio.positions st).
Proof.
  intros Hne. unfold Portfolio.exit_one. intros H.
  destruct (dict_get k (Portfolio.positions st)) as [pos|]; [|discriminate].
  destruct (Portfolio.sub_of k day_data) as [|x xs]; [now inversion H|].
  destruct (py_div _ _) as [q|e]; cbn [bind] in H; [|discriminate].
  destruct (Portfolio.exit_decision _ _ _); inversion H; subst; simpl; auto.
  now apply dict_get_del_other.
Qed.

Lemma exit_one_take_profit (stop_loss take_profit : Q) (d : Timestamp)
      (day_data : list Portfolio.XRow) (st : Portfolio.State)
      (sym : string) (pos : Portfolio.Pos) (x : Portfolio.XRow)
      (others : list Portfolio.XRow) :
  dict_get sym (Portfolio.positions st) = Some pos ->
  Portfolio.sub_of sym day_data = x :: others ->
  ~ Portfolio.entry_price pos == 0 ->
  take_profit <= Portfolio.close (Portfolio.row x) / Portfolio.entry_price pos - 1 ->
  Portfolio.exit_one stop_loss take_profit d day_data st sym
  = Ok (Portfolio.mkState
          (Portfolio.cash st + Portfolio.close (Portfolio.row x) * Portfolio.shares pos)
          (dict_del sym (Portfolio.positions st))
          (Portfolio.trades st ++
             [Portfolio.trade_row sym pos d (Portfolio.close (Portfolio.row x))
                (Portfolio.close (Portfolio.row x) / Portfolio.entry_price pos - 1)
                Portfolio.take_profit_reason])
          (Portfolio.equity_curve st)).
Proof.
  intros Hpos Hsub Hne Htp.
  unfold Portfolio.exit_one. rewrite Hpos, Hsub.
  unfold py_div. apply Qeqb_neq in Hne. rewrite Hne. cbn [bind].
  unfold Portfolio.exit_decision.
  apply Qle_bool_iff in Htp. now rewrite Htp.
Qed.

Lemma exit_loop_take_profit (stop_loss take_profit : Q) (d : Timestamp)
      (day_data : list Portfolio.XRow) (keys : list string)
      (st st' : Portfolio.State)
      (sym : string) (pos : Portfolio.Pos) (x : Portfolio.XRow)
      (others : list Portfolio.XRow) :
  In sym keys ->
  dict_get sym (Portfolio.positions st) = Some pos ->
  Portfolio.sub_of sym day_data = x :: others ->
  take_profit <= Portfolio.close (Portfolio.row x) / Portfolio.entry_price pos - 1 ->
  Portfolio.exit_loop stop_loss take_profit d day_data keys st = Ok st' ->
  In (Portfolio.trade_row sym pos d (Portfolio.close (Portfolio.row x))
        (Portfolio.close (Portfolio.row x) / Portfolio.entry_price pos - 1)
        Portfolio.take_profit_reason)
     (Portfolio.trades st').
Proof.
  intros Hin Hpos Hsub Htp. revert st Hpos.
  induction keys as [|k keys IH]; intros st Hpos H; [contradiction|].
  simpl in H.
  destruct (Portfolio.exit_one stop_loss take_profit d day_data st k)
    as [st1|e] eqn:E1; cbn [bind] in H; [|discriminate].
  destruct (string_dec k sym) as [->|Hne].
  - assert (Hp : ~ Portfolio.entry_price pos == 0).
    { intros E0. unfold Portfolio.exit_one in E1. rewrite Hpos, Hsub in E1.
      unfold py_div in E1. apply Qeqb_eq in E0. rewrite E0 in E1. discriminate. }
    rewrite (exit_one_take_profit stop_loss take_profit d day_data st sym pos x
               others Hpos Hsub Hp Htp) in E1.
    inversion E1; subst st1. clear E1.
    apply exit_loop_trades_grow in H. destruct H as [more H].
    rewrite H. simpl. apply in_or_app. left. apply in_or_app. right. now left.
  - destruct Hin as [E|Hin]; [contradiction|].
    apply (IH Hin st1); [|exact H].
    rewrite (exit_one_other _ _ _ _ _ _ _ _ Hne E1). exact Hpos.
Qed.

(** C2.  In both simulators a position for which the take-profit and the
    stop-loss conditions hold on the same day is closed with the reason
    take_profit.  Portfolio mode: the exit iteration for the symbol
    appends a ledger row whose exit_reason is take_profit, and after the
    day's exit phase that row is in the ledger.  Single-instrument mode:
    from any state reached by the loop with a position open, the day's
    step appends one ledger row whose exit_reason is take_profit. *)
Theorem C2_take_profit_before_stop_loss :
  (forall (stop_loss take_profit : Q) (d : Timestamp)
          (day_data : list Portfolio.XRow) (st : Portfolio.State)
          (sym : string) (pos : Portfolio.Pos) (x : Portfolio.XRow)
          (others : list Portfolio.XRow),
      dict_get sym (Portfolio.positions st) = Some pos ->
      Portfolio.sub_of sym day_data = x :: others ->
      ~ Portfolio.entry_price pos == 0 ->
      let price := Portfolio.close (Portfolio.row x) in
      let ret := price / Portfolio.entry_price pos - 1 in
      take_profit <= ret ->
      ret <= - stop_loss ->
      Portfolio.exit_one stop_loss take_profit d day_data st sym
      = Ok (Portfolio.mkState
              (Portfolio.cash st + price * Portfolio.shares pos)
              (dict_del sym (Portfolio.positions st))
              (Portfolio.trades st ++
                 [Portfolio.trade_row sym pos d price ret Portfolio.take_profit_reason])
              (Portfolio.equity_curve st)) /\
      dict_get "exit_reason"
               (Portfolio.trade_row sym pos d price ret Portfolio.take_profit_reason)
      = Some (VStr "take_profit"))
  /\
  (forall (stop_loss take_profit : Q) (d : Timestamp)
          (day_data : list Portfolio.XRow) (st st' : Portfolio.State)
          (sym : string) (pos : Portfolio.Pos) (x : Portfolio.XRow)
          (others : list Portfolio.XRow),
      dict_get sym (Portfolio.positions st) = Some pos ->
      Portfolio.sub_of sym day_data = x :: others ->
      let price := Portfolio.close (Portfolio.row x) in
      let ret := price / Portfolio.entry_price pos - 1 in
      take_profit <= ret ->
      ret <= - stop_loss ->
      Portfolio.exit_phase stop_loss take_profit d day_data st = Ok st' ->
      In (Portfolio.trade_row sym pos d price ret Portfolio.take_profit_reason)
         (Portfolio.trades st'))
  /\
  (forall (s : Single.Strategy) (df : list Single.Row) (sym act : string)
          (i : nat) (x : Single.XRow) (st : Single.State)
          (xr : Single.Rule) (tp sl : Q) (change : fnum),
      nth_error (Single.add_signals s df) i = Some x ->
      Single.loop sym act 0 (firstn i (Single.add_signals s df)) Single.init_state
      = Ok st ->
      Single.position st <> 0%Z ->
      Single.exit s = Some xr ->
      Single.take_profit (Single.condition xr) = Some tp ->
      Single.stop_loss (Single.condition xr) = Some sl ->
      Single.exit_change x = Some change ->
      f_ge change tp = true ->
      f_le change (- sl) = true ->
      exists st' ledger_row,
        Single.step sym act i x st = Ok st' /\
        Single.position st' = 0%Z /\
        Single.ledger st' = Single.ledger st ++ [ledger_row] /\
        dict_get "exit_reason" ledger_row = Some (VStr "take_profit")).
Proof.
  split; [|split].
  - intros sl tp d dd st sym pos x others Hpos Hsub Hne price ret Htp Hsl.
    split; [|reflexivity].
    now apply (exit_one_take_profit sl tp d dd st sym pos x others).
  - intros sl tp d dd st st' sym pos x others Hpos Hsub price ret Htp Hsl H.
    apply (exit_loop_take_profit sl tp d dd (dict_keys (Portfolio.positions st))
             st st' sym pos x others); auto.
    apply dict_get_In in Hpos. exact (in_map fst _ _ Hpos).
  - intros s df sym act i x st xr tp sl change Hx Hloop Hopen Hexit Htp Hsl Hch Hge Hle.
    destruct (loop_open_has_entry sym act (firstn i (Single.add_signals s df)) 0
                Single.init_state init_open_has_entry) as (st0 & E0 & Hinv).
    rewrite Hloop in E0. inversion E0; subst st0.
    destruct (Hinv Hopen) as (p & e & Hp & He).
    destruct (add_signals_nth s df i x Hx) as (r & Hr & ->).
    destruct (xrow_of_exit_flags s (map Single.close df) i r xr Hexit)
      as (Hc & Hsig & Hfsl & Hftp).
    rewrite Hc in Hch. inversion Hch; subst change. clear Hch.
    rewrite Htp in Hftp. rewrite Hsl in Hfsl.
    rewrite Hge in Hftp. rewrite Hle in Hfsl.
    assert (Hs : Single.exit_signal
                   (Single.xrow_of s (map Single.close df) i r) = true).
    { rewrite Hsig, Hftp. apply orb_true_r. }
    unfold Single.step.
    rewrite (branch_close sym act i _ st p e Hopen Hp He Hs). simpl.
    eexists. eexists. split; [reflexivity|]. simpl.
    split; [reflexivity|]. split; [reflexivity|].
    unfold Single.reason_of. now rewrite Hftp.
Qed.

(** Both simulators on a day that meets both thresholds. *)
Lemma C2_take_profit_before_stop_loss_witness :
  dict_get "exit_reason"
           (Portfolio.trade_row "A" (Portfolio.mkPos 100 5 (day 1)) (day 2) 100
                                (100 / 100 - 1) Portfolio.take_profit_reason)
  = Some (VStr "take_profit")
  /\
  In (Portfolio.trade_row "A" (Portfolio.mkPos 100 5 (day 1)) (day 2) 100
                          (100 / 100 - 1) Portfolio.take_profit_reason)
     (Portfolio.trades demo_flat_exit)
  /\
  exists st' ledger_row,
    Single.step "X" "buy" 3 demo_both_row demo_both_state = Ok st' /\
    Single.position st' = 0%Z /\
    Single.ledger st' = Single.ledger demo_both_state ++ [ledger_row] /\
    dict_get "exit_reason" ledger_row = Some (VStr "take_profit").
Proof.
  split; [|split].
  - apply (proj1 C2_take_profit_before_stop_loss 0 0 (day 2) demo_flat_day
                 demo_flat_state "A"%string (Portfolio.mkPos 100 5 (day 1))
                 (Portfolio.mkXRow (Portfolio.mkRow (day 2) "A" 100 100)
                                   (Some 100) (Fin 0)) []).
    + reflexivity.
    + reflexivity.
    + discriminate.
    + discriminate.
    + discriminate.
  - apply (proj1 (proj2 C2_take_profit_before_stop_loss) 0 0 (day 2) demo_flat_day
                 demo_flat_state demo_flat_exit "A"%string
                 (Portfolio.mkPos 100 5 (day 1))
                 (Portfolio.mkXRow (Portfolio.mkRow (day 2) "A" 100 100)
                                   (Some 100) (Fin 0)) []).
    + reflexivity.
    + reflexivity.
    + discriminate.
    + discriminate.
    + reflexivity.
  - apply (proj2 (proj2 C2_take_profit_before_stop_loss) demo_both_strategy demo_series
                 "X"%string "buy"%string 3%nat demo_both_row demo_both_state
                 (Single.mkRule "sell" "x"
                    (Single.mkCondition (Some 2%Z) (Some (3 # 100))
                       (Some "up"%string) (Some (1 # 100)) (Some (- (1 # 10)))))
                 (- (1 # 10)) (1 # 100)
                 (Single.pct_change_at 2 (map Single.close demo_series) 3));
      try reflexivity.
    discriminate.
Defined.

(* ------------------------------------------------------------------ *)
(** ** Admission and cash *)

Section Admission.

Variables starting_capital drop_pct f : Q.
Variable d : Timestamp.

Let entry_one := Portfolio.entry_one starting_capital f d.
Let entry_loop := Portfolio.entry_loop starting_capital f d.

Lemma entry_one_skip (st : Portfolio.State) (x : Portfolio.XRow) :
  Qltb (Portfolio.cash st) (starting_capital * f) = true ->
  entry_one st x = Ok st.
Proof.
  intros H. unfold entry_one, Portfolio.entry_one, Portfolio.invest_amt.
  now rewrite H.
Qed.

(** Once the cash is short, every remaining candidate is skipped. *)
Lemma entry_loop_skip_all (rows : list Portfolio.XRow) (st : Portfolio.State) :
  Qltb (Portfolio.cash st) (starting_capital * f) = true ->
  entry_loop rows st = Ok st.
Proof.
  intros H. induction rows as [|x rows IH]; simpl; [reflexivity|].
  unfold entry_loop in *. simpl.
  fold entry_one. now rewrite (entry_one_skip st x H).
Qed.

Lemma admit_spec_skip_all (n : nat) (rows : list Portfolio.XRow)
      (st : Portfolio.State) :
  Qltb (Portfolio.cash st) (starting_capital * f) = true ->
  admit_spec starting_capital f d n rows st = Ok st.
Proof.
  intros H. revert n; induction rows as [|x rows IH]; intros n; simpl.
  - now destruct n.
  - destruct n; [reflexivity|]. rewrite H. apply IH.
Qed.

Lemma entry_loop_firstn_spec (n : nat) (rows : list Portfolio.XRow)
      (st : Portfolio.State) :
  entry_loop (firstn n rows) st = admit_spec starting_capital f d n rows st.
Proof.
  revert n st; induction rows as [|x rows IH]; intros n st.
  - now rewrite firstn_nil.
  - destruct n as [|n]; [reflexivity|].
    rewrite firstn_cons. unfold entry_loop. simpl.
    unfold Portfolio.entry_one, Portfolio.invest_amt.
    destruct (Qltb (Portfolio.cash st) (starting_capital * f)) eqn:E.
    + simpl. fold entry_loop.
      rewrite (entry_loop_skip_all _ st E).
      destruct rows as [|y rows]; [reflexivity|].
      symmetry. exact (admit_spec_skip_all (S n) (y :: rows) st E).
    + destruct (py_div (starting_capital * f) (Portfolio.open (Portfolio.row x)))
        as [sh|e]; simpl; [|reflexivity].
      fold entry_loop. apply IH.
Qed.

Lemma floor_slots_nonneg (a : Q) :
  0 < f -> 0 <= a -> (0 <= Qfloor (a / f))%Z.
Proof.
  intros Hf Ha. change 0%Z with (Qfloor 0). apply Qfloor_resp_le.
  apply Qle_shift_div_l; [exact Hf|]. lra.
Qed.

Lemma floor_slots_nonpos (a : Q) :
  0 < f -> a <= 0 -> (Qfloor (a / f) <= 0)%Z.
Proof.
  intros Hf Ha. change 0%Z with (Qfloor 0). apply Qfloor_resp_le.
  apply Qle_shift_div_r; [exact Hf|]. lra.
Qed.

Lemma entry_phase_refines_spec (day_data : list Portfolio.XRow)
      (st : Portfolio.State) :
  0 < f ->
  Portfolio.entry_phase starting_capital drop_pct f d day_data st
  = entry_phase_spec starting_capital drop_pct f d day_data st.
Proof.
  intros Hf. unfold Portfolio.entry_phase, entry_phase_spec.
  set (n := inject_Z (Z.of_nat (length (Portfolio.positions st)))).
  destruct (Portfolio.candidates_of drop_pct (Portfolio.positions st) day_data)
    as [|c cands] eqn:Ec.
  - now destruct (Qltb (n * f) 1).
  - assert (Hf0 : Qeqb f 0 = false) by (apply Qeqb_neq; lra).
    unfold py_floordiv. rewrite Hf0. cbn [bind].
    destruct (Qltb (n * f) 1) eqn:Eg.
    + apply Qltb_lt in Eg.
      assert (Hm : (0 <= Qfloor ((1 - n * f) / f))%Z)
        by (apply floor_slots_nonneg; [exact Hf | lra]).
      unfold head. apply Z.leb_le in Hm. rewrite Hm.
      apply entry_loop_firstn_spec.
    + apply Qltb_ge in Eg.
      assert (Hm : (Qfloor ((1 - n * f) / f) <= 0)%Z)
        by (apply floor_slots_nonpos; [exact Hf | lra]).
      replace (Z.to_nat (Qfloor ((1 - n * f) / f))) with 0%nat by lia.
      reflexivity.
Qed.

End Admission.

Lemma entry_loop_app (starting_capital f : Q) (d : Timestamp)
      (pre post : list Portfolio.XRow) (st : Portfolio.State) :
  Portfolio.entry_loop starting_capital f d (pre ++ post) st
  = (st1 <- Portfolio.entry_loop starting_capital f d pre st ;;
     Portfolio.entry_loop starting_capital f d post st1).
Proof.
  revert st. induction pre as [|x pre IH]; intros st; simpl; [reflexivity|].
  destruct (Portfolio.entry_one starting_capital f d st x) as [st1|e];
    simpl; [apply IH|reflexivity].
Qed.

Lemma entry_phase_examined (starting_capital drop_pct f : Q) (d : Timestamp)
      (day_data : list Portfolio.XRow) (st : Portfolio.State) :
  Portfolio.entry_phase starting_capital drop_pct f d day_data st
  = (rows <- examined drop_pct f day_data st ;;
     Portfolio.entry_loop starting_capital f d rows st).
Proof.
  unfold Portfolio.entry_phase, examined.
  destruct (Qltb _ 1); [|reflexivity].
  destruct (Portfolio.candidates_of drop_pct (Portfolio.positions st) day_data)
    as [|c cands]; [reflexivity|].
  destruct (py_floordiv _ f) as [max_new|e]; reflexivity.
Qed.

Lemma examined_first_candidates (drop_pct f : Q)
      (day_data : list Portfolio.XRow) (st : Portfolio.State) :
  0 < f ->
  examined drop_pct f day_data st
  = Ok (firstn (day_cap f st)
               (Portfolio.candidates_of drop_pct (Portfolio.positions st) day_data)).
Proof.
  intros Hf. unfold examined, day_cap.
  set (n := inject_Z (Z.of_nat (length (Portfolio.positions st)))).
  set (cands := Portfolio.candidates_of drop_pct (Portfolio.positions st) day_data).
  destruct (Qltb (n * f) 1) eqn:Eg.
  - destruct cands as [|c cands]; [now rewrite firstn_nil|].
    assert (Hf0 : Qeqb f 0 = false) by (apply Qeqb_neq; lra).
    unfold py_floordiv. rewrite Hf0. cbn [bind].
    apply Qltb_lt in Eg.
    assert (Hm : (0 <= Qfloor ((1 - n * f) / f))%Z)
      by (apply floor_slots_nonneg; [exact Hf | lra]).
    unfold head. apply Z.leb_le in Hm. now rewrite Hm.
  - apply Qltb_ge in Eg.
    assert (Hm : (Qfloor ((1 - n * f) / f) <= 0)%Z)
      by (apply floor_slots_nonpos; [exact Hf | lra]).
    replace (Z.to_nat (Qfloor ((1 - n * f) / f))) with 0%nat by lia.
    reflexivity.
Qed.

(** C3 (amended).  On any day the entry loop considers the first
    [floor(available_slot_fraction / f)] eligible candidates, in the
    order of the day's rows, whether or not they are then skipped for
    cash.  A candidate among them that is skipped because the cash is
    below [starting_capital * f] changes nothing in the state, and after
    it nobody is admitted that day: the cash is as it was, so every later
    candidate is skipped as well, and the day's entries end in the state
    in which the skip found them.  That state is the one the procedure
    of the specification reaches. *)
Theorem C3_cash_skip_keeps_its_place :
  forall (starting_capital drop_pct f : Q) (d : Timestamp)
         (day_data : list Portfolio.XRow) (st : Portfolio.State),
    0 < f ->
    let rows :=
      firstn (day_cap f st)
             (Portfolio.candidates_of drop_pct (Portfolio.positions st) day_data) in
    examined drop_pct f day_data st = Ok rows /\
    Portfolio.entry_phase starting_capital drop_pct f d day_data st
    = Portfolio.entry_loop starting_capital f d rows st /\
    (forall (pre post : list Portfolio.XRow) (x : Portfolio.XRow)
            (st1 : Portfolio.State),
        rows = pre ++ x :: post ->
        Portfolio.entry_loop starting_capital f d pre st = Ok st1 ->
        Portfolio.cash st1 < starting_capital * f ->
        Portfolio.entry_one starting_capital f d st1 x = Ok st1 /\
        Portfolio.entry_loop starting_capital f d post st1 = Ok st1 /\
        Portfolio.entry_phase starting_capital drop_pct f d day_data st = Ok st1) /\
    Portfolio.entry_phase starting_capital drop_pct f d day_data st
    = entry_phase_spec starting_capital drop_pct f d day_data st.
Proof.
  intros sc dp f d dd st Hf rows.
  pose proof (examined_first_candidates dp f dd st Hf) as Hex. fold rows in Hex.
  assert (Hphase : Portfolio.entry_phase sc dp f d dd st
                   = Portfolio.entry_loop sc f d rows st).
  { now rewrite entry_phase_examined, Hex. }
  split; [exact Hex|]. split; [exact Hphase|]. split.
  - intros pre post x st1 Hrows Hpre Hcash. apply Qltb_lt in Hcash.
    pose proof (entry_one_skip sc f d st1 x Hcash) as Hone.
    pose proof (entry_loop_skip_all sc f d post st1 Hcash) as Hpost.
    split; [exact Hone|]. split; [exact Hpost|].
    rewrite Hphase, Hrows, entry_loop_app, Hpre. cbn [bind].
    cbn [Portfolio.entry_loop]. rewrite Hone. cbn [bind]. exact Hpost.
  - now apply entry_phase_refines_spec.
Qed.

(** On the third day of [demo_skip_panel] A is admitted and B is skipped
    for cash: the entries end in the state after the admission of A. *)
Lemma C3_cash_skip_keeps_its_place_witness :
  Portfolio.entry_loop 1000 (1 # 2) (day 3) [demo_skip_row 0] demo_skip_state
  = Ok demo_skip_final /\
  Portfolio.cash demo_skip_final < 1000 * (1 # 2) /\
  Portfolio.entry_one 1000 (1 # 2) (day 3) demo_skip_final (demo_skip_row 1)
  = Ok demo_skip_final /\
  Portfolio.entry_phase 1000 (5 # 100) (1 # 2) (day 3) demo_skip_day demo_skip_state
  = Ok demo_skip_final.
Proof.
  assert (Hpre : Portfolio.entry_loop 1000 (1 # 2) (day 3) [demo_skip_row 0]
                                      demo_skip_state = Ok demo_skip_final)
    by reflexivity.
  assert (Hcash : Portfolio.cash demo_skip_final < 1000 * (1 # 2)) by reflexivity.
  destruct (C3_cash_skip_keeps_its_place 1000 (5 # 100) (1 # 2) (day 3)
              demo_skip_day demo_skip_state eq_refl)
    as (_ & _ & Hskip & _).
  destruct (Hskip [demo_skip_row 0] [] (demo_skip_row 1) demo_skip_final
                  eq_refl Hpre Hcash) as (Hone & _ & Hphase).
  repeat split; assumption.
Defined.

(** C3 as the specification states it fails on the third day of
    [demo_skip_panel].  The state before the entries has 950 in cash and
    no position; A, B and C are eligible and the cap is 2.  The loop
    considers A and B only: A is admitted, B is skipped for cash, and C,
    which the procedure of the specification would consider, is never
    looked at.  One candidate is admitted, below the cap. *)
Lemma C3_later_candidate_is_not_considered :
  (st2 <- Portfolio.run_days 1000 (5 # 100) (1 # 2) (5 # 100) (5 # 100)
            (Portfolio.add_columns 2 demo_skip_panel) [day 1; day 2]
            (Portfolio.init_state 1000) ;;
   Portfolio.exit_phase (5 # 100) (5 # 100) (day 3)
                        (day_data_of 2 demo_skip_panel (day 3)) st2)
  = Ok demo_skip_state /\
  Portfolio.cash demo_skip_state == 950 /\
  Portfolio.positions demo_skip_state = [] /\
  map xsymbol (Portfolio.candidates_of (5 # 100)
                 (Portfolio.positions demo_skip_state) demo_skip_day)
  = ["A"; "B"; "C"]%string /\
  day_cap (1 # 2) demo_skip_state = 2%nat /\
  examined (5 # 100) (1 # 2) demo_skip_day demo_skip_state
  = Ok [demo_skip_row 0; demo_skip_row 1] /\
  considered_spec (1000 * (1 # 2)) (day_cap (1 # 2) demo_skip_state)
                  (Portfolio.cash demo_skip_state)
                  (Portfolio.candidates_of (5 # 100)
                     (Portfolio.positions demo_skip_state) demo_skip_day)
  = [demo_skip_row 0; demo_skip_row 1; demo_skip_row 2] /\
  ~ skip_keeps_slot_free 1000 (5 # 100) (1 # 2) demo_skip_day demo_skip_state /\
  Portfolio.entry_phase 1000 (5 # 100) (1 # 2) (day 3) demo_skip_day demo_skip_state
  = Ok demo_skip_final /\
  dict_keys (Portfolio.positions demo_skip_final) = ["A"]%string /\
  Portfolio.cash demo_skip_final == 450.
Proof.
  assert (Hex : examined (5 # 100) (1 # 2) demo_skip_day demo_skip_state
                = Ok [demo_skip_row 0; demo_skip_row 1]) by reflexivity.
  assert (Hsp : considered_spec (1000 * (1 # 2)) (day_cap (1 # 2) demo_skip_state)
                  (Portfolio.cash demo_skip_state)
                  (Portfolio.candidates_of (5 # 100)
                     (Portfolio.positions demo_skip_state) demo_skip_day)
                = [demo_skip_row 0; demo_skip_row 1; demo_skip_row 2])
    by reflexivity.
  repeat split; try reflexivity; try assumption.
  unfold skip_keeps_slot_free. rewrite Hex, Hsp. intros H.
  apply (f_equal (fun r => match r with Ok l => length l | Err _ => 0%nat end)) in H.
  discriminate H.
Qed.

(* ------------------------------------------------------------------ *)
(** ** Dates *)

Lemma insert_uniq_In (d x : Timestamp) (l : list Timestamp) :
  In x (insert_uniq d l) <-> x = d \/ In x l.
Proof.
  induction l as [|y l IH]; simpl.
  - intuition.
  - destruct (d <? y)%Z eqn:E1; [simpl; intuition|].
    destruct (d =? y)%Z eqn:E2.
    + apply Z.eqb_eq in E2. subst. simpl. intuition.
    + simpl. rewrite IH. intuition.
Qed.

Lemma insert_uniq_sorted (d : Timestamp) (l : list Timestamp) :
  StronglySorted Z.lt l -> StronglySorted Z.lt (insert_uniq d l).
Proof.
  induction 1 as [|y l Hs IH Hall]; simpl.
  - repeat constructor.
  - destruct (d <? y)%Z eqn:E1.
    + apply Z.ltb_lt in E1. constructor.
      * now constructor.
      * constructor; [exact E1|].
        rewrite Forall_forall in *. intros z Hz. specialize (Hall z Hz). lia.
    + destruct (d =? y)%Z eqn:E2.
      * now constructor.
      * apply Z.ltb_ge in E1. apply Z.eqb_neq in E2.
        constructor; [exact IH|].
        rewrite Forall_forall in *. intros z Hz.
        apply insert_uniq_In in Hz. destruct Hz as [->|Hz]; [lia|auto].
Qed.

Lemma sorted_unique_sorted (l : list Timestamp) :
  StronglySorted Z.lt (sorted_unique l).
Proof.
  induction l as [|d l IH]; simpl; [constructor|].
  now apply insert_uniq_sorted.
Qed.

Lemma sorted_firstn {A} (R : A -> A -> Prop) (k : nat) (l : list A) :
  StronglySorted R l -> StronglySorted R (firstn k l).
Proof.
  intros H. revert k; induction H as [|x l Hs IH Hall]; intros [|k]; simpl;
    try constructor; auto.
  rewrite Forall_forall in *. intros y Hy. apply Hall.
  rewrite <- (firstn_skipn k l). apply in_or_app. now left.
Qed.

(* ------------------------------------------------------------------ *)
(** ** The portfolio loop keeps its invariant *)

Section PortfolioInvariant.

Variables starting_capital drop_pct f stop_loss take_profit : Q.
Variable xdf : list Portfolio.XRow.

Let inv := portfolio_inv drop_pct xdf.

Lemma exit_one_inv (d : Timestamp) (later : list Timestamp)
      (day_data : list Portfolio.XRow) (st st' : Portfolio.State) (sym : string) :
  inv (d :: later) st ->
  Portfolio.exit_one stop_loss take_profit d day_data st sym = Ok st' ->
  inv (d :: later) st'.
Proof.
  intros [Hpos Htr] H. unfold Portfolio.exit_one in H.
  destruct (dict_get sym (Portfolio.positions st)) as [pos|] eqn:Eg; [|discriminate].
  destruct (Portfolio.sub_of sym day_data) as [|x xs]; [inversion H; subst; now split|].
  destruct (py_div (Portfolio.close (Portfolio.row x)) (Portfolio.entry_price pos))
    as [q|e]; simpl in H; [|discriminate].
  destruct (Portfolio.exit_decision stop_loss take_profit (q - 1)) as [why|];
    inversion H; subst; clear H; [|now split].
  split; simpl.
  - rewrite Forall_forall in *. intros kv Hin.
    apply Hpos. now apply dict_del_In in Hin.
  - apply Forall_app. split; [exact Htr|]. constructor; [|constructor].
    exists sym, pos, d, (Portfolio.close (Portfolio.row x)), (q - 1), why.
    split; [reflexivity|].
    apply dict_get_In in Eg. rewrite Forall_forall in Hpos.
    destruct (Hpos _ Eg) as (_ & _ & Hlt). simpl in Hlt.
    now inversion Hlt.
Qed.

Lemma exit_loop_inv (d : Timestamp) (later : list Timestamp)
      (day_data : list Portfolio.XRow) (keys : list string)
      (st st' : Portfolio.State) :
  inv (d :: later) st ->
  Portfolio.exit_loop stop_loss take_profit d day_data keys st = Ok st' ->
  inv (d :: later) st'.
Proof.
  revert st; induction keys as [|k keys IH]; intros st Hinv H; simpl in H.
  - now inversion H; subst.
  - destruct (Portfolio.exit_one stop_loss take_profit d day_data st k)
      as [st1|e] eqn:E1; simpl in H; [|discriminate].
    eapply IH; [|exact H]. eapply exit_one_inv; eauto.
Qed.

Lemma inv_weaken (d : Timestamp) (later : list Timestamp) (st : Portfolio.State) :
  inv (d :: later) st -> inv later st.
Proof.
  intros [Hpos Htr]. split; [|exact Htr].
  eapply Forall_impl; [|exact Hpos].
  intros kv (H1 & H2 & H3). repeat split; auto. now inversion H3.
Qed.

Lemma entry_one_inv (d : Timestamp) (later : list Timestamp)
      (st st' : Portfolio.State) (x : Portfolio.XRow) :
  StronglySorted Z.lt (d :: later) ->
  In x xdf ->
  Portfolio.date (Portfolio.row x) = d ->
  f_le (Portfolio.drop_from_high x) (- drop_pct) = true ->
  inv later st ->
  Portfolio.entry_one starting_capital f d st x = Ok st' ->
  inv later st'.
Proof.
  intros Hs Hin Hd Hsig [Hpos Htr] H. unfold Portfolio.entry_one in H.
  destruct (Qltb (Portfolio.cash st) (Portfolio.invest_amt starting_capital f)).
  - inversion H; subst. now split.
  - unfold py_div in H.
    destruct (Qeqb (Portfolio.open (Portfolio.row x)) 0) eqn:E0; simpl in H;
      [discriminate|].
    inversion H; subst; clear H. split; simpl; [|exact Htr].
    rewrite Forall_forall in *. intros kv Hkv.
    apply dict_set_In in Hkv. destruct Hkv as [->|Hkv]; [|now apply Hpos].
    split; [|split]; simpl.
    + now apply Qeqb_neq.
    + exists x. repeat split; auto.
    + inversion Hs as [|? ? _ Hall]; subst. exact Hall.
Qed.

Lemma entry_loop_inv (d : Timestamp) (later : list Timestamp)
      (rows : list Portfolio.XRow) (st st' : Portfolio.State) :
  StronglySorted Z.lt (d :: later) ->
  Forall (fun x => In x xdf /\ Portfolio.date (Portfolio.row x) = d /\
                   f_le (Portfolio.drop_from_high x) (- drop_pct) = true) rows ->
  inv later st ->
  Portfolio.entry_loop starting_capital f d rows st = Ok st' ->
  inv later st'.
Proof.
  intros Hs Hrows. revert st.
  induction Hrows as [|x rows (Hin & Hd & Hsig) _ IH]; intros st Hinv H; simpl in H.
  - now inversion H; subst.
  - destruct (Portfolio.entry_one starting_capital f d st x) as [st1|e] eqn:E1;
      simpl in H; [|discriminate].
    eapply IH; [|exact H]. eapply entry_one_inv; eauto.
Qed.

Lemma head_incl {A} (n : Z) (l : list A) : incl (head n l) l.
Proof.
  unfold head. intros x Hx.
  destruct (0 <=? n)%Z;
    match type of Hx with
    | In _ (firstn ?k _) =>
        rewrite <- (firstn_skipn k l); apply in_or_app; now left
    end.
Qed.

Lemma candidates_facts (ps : dict Portfolio.Pos) (day_data : list Portfolio.XRow)
      (x : Portfolio.XRow) :
  In x (Portfolio.candidates_of drop_pct ps day_data) ->
  In x day_data /\
  f_le (Portfolio.drop_from_high x) (- drop_pct) = true /\
  dict_get (Portfolio.symbol (Portfolio.row x)) ps = None.
Proof.
  unfold Portfolio.candidates_of, Portfolio.is_candidate. intros H.
  apply filter_In in H. destruct H as [Hin H].
  apply andb_true_iff in H. destruct H as [H1 H2].
  repeat split; auto.
  unfold dict_mem in H2.
  now destruct (dict_get (Portfolio.symbol (Portfolio.row x)) ps).
Qed.

Lemma entry_phase_inv (d : Timestamp) (later : list Timestamp)
      (day_data : list Portfolio.XRow) (st st' : Portfolio.State) :
  StronglySorted Z.lt (d :: later) ->
  Forall (fun x => In x xdf /\ Portfolio.date (Portfolio.row x) = d) day_data ->
  inv later st ->
  Portfolio.entry_phase starting_capital drop_pct f d day_data st = Ok st' ->
  inv later st'.
Proof.
  intros Hs Hdd Hinv H. unfold Portfolio.entry_phase in H.
  destruct (Qltb _ 1); [|now inversion H; subst].
  destruct (Portfolio.candidates_of drop_pct (Portfolio.positions st) day_data)
    as [|c cands] eqn:Ec; [now inversion H; subst|].
  destruct (py_floordiv _ f) as [max_new|e]; simpl in H; [|discriminate].
  eapply entry_loop_inv; [exact Hs| |exact Hinv|exact H].
  rewrite Forall_forall in *. intros x Hx.
  apply head_incl in Hx. rewrite <- Ec in Hx.
  apply candidates_facts in Hx. destruct Hx as (Hin & Hsig & _).
  destruct (Hdd x Hin). auto.
Qed.

Lemma day_step_inv (d : Timestamp) (later : list Timestamp)
      (st st' : Portfolio.State) :
  StronglySorted Z.lt (d :: later) ->
  inv (d :: later) st ->
  Portfolio.day_step starting_capital drop_pct f stop_loss take_profit xdf st d
  = Ok st' ->
  inv later st'.
Proof.
  intros Hs Hinv H. unfold Portfolio.day_step in H.
  set (dd := filter (fun x => (Portfolio.date (Portfolio.row x) =? d)%Z) xdf) in *.
  destruct (Portfolio.exit_phase stop_loss take_profit d dd st) as [st1|e] eqn:E1;
    simpl in H; [|discriminate].
  destruct (Portfolio.entry_phase starting_capital drop_pct f d dd st1)
    as [st2|e] eqn:E2; simpl in H; [|discriminate].
  inversion H; subst; clear H.
  assert (H2 : inv later st2).
  { eapply entry_phase_inv; [exact Hs| | |exact E2].
    - apply Forall_forall. intros x Hx. apply filter_In in Hx.
      destruct Hx as [Hx Hd]. apply Z.eqb_eq in Hd. auto.
    - apply inv_weaken with d. eapply exit_loop_inv; eauto. }
  destruct H2 as [Hp Ht]. split; assumption.
Qed.

Lemma run_days_inv (dates : list Timestamp) (st st' : Portfolio.State) :
  StronglySorted Z.lt dates ->
  inv dates st ->
  Portfolio.run_days starting_capital drop_pct f stop_loss take_profit xdf dates st
  = Ok st' ->
  inv [] st'.
Proof.
  revert st; induction dates as [|d dates IH]; intros st Hs Hinv H; simpl in H.
  - now inversion H; subst.
  - destruct (Portfolio.day_step starting_capital drop_pct f stop_loss take_profit
                xdf st d) as [st1|e] eqn:E1; simpl in H; [|discriminate].
    eapply IH; [|eapply day_step_inv; eauto|exact H].
    now inversion Hs.
Qed.

Lemma init_inv (dates : list Timestamp) :
  inv dates (Portfolio.init_state starting_capital).
Proof. split; constructor. Qed.

End PortfolioInvariant.

(* ------------------------------------------------------------------ *)
(** ** The single-instrument loop keeps its invariant *)

Section SingleInvariant.

Variables sym act : string.
Variable dates : list Timestamp.

Lemma branch_inv (i : nat) (x : Single.XRow) (rest : list Single.XRow)
      (st : Single.State) :
  StronglySorted Z.lt (map (fun y => Single.date (Single.row y)) (x :: rest)) ->
  In (Single.date (Single.row x)) dates ->
  single_inv dates (x :: rest) st ->
  exists st', Single.branch sym act i x st = Ok st' /\ single_inv dates rest st'.
Proof.
  intros Hs Hd [Hopen Hled]. unfold Single.branch.
  destruct ((Single.position st =? 0)%Z && Single.entry_signal x) eqn:E1.
  - eexists. split; [reflexivity|]. split; simpl; [|exact Hled].
    intros _. do 2 eexists. repeat split; eauto.
    simpl in Hs. inversion Hs as [|? ? _ Hall]; subst.
    now rewrite Forall_map in Hall.
  - destruct (Single.position st =? 0)%Z eqn:E2; simpl.
    + eexists. split; [reflexivity|]. split; [|exact Hled].
      intros H. apply Z.eqb_eq in E2. contradiction.
    + apply Z.eqb_neq in E2.
      destruct (Hopen E2) as (p & e & Hp & He & Hin & Hall).
      destruct (Single.exit_signal x).
      * rewrite Hp, He. eexists. split; [reflexivity|]. split; simpl.
        -- intros H. now elim H.
        -- apply Forall_app. split; [exact Hled|].
           constructor; [|constructor].
           do 8 eexists. split; [reflexivity|].
           repeat split; auto. now inversion Hall.
      * eexists. split; [reflexivity|]. split; [|exact Hled].
        intros _. exists p, e. repeat split; auto. now inversion Hall.
Qed.

Lemma loop_inv (rows : list Single.XRow) (i : nat) (st : Single.State) :
  StronglySorted Z.lt (map (fun y => Single.date (Single.row y)) rows) ->
  Forall (fun x => In (Single.date (Single.row x)) dates) rows ->
  single_inv dates rows st ->
  exists st', Single.loop sym act i rows st = Ok st' /\ single_inv dates [] st'.
Proof.
  revert i st; induction rows as [|x rows IH]; intros i st Hs Hd Hinv; simpl.
  - eauto.
  - inversion Hd as [|? ? Hdx Hdr]; subst.
    destruct (branch_inv i x rows st Hs Hdx Hinv) as (st1 & E1 & H1).
    unfold Single.step. rewrite E1. simpl.
    apply IH; [now inversion Hs|exact Hdr|].
    destruct H1 as [Ho Hl]. split; assumption.
Qed.

End SingleInvariant.

Lemma upper_nonempty (s : string) : s <> EmptyString -> Single.upper s <> EmptyString.
Proof. destruct s; simpl; [congruence|discriminate]. Qed.

Lemma run_inv (s : Single.Strategy) (df : list Single.Row) :
  Single.rule_symbol (Single.entry s) <> EmptyString ->
  df <> [] ->
  StronglySorted Z.lt (map Single.date df) ->
  exists st, Single.run s df = Ok st /\
             single_inv (map Single.date df) [] st.
Proof.
  intros Hsym Hdf Hs. unfold Single.run.
  destruct (String.eqb_spec (Single.upper (Single.rule_symbol (Single.entry s))) EmptyString)
    as [E|_]; [now apply upper_nonempty in E|].
  destruct df as [|r df]; [congruence|].
  assert (Hrows : map Single.row (Single.add_signals s (r :: df)) = r :: df)
    by apply add_signals_rows.
  apply loop_inv.
  - rewrite <- (map_map Single.row Single.date). now rewrite Hrows.
  - apply Forall_forall. intros x Hx.
    rewrite <- Hrows, map_map.
    exact (in_map (fun y => Single.date (Single.row y)) _ _ Hx).
  - split; [|constructor]. intros H. now elim H.
Qed.

(* ------------------------------------------------------------------ *)
(** ** Ledger rows *)

Lemma run_sector_strategy_inv (starting_capital drop_pct f stop_loss take_profit : Q)
      (df : list Portfolio.Row) (lookback_days : Z) (st : Portfolio.State) :
  Portfolio.run_sector_strategy starting_capital drop_pct f stop_loss take_profit
                                df lookback_days = Ok st ->
  portfolio_inv drop_pct (Portfolio.add_columns (Z.to_nat lookback_days) df) [] st.
Proof.
  unfold Portfolio.run_sector_strategy. intros H.
  destruct df as [|r df]; [discriminate|].
  destruct (lookback_days <? 1)%Z; [discriminate|].
  eapply run_days_inv; [|apply init_inv|exact H].
  apply sorted_unique_sorted.
Qed.

Lemma wf_ledger_row_ok (dates : list Timestamp) (r : dict value) :
  wf_ledger_row dates r -> single_row_ok r.
Proof.
  intros (sym & sd & e & ep & x & xp & ret & reason & -> & _ & _ & Hlt).
  split; [reflexivity|]. exists e, x. repeat split; auto.
Qed.

Lemma wf_trade_row_ok (r : dict value) : wf_trade_row r -> portfolio_row_ok r.
Proof.
  intros (sym & pos & d & price & ret & why & -> & Hlt).
  split; [reflexivity|]. exists (Portfolio.entry_date pos), d. repeat split; auto.
Qed.

(** C4, as the code has it.  Single-instrument mode: on a series in
    strictly increasing date order the run returns, and every ledger row
    has the nine fields of the Trade model, side and holding_days
    included, with entry_date < exit_date and holding_days the whole
    days between them.  Portfolio mode: every ledger row has the seven
    fields symbol, entry_date, exit_date, entry_price, exit_price,
    return and exit_reason, and entry_date < exit_date. *)
Theorem C4_ledger_rows :
  (forall (s : Single.Strategy) (df : list Single.Row),
      Single.rule_symbol (Single.entry s) <> EmptyString ->
      df <> [] ->
      StronglySorted Z.lt (map Single.date df) ->
      exists st, Single.run s df = Ok st /\
                 Forall single_row_ok (Single.ledger st))
  /\
  (forall (starting_capital drop_pct f stop_loss take_profit : Q)
          (df : list Portfolio.Row) (lookback_days : Z) (st : Portfolio.State),
      Portfolio.run_sector_strategy starting_capital drop_pct f stop_loss
                                    take_profit df lookback_days = Ok st ->
      Forall portfolio_row_ok (Portfolio.trades st)).
Proof.
  split.
  - intros s df Hsym Hdf Hs.
    destruct (run_inv s df Hsym Hdf Hs) as (st & E & _ & Hl).
    exists st. split; [exact E|].
    eapply Forall_impl; [|exact Hl]. intros r. apply wf_ledger_row_ok.
  - intros sc dp f sl tp df L st H.
    destruct (run_sector_strategy_inv _ _ _ _ _ _ _ _ H) as [_ Ht].
    eapply Forall_impl; [|exact Ht]. intros r. apply wf_trade_row_ok.
Qed.

(** The ledgers of the two example runs. *)
Lemma C4_ledger_rows_witness :
  (exists st, Single.run demo_strategy demo_series = Ok st /\
              Forall single_row_ok (Single.ledger st)) /\
  Forall portfolio_row_ok (Portfolio.trades demo_state).
Proof.
  split.
  - apply (proj1 C4_ledger_rows demo_strategy demo_series).
    + discriminate.
    + discriminate.
    + repeat constructor.
  - apply (proj2 C4_ledger_rows 1000 (5 # 100) (1 # 2) (5 # 100) (5 # 100)
                 demo_panel 2%Z demo_state).
    reflexivity.
Defined.

(** The portfolio run on [demo_panel] closes trades, and its first
    ledger row has neither a side nor a holding_days field. *)
Lemma C4_portfolio_rows_lack_side_and_holding_days :
  demo_run = Ok demo_state /\
  exists r, In r (Portfolio.trades demo_state) /\
            ~ In "side"%string (dict_keys r) /\
            ~ In "holding_days"%string (dict_keys r).
Proof.
  split; [reflexivity|].
  eexists. split; [left; reflexivity|].
  split; intros H; simpl in H; repeat destruct H as [H|H];
    solve [discriminate | contradiction].
Qed.

(* ------------------------------------------------------------------ *)
(** ** No same-day round trip in single-instrument mode *)

Lemma daily_gap (dates : list Timestamp) (e x : Timestamp) :
  daily dates -> In e dates -> In x dates -> (e < x)%Z ->
  (1 <= timedelta_days x e)%Z.
Proof.
  unfold daily, timedelta_days. rewrite Forall_forall. intros Hd He Hx Hlt.
  pose proof (Hd e He) as H1. pose proof (Hd x Hx) as H2.
  apply Z.mod_divide in H1; [|discriminate].
  apply Z.mod_divide in H2; [|discriminate].
  destruct H1 as [a ->]. destruct H2 as [b ->].
  apply Z.div_le_lower_bound; [reflexivity|].
  unfold NS_PER_DAY in *. lia.
Qed.

Lemma wf_ledger_row_spans (dates : list Timestamp) (r : dict value) :
  wf_ledger_row dates r -> spans_a_day dates r.
Proof.
  intros (sym & sd & e & ep & x & xp & ret & reason & -> & He & Hx & Hlt).
  exists e, x, (timedelta_days x e). repeat split; auto.
  intros Hd. now apply (daily_gap dates).
Qed.

(** C10.  In single-instrument mode the step that opens a position
    leaves the ledger as it was, whatever the exit signal of that day:
    entry and exit are exclusive branches.  Hence on a series in
    strictly increasing date order every ledger row has
    entry_date < exit_date, and on a daily series holding_days >= 1. *)
Theorem C10_no_same_day_round_trip :
  (forall (sym act : string) (i : nat) (x : Single.XRow) (st : Single.State),
      Single.position st = 0%Z ->
      Single.entry_signal x = true ->
      exists st', Single.step sym act i x st = Ok st' /\
                  Single.position st' <> 0%Z /\
                  Single.entry_date st' = Some (Single.date (Single.row x)) /\
                  Single.ledger st' = Single.ledger st)
  /\
  (forall (s : Single.Strategy) (df : list Single.Row),
      Single.rule_symbol (Single.entry s) <> EmptyString ->
      df <> [] ->
      StronglySorted Z.lt (map Single.date df) ->
      exists st, Single.run s df = Ok st /\
                 Forall (spans_a_day (map Single.date df)) (Single.ledger st)).
Proof.
  split.
  - intros sym act i x st Hp He. unfold Single.step, Single.branch.
    rewrite Hp, He. simpl. eexists. split; [reflexivity|]. simpl.
    repeat split. now destruct (String.eqb act "buy").
  - intros s df Hsym Hdf Hs.
    destruct (run_inv s df Hsym Hdf Hs) as (st & E & _ & Hl).
    exists st. split; [exact E|].
    eapply Forall_impl; [|exact Hl]. intros r. apply wf_ledger_row_spans.
Qed.

(** The row of [demo_series] on which entry and exit signals coincide,
    and the whole example run. *)
Lemma C10_no_same_day_round_trip_witness :
  (exists st',
      Single.step "X" "buy" 2 demo_entry_row Single.init_state = Ok st' /\
      Single.position st' <> 0%Z /\
      Single.entry_date st' = Some (day 3) /\
      Single.ledger st' = Single.ledger Single.init_state)
  /\
  (exists st, Single.run demo_strategy demo_series = Ok st /\
              Forall (spans_a_day (map Single.date demo_series)) (Single.ledger st)).
Proof.
  split.
  - apply (proj1 C10_no_same_day_round_trip "X"%string "buy"%string 2%nat
                 demo_entry_row Single.init_state); reflexivity.
  - apply (proj2 C10_no_same_day_round_trip demo_strategy demo_series).
    + discriminate.
    + discriminate.
    + repeat constructor.
Defined.

(* ------------------------------------------------------------------ *)
(** ** The allocation bound *)

Section AllocationBound.

Variables starting_capital drop_pct f stop_loss take_profit : Q.

Lemma nat_q_le (m n : nat) : (m <= n)%nat -> nat_q m <= nat_q n.
Proof.
  intros H. unfold nat_q. rewrite <- Zle_Qle. lia.
Qed.

Lemma nat_q_nonneg (n : nat) : 0 <= nat_q n.
Proof.
  unfold nat_q. change 0 with (inject_Z 0). rewrite <- Zle_Qle. lia.
Qed.

(** Fewer open positions never break the bound. *)
Lemma bound_mono (m n : nat) :
  (m <= n)%nat -> nat_q n * f <= 1 -> nat_q m * f <= 1.
Proof.
  intros Hmn Hn. pose proof (nat_q_le m n Hmn) as H.
  pose proof (nat_q_nonneg m) as H0.
  destruct (Qlt_le_dec f 0) as [Hf|Hf]; nra.
Qed.

Lemma exit_one_count (d : Timestamp) (day_data : list Portfolio.XRow)
      (st st' : Portfolio.State) (sym : string) :
  Portfolio.exit_one stop_loss take_profit d day_data st sym = Ok st' ->
  (length (Portfolio.positions st') <= length (Portfolio.positions st))%nat.
Proof.
  unfold Portfolio.exit_one. intros H.
  destruct (dict_get sym (Portfolio.positions st)) as [pos|]; [|discriminate].
  destruct (Portfolio.sub_of sym day_data) as [|x xs]; [now inversion H|].
  destruct (py_div _ _) as [q|e]; simpl in H; [|discriminate].
  destruct (Portfolio.exit_decision _ _ _); inversion H; subst; simpl; auto.
  apply dict_del_length.
Qed.

Lemma exit_loop_count (d : Timestamp) (day_data : list Portfolio.XRow)
      (keys : list string) (st st' : Portfolio.State) :
  Portfolio.exit_loop stop_loss take_profit d day_data keys st = Ok st' ->
  (length (Portfolio.positions st') <= length (Portfolio.positions st))%nat.
Proof.
  revert st; induction keys as [|k keys IH]; intros st H; simpl in H.
  - now inversion H.
  - destruct (Portfolio.exit_one stop_loss take_profit d day_data st k)
      as [st1|e] eqn:E1; simpl in H; [|discriminate].
    apply exit_one_count in E1. apply IH in H. lia.
Qed.

Lemma entry_loop_count (d : Timestamp) (rows : list Portfolio.XRow)
      (st st' : Portfolio.State) :
  Portfolio.entry_loop starting_capital f d rows st = Ok st' ->
  (length (Portfolio.positions st')
   <= length (Portfolio.positions st) + length rows)%nat.
Proof.
  revert st; induction rows as [|x rows IH]; intros st H; simpl in H.
  - inversion H. lia.
  - destruct (Portfolio.entry_one starting_capital f d st x) as [st1|e] eqn:E1;
      simpl in H; [|discriminate].
    apply IH in H. unfold Portfolio.entry_one in E1.
    destruct (Qltb _ _).
    + inversion E1; subst. simpl. lia.
    + destruct (py_div _ _) as [sh|e]; simpl in E1; [|discriminate].
      inversion E1; subst. simpl in H.
      pose proof (dict_set_length (Portfolio.symbol (Portfolio.row x))
                    (Portfolio.mkPos (Portfolio.open (Portfolio.row x)) sh d)
                    (Portfolio.positions st)).
      simpl. lia.
Qed.

Lemma floor_times (a : Q) : 0 < f -> inject_Z (Qfloor (a / f)) * f <= a.
Proof.
  intros Hf. pose proof (Qfloor_le (a / f)) as H.
  apply Qle_trans with (a / f * f).
  - apply Qmult_le_compat_r; [exact H|lra].
  - rewrite Qmult_comm, Qmult_div_r; [apply Qle_refl|lra].
Qed.

Lemma entry_phase_bound (d : Timestamp) (day_data : list Portfolio.XRow)
      (st st' : Portfolio.State) :
  open_count st * f <= 1 ->
  Portfolio.entry_phase starting_capital drop_pct f d day_data st = Ok st' ->
  open_count st' * f <= 1.
Proof.
  intros Hb H. unfold Portfolio.entry_phase in H.
  fold (open_count st) in H.
  destruct (Qltb (open_count st * f) 1) eqn:Eg; [|now inversion H; subst].
  destruct (Portfolio.candidates_of drop_pct (Portfolio.positions st) day_data)
    as [|c cands]; [now inversion H; subst|].
  unfold py_floordiv in H.
  destruct (Qeqb f 0) eqn:E0; cbn [bind] in H; [discriminate|].
  apply Qeqb_neq in E0. apply Qltb_lt in Eg.
  set (m := Qfloor ((1 - open_count st * f) / f)) in *.
  apply entry_loop_count in H.
  destruct (Qlt_le_dec f 0) as [Hf|Hf].
  - pose proof (nat_q_nonneg (length (Portfolio.positions st'))).
    unfold open_count. fold (nat_q (length (Portfolio.positions st'))). nra.
  - assert (Hf' : 0 < f) by (apply Qle_lt_or_eq in Hf; destruct Hf as [Hf|Hf];
                             [exact Hf|symmetry in Hf; contradiction]).
    assert (Hm : (0 <= m)%Z) by (apply floor_slots_nonneg; [exact Hf'|lra]).
    unfold head in H. apply Z.leb_le in Hm. rewrite Hm in H.
    apply Z.leb_le in Hm.
    rewrite length_firstn in H.
    pose proof (floor_times (1 - open_count st * f) Hf') as Hft. fold m in Hft.
    assert (Hle : nat_q (length (Portfolio.positions st'))
                  <= open_count st + inject_Z m).
    { unfold open_count, nat_q. rewrite <- inject_Z_plus, <- Zle_Qle. lia. }
    unfold open_count at 1. fold (nat_q (length (Portfolio.positions st'))).
    nra.
Qed.

Lemma day_step_bound (xdf : list Portfolio.XRow) (d : Timestamp)
      (st st' : Portfolio.State) :
  open_count st * f <= 1 ->
  Portfolio.day_step starting_capital drop_pct f stop_loss take_profit xdf st d
  = Ok st' ->
  open_count st' * f <= 1.
Proof.
  intros Hb H. unfold Portfolio.day_step in H.
  destruct (Portfolio.exit_phase _ _ _ _ _) as [st1|e] eqn:E1; simpl in H;
    [|discriminate].
  destruct (Portfolio.entry_phase _ _ _ _ _ _) as [st2|e] eqn:E2; simpl in H;
    [|discriminate].
  inversion H; subst; clear H. unfold open_count. simpl.
  fold (open_count st2). eapply entry_phase_bound; [|exact E2].
  apply exit_loop_count in E1. unfold open_count in *.
  eapply bound_mono; eauto.
Qed.

Lemma run_days_bound (xdf : list Portfolio.XRow) (dates : list Timestamp)
      (st st' : Portfolio.State) :
  open_count st * f <= 1 ->
  Portfolio.run_days starting_capital drop_pct f stop_loss take_profit xdf dates st
  = Ok st' ->
  open_count st' * f <= 1.
Proof.
  revert st; induction dates as [|d dates IH]; intros st Hb H; simpl in H.
  - now inversion H; subst.
  - destruct (Portfolio.day_step _ _ _ _ _ _ _ _) as [st1|e] eqn:E1; simpl in H;
      [|discriminate].
    eapply IH; [|exact H]. eapply day_step_bound; eauto.
Qed.

End AllocationBound.

(** C5.  In portfolio mode, after any number of simulated days (each
    day's exits and entries done), [open_count * allocation_per_trade]
    is at most 1, hence at most 1 + epsilon; and from a state within the
    bound no day's entry phase admits beyond it. *)
Theorem C5_allocation_bound :
  forall (starting_capital drop_pct f stop_loss take_profit : Q)
         (xdf : list Portfolio.XRow),
    (forall (dates : list Timestamp) (st : Portfolio.State),
        Portfolio.run_days starting_capital drop_pct f stop_loss take_profit
                           xdf dates (Portfolio.init_state starting_capital)
        = Ok st ->
        open_count st * f <= 1 /\
        forall eps, 0 <= eps -> open_count st * f <= 1 + eps)
    /\
    (forall (d : Timestamp) (day_data : list Portfolio.XRow)
            (st st' : Portfolio.State),
        open_count st * f <= 1 ->
        Portfolio.entry_phase starting_capital drop_pct f d day_data st = Ok st' ->
        open_count st' * f <= 1).
Proof.
  intros sc dp f sl tp xdf. split.
  - intros dates st H.
    assert (Hb : open_count st * f <= 1).
    { eapply run_days_bound; [|exact H].
      change (open_count (Portfolio.init_state sc)) with 0. lra. }
    split; [exact Hb|]. intros eps He. lra.
  - intros d dd st st'. apply entry_phase_bound.
Qed.

(** The bound after the three days of [demo_panel]. *)
Lemma C5_allocation_bound_witness :
  open_count demo_state * (1 # 2) <= 1.
Proof.
  apply (proj1 (C5_allocation_bound 1000 (5 # 100) (1 # 2) (5 # 100) (5 # 100)
                  (Portfolio.add_columns 2 demo_panel))
               (Portfolio.dates_of demo_panel) demo_state).
  reflexivity.
Defined.

(* ------------------------------------------------------------------ *)
(** ** Admission order *)

Lemma str_lt_irrefl (a : string) : ~ str_lt a a.
Proof.
  unfold str_lt. intros H. pose proof (String.compare_antisym a a) as E.
  rewrite H in E. discriminate.
Qed.

Lemma sorted_filter {A} (R : A -> A -> Prop) (p : A -> bool) (l : list A) :
  StronglySorted R l -> StronglySorted R (filter p l).
Proof.
  induction 1 as [|x l Hs IH Hall]; simpl; [constructor|].
  destruct (p x); [|exact IH]. constructor; [exact IH|].
  rewrite Forall_forall in *. intros y Hy. apply Hall.
  now apply filter_In in Hy.
Qed.

Lemma sorted_map_nodup {A} (g : A -> string) (l : list A) :
  StronglySorted (fun a b => str_lt (g a) (g b)) l -> NoDup (map g l).
Proof.
  induction 1 as [|x l Hs IH Hall]; simpl; constructor; [|exact IH].
  intros Hin. apply in_map_iff in Hin. destruct Hin as (y & E & Hy).
  rewrite Forall_forall in Hall. specialize (Hall y Hy).
  rewrite E in Hall. now apply str_lt_irrefl in Hall.
Qed.

Lemma add_columns_from_rows (w : nat) (df rows : list Portfolio.Row) (k : nat) :
  map Portfolio.row (Portfolio.add_columns_from w df k rows) = rows.
Proof.
  revert k; induction rows as [|r rows IH]; intros k; simpl; [reflexivity|].
  now rewrite IH.
Qed.

Lemma sorted_of_map {A B} (R : B -> B -> Prop) (g : A -> B) (l : list A) :
  StronglySorted R (map g l) -> StronglySorted (fun a b => R (g a) (g b)) l.
Proof.
  induction l as [|x l IH]; simpl; intros H; [constructor|].
  inversion H as [|? ? Hs Hall]; subst. constructor; [now apply IH|].
  now rewrite Forall_map in Hall.
Qed.

(** On one date a sorted panel lists each symbol once, in ascending
    order. *)
Lemma day_data_sorted (w : nat) (df : list Portfolio.Row) (d : Timestamp) :
  panel_sorted df ->
  StronglySorted (fun a b => str_lt (xsymbol a) (xsymbol b)) (day_data_of w df d).
Proof.
  intros Hs. unfold day_data_of, Portfolio.add_columns.
  assert (Hx : StronglySorted
                 (fun a b => row_lt (Portfolio.row a) (Portfolio.row b))
                 (Portfolio.add_columns_from w df 0 df)).
  { apply sorted_of_map. now rewrite add_columns_from_rows. }
  clear Hs. induction Hx as [|x l Hs IH Hall]; simpl; [constructor|].
  destruct (Portfolio.date (Portfolio.row x) =? d)%Z eqn:Ex; [|exact IH].
  constructor; [exact IH|].
  rewrite Forall_forall in *. intros y Hy. apply filter_In in Hy.
  destruct Hy as [Hy Ey]. apply Z.eqb_eq in Ex, Ey.
  destruct (Hall y Hy) as [H|[_ H]]; [exact H|lia].
Qed.

Section AdmissionOrder.

Variables starting_capital drop_pct f : Q.
Variable d : Timestamp.

(** The entry loop admits a prefix of its rows, and stops short only
    when the cash is below the amount to invest. *)
Lemma entry_loop_admits_prefix (rows : list Portfolio.XRow)
      (st st' : Portfolio.State) :
  Forall (fun x => dict_get (xsymbol x) (Portfolio.positions st) = None) rows ->
  NoDup (map xsymbol rows) ->
  Portfolio.entry_loop starting_capital f d rows st = Ok st' ->
  exists k,
    (k <= length rows)%nat /\
    dict_keys (Portfolio.positions st')
    = dict_keys (Portfolio.positions st) ++ map xsymbol (firstn k rows) /\
    (k = length rows \/
     Portfolio.cash st' < Portfolio.invest_amt starting_capital f).
Proof.
  revert st; induction rows as [|x rows IH]; intros st Hfresh Hnd H.
  - simpl in H. inversion H; subst. exists 0%nat. simpl.
    rewrite app_nil_r. auto.
  - inversion Hfresh as [|? ? Hx Hrest]; subst.
    inversion Hnd as [|? ? Hnotin Hnd']; subst.
    simpl in H. unfold Portfolio.entry_one in H.
    destruct (Qltb (Portfolio.cash st) (Portfolio.invest_amt starting_capital f))
      eqn:Ec.
    + simpl in H.
      rewrite (entry_loop_skip_all starting_capital f d rows st Ec) in H.
      inversion H; subst. exists 0%nat. simpl. rewrite app_nil_r.
      repeat split; [lia|]. right. now apply Qltb_lt.
    + destruct (py_div _ _) as [sh|e]; simpl in H; [|discriminate].
      apply IH in H; [| |exact Hnd'].
      * destruct H as (k & Hk & Hkeys & Hstop). exists (S k). simpl in *.
        rewrite (dict_set_fresh _ _ _ Hx) in Hkeys.
        unfold dict_keys in *. rewrite map_app in Hkeys. simpl in Hkeys.
        rewrite <- app_assoc in Hkeys. simpl in Hkeys.
        repeat split; [lia|exact Hkeys|].
        destruct Hstop as [->|Hstop]; auto.
      * simpl. rewrite (dict_set_fresh _ _ _ Hx).
        rewrite Forall_forall in *. intros y Hy.
        rewrite dict_get_app_fresh; [now apply Hrest|].
        intros E. apply Hnotin. rewrite <- E.
        exact (in_map xsymbol _ _ Hy).
Qed.

End AdmissionOrder.

(** C6.  In portfolio mode, with a positive allocation fraction and a
    panel sorted by (symbol, date), the day's eligible candidates are in
    strictly ascending symbol order and the entry phase admits exactly
    the first [k] of them, new positions in that order, with
    [k <= floor((1 - open_count * f) / f)]; fewer than both the cap and
    the number of candidates are admitted only when the cash is below
    [starting_capital * f]. *)
Theorem C6_admission_cap_and_order :
  forall (starting_capital drop_pct f : Q) (lookback : nat)
         (df : list Portfolio.Row) (d : Timestamp) (st st' : Portfolio.State),
    0 < f ->
    panel_sorted df ->
    open_count st * f <= 1 ->
    Portfolio.entry_phase starting_capital drop_pct f d
                          (day_data_of lookback df d) st = Ok st' ->
    let cands := Portfolio.candidates_of drop_pct (Portfolio.positions st)
                                         (day_data_of lookback df d) in
    let cap := Qfloor ((1 - open_count st * f) / f) in
    StronglySorted (fun a b => str_lt (xsymbol a) (xsymbol b)) cands /\
    exists k,
      (Z.of_nat k <= cap)%Z /\
      (k <= length cands)%nat /\
      dict_keys (Portfolio.positions st')
      = dict_keys (Portfolio.positions st) ++ map xsymbol (firstn k cands) /\
      ((Z.of_nat k < cap)%Z -> (k < length cands)%nat ->
       Portfolio.cash st' < starting_capital * f).
Proof.
  intros sc dp f w df d st st' Hf Hs Hb H cands cap.
  assert (Hsorted : StronglySorted (fun a b => str_lt (xsymbol a) (xsymbol b)) cands).
  { apply sorted_filter. now apply day_data_sorted. }
  split; [exact Hsorted|].
  assert (Hcap : (0 <= cap)%Z) by (apply floor_slots_nonneg; [exact Hf|lra]).
  unfold Portfolio.entry_phase in H. fold (open_count st) in H. fold cands in H.
  destruct (Qltb (open_count st * f) 1) eqn:Eg.
  - destruct cands as [|c cs] eqn:Ec.
    + inversion H; subst. exists 0%nat. simpl. rewrite app_nil_r.
      repeat split; [lia|lia|]. intros _ Hlt. lia.
    + rewrite <- Ec in *. unfold py_floordiv in H.
      assert (Hf0 : Qeqb f 0 = false) by (apply Qeqb_neq; lra).
      rewrite Hf0 in H. cbn [bind] in H. fold cap in H.
      unfold head in H. pose proof Hcap as Hcap'.
      apply Z.leb_le in Hcap'. rewrite Hcap' in H.
      apply entry_loop_admits_prefix in H.
      * destruct H as (k & Hk & Hkeys & Hstop).
        rewrite length_firstn in Hk. rewrite firstn_firstn in Hkeys.
        replace (Nat.min k (Z.to_nat cap)) with k in Hkeys by lia.
        exists k. repeat split; [lia|lia|exact Hkeys|].
        intros H1 H2. destruct Hstop as [Hstop|Hstop]; [|exact Hstop].
        rewrite length_firstn in Hstop. lia.
      * apply Forall_forall. intros x Hx.
        assert (Hin : In x cands).
        { rewrite <- (firstn_skipn (Z.to_nat cap) cands).
          apply in_or_app. now left. }
        unfold cands in Hin. now apply candidates_facts in Hin.
      * apply (sorted_map_nodup xsymbol). now apply sorted_firstn.
  - inversion H; subst. exists 0%nat. simpl. rewrite app_nil_r.
    repeat split; [lia|lia|]. intros Hlt _.
    apply Qltb_ge in Eg.
    assert (cap <= 0)%Z by (apply floor_slots_nonpos; [exact Hf|lra]). lia.
Qed.

(** One slot for the two candidates of the second day: A is admitted. *)
Lemma C6_admission_cap_and_order_witness :
  let st := Portfolio.init_state 1000 in
  let cands := Portfolio.candidates_of (5 # 100) (Portfolio.positions st)
                                       (day_data_of 2 demo_panel (day 2)) in
  let cap := Qfloor ((1 - open_count st * 1) / 1) in
  StronglySorted (fun a b => str_lt (xsymbol a) (xsymbol b)) cands /\
  exists k,
    (Z.of_nat k <= cap)%Z /\
    (k <= length cands)%nat /\
    dict_keys (Portfolio.positions demo_entry_state)
    = dict_keys (Portfolio.positions st) ++ map xsymbol (firstn k cands) /\
    ((Z.of_nat k < cap)%Z -> (k < length cands)%nat ->
     Portfolio.cash demo_entry_state < 1000 * 1).
Proof.
  apply (C6_admission_cap_and_order 1000 (5 # 100) 1 2 demo_panel (day 2)
           (Portfolio.init_state 1000) demo_entry_state).
  - reflexivity.
  - unfold panel_sorted, demo_panel.
    repeat (apply SSorted_cons || apply SSorted_nil
            || apply Forall_cons || apply Forall_nil);
      solve [left; reflexivity | right; split; reflexivity].
  - discriminate.
  - reflexivity.
Defined.

(* ------------------------------------------------------------------ *)
(** ** The portfolio run returns *)

Section PortfolioReturns.

Variables starting_capital drop_pct f stop_loss take_profit : Q.
Hypothesis f_nonzero : ~ f == 0.

Lemma exit_one_returns (d : Timestamp) (day_data : list Portfolio.XRow)
      (st : Portfolio.State) (sym : string) :
  positions_ok st ->
  In sym (dict_keys (Portfolio.positions st)) ->
  exists st',
    Portfolio.exit_one stop_loss take_profit d day_data st sym = Ok st' /\
    positions_ok st' /\
    forall k, k <> sym ->
              dict_get k (Portfolio.positions st') = dict_get k (Portfolio.positions st).
Proof.
  intros [Hnd Hpr] Hin. unfold Portfolio.exit_one.
  destruct (dict_get_keys sym _ Hin) as [pos Eg]. rewrite Eg.
  destruct (Portfolio.sub_of sym day_data) as [|x xs].
  { exists st. repeat split; auto. }
  assert (Hp : ~ Portfolio.entry_price pos == 0).
  { rewrite Forall_forall in Hpr. exact (Hpr _ (dict_get_In _ _ _ Eg)). }
  unfold py_div. apply Qeqb_neq in Hp. rewrite Hp. cbn [bind].
  destruct (Portfolio.exit_decision _ _ _).
  - eexists. split; [reflexivity|]. simpl. split; [split|].
    + now apply dict_del_nodup.
    + rewrite Forall_forall in *. intros kv Hkv. apply Hpr.
      now apply dict_del_In in Hkv.
    + intros k Hk. apply dict_get_del_other. congruence.
  - exists st. repeat split; auto.
Qed.

Lemma exit_loop_returns (d : Timestamp) (day_data : list Portfolio.XRow)
      (keys : list string) (st : Portfolio.State) :
  positions_ok st ->
  NoDup keys ->
  incl keys (dict_keys (Portfolio.positions st)) ->
  exists st',
    Portfolio.exit_loop stop_loss take_profit d day_data keys st = Ok st' /\
    positions_ok st'.
Proof.
  revert st; induction keys as [|k keys IH]; intros st Hok Hnd Hincl; simpl.
  - eauto.
  - inversion Hnd as [|? ? Hnotin Hnd']; subst.
    destruct (exit_one_returns d day_data st k Hok (Hincl k (or_introl eq_refl)))
      as (st1 & E1 & Hok1 & Hsame).
    rewrite E1. cbn [bind]. apply IH; auto.
    intros k' Hk'.
    assert (Hne : k' <> k) by (intros ->; contradiction).
    destruct (dict_get_keys k' _ (Hincl k' (or_intror Hk'))) as [v Hv].
    rewrite <- (Hsame k' Hne) in Hv. apply dict_get_In in Hv.
    exact (in_map fst _ _ Hv).
Qed.

Lemma entry_loop_returns (d : Timestamp) (rows : list Portfolio.XRow)
      (st : Portfolio.State) :
  positions_ok st ->
  Forall (fun x => ~ Portfolio.open (Portfolio.row x) == 0) rows ->
  exists st',
    Portfolio.entry_loop starting_capital f d rows st = Ok st' /\
    positions_ok st'.
Proof.
  intros Hok Hrows. revert st Hok.
  induction Hrows as [|x rows Hx _ IH]; intros st [Hnd Hpr]; simpl.
  - exists st. split; [reflexivity|now split].
  - unfold Portfolio.entry_one.
    destruct (Qltb (Portfolio.cash st) (Portfolio.invest_amt starting_capital f)).
    + cbn [bind]. apply IH. now split.
    + unfold py_div. pose proof Hx as Hx'. apply Qeqb_neq in Hx'. rewrite Hx'.
      cbn [bind]. apply IH. split; simpl.
      * now apply dict_set_nodup.
      * rewrite Forall_forall in *. intros kv Hkv.
        apply dict_set_In in Hkv. destruct Hkv as [->|Hkv]; auto.
Qed.

Lemma day_step_returns (xdf : list Portfolio.XRow) (d : Timestamp)
      (st : Portfolio.State) :
  Forall (fun x => ~ Portfolio.open (Portfolio.row x) == 0) xdf ->
  positions_ok st ->
  exists st',
    Portfolio.day_step starting_capital drop_pct f stop_loss take_profit xdf st d
    = Ok st' /\
    positions_ok st'.
Proof.
  intros Hx Hok. unfold Portfolio.day_step.
  set (dd := filter (fun x => (Portfolio.date (Portfolio.row x) =? d)%Z) xdf).
  destruct (exit_loop_returns d dd (dict_keys (Portfolio.positions st)) st Hok
              (proj1 Hok) (incl_refl _)) as (st1 & E1 & Hok1).
  unfold Portfolio.exit_phase. rewrite E1. cbn [bind].
  assert (E2 : exists st2,
             Portfolio.entry_phase starting_capital drop_pct f d dd st1 = Ok st2 /\
             positions_ok st2).
  { unfold Portfolio.entry_phase.
    destruct (Qltb _ 1); [|eauto].
    destruct (Portfolio.candidates_of drop_pct (Portfolio.positions st1) dd)
      as [|c cands] eqn:Ec; [eauto|].
    unfold py_floordiv. pose proof f_nonzero as Hf. apply Qeqb_neq in Hf.
    rewrite Hf. cbn [bind]. apply entry_loop_returns; [exact Hok1|].
    rewrite Forall_forall in *. intros x Hin. apply head_incl in Hin.
    rewrite <- Ec in Hin. apply candidates_facts in Hin.
    destruct Hin as (Hin & _). apply filter_In in Hin. apply Hx, Hin. }
  destruct E2 as (st2 & E2 & Hok2). rewrite E2. cbn [bind].
  eexists. split; [reflexivity|]. exact Hok2.
Qed.

Lemma run_days_returns (xdf : list Portfolio.XRow) (dates : list Timestamp)
      (st : Portfolio.State) :
  Forall (fun x => ~ Portfolio.open (Portfolio.row x) == 0) xdf ->
  positions_ok st ->
  exists st',
    Portfolio.run_days starting_capital drop_pct f stop_loss take_profit xdf dates st
    = Ok st'.
Proof.
  intros Hx. revert st; induction dates as [|d dates IH]; intros st Hok; simpl.
  - eauto.
  - destruct (day_step_returns xdf d st Hx Hok) as (st1 & E1 & Hok1).
    rewrite E1. cbn [bind]. now apply IH.
Qed.

(** On a non-empty panel without a zero open price, with a lookback of
    at least one day and a non-zero allocation fraction, the portfolio
    run raises nothing. *)
Lemma run_sector_strategy_returns (df : list Portfolio.Row) (lookback_days : Z) :
  df <> [] ->
  (1 <= lookback_days)%Z ->
  Forall (fun r => ~ Portfolio.open r == 0) df ->
  exists st,
    Portfolio.run_sector_strategy starting_capital drop_pct f stop_loss take_profit
                                  df lookback_days = Ok st.
Proof.
  intros Hdf Hl Hopen. unfold Portfolio.run_sector_strategy.
  destruct df as [|r df]; [congruence|].
  apply Z.ltb_ge in Hl. rewrite Hl.
  apply run_days_returns.
  - apply Forall_forall. intros x Hx.
    rewrite Forall_forall in Hopen. apply Hopen.
    rewrite <- (add_columns_from_rows (Z.to_nat lookback_days) (r :: df) (r :: df) 0).
    exact (in_map Portfolio.row _ _ Hx).
  - split; constructor.
Qed.

End PortfolioReturns.

(* ------------------------------------------------------------------ *)
(** ** The first date of an instrument *)

Lemma add_columns_In (w : nat) (df : list Portfolio.Row) (x : Portfolio.XRow) :
  In x (Portfolio.add_columns w df) ->
  exists i r, nth_error df i = Some r /\ x = Portfolio.xrow_at w df i r.
Proof.
  intros H. apply In_nth_error in H. destruct H as [i H].
  rewrite add_columns_nth in H.
  destruct (nth_error df i) as [r|] eqn:E; simpl in H; [|discriminate].
  exists i, r. split; [exact E|]. now inversion H.
Qed.

(** The first row of a symbol has no trailing high. *)
Lemma first_row_no_trailing_high (w : nat) (df : list Portfolio.Row)
      (i : nat) (r : Portfolio.Row) :
  (1 <= w)%nat ->
  nth_error df i = Some r ->
  Portfolio.group_pos df i (Portfolio.symbol r) = 0%nat ->
  Portfolio.trailing_high_at w df i = None.
Proof.
  intros Hw H H0. rewrite (trailing_high_at_window w df i r Hw H), H0.
  reflexivity.
Qed.

(** In a date-sorted group a row with the date of the group's first row
    is the first row. *)
Lemma first_date_first_pos (df : list Portfolio.Row) (i : nat)
      (r r0 : Portfolio.Row) :
  dates_increasing df ->
  nth_error df i = Some r ->
  hd_error (Portfolio.group_rows (Portfolio.symbol r) df) = Some r0 ->
  Portfolio.date r = Portfolio.date r0 ->
  Portfolio.group_pos df i (Portfolio.symbol r) = 0%nat.
Proof.
  intros Hs H Hhd Hd. pose proof (group_row_at df i r H) as Hg.
  specialize (Hs (Portfolio.symbol r)).
  destruct (Portfolio.group_rows (Portfolio.symbol r) df) as [|g0 g];
    [discriminate|].
  simpl in Hhd. inversion Hhd; subst g0.
  destruct (Portfolio.group_pos df i (Portfolio.symbol r)) as [|j]; [reflexivity|].
  simpl in Hg. apply nth_error_In in Hg.
  simpl in Hs. inversion Hs as [|? ? _ Hall]; subst.
  rewrite Forall_forall in Hall.
  specialize (Hall (Portfolio.date r) (in_map Portfolio.date _ _ Hg)). lia.
Qed.

(** C9.  In portfolio mode the first row of every instrument has a null
    trailing high and a NaN drop from high, and is no candidate: the
    comparison is false, nothing is raised.  Hence, on a panel whose
    dates increase within each instrument, no position reached after any
    number of simulated days was opened on the instrument's first
    date. *)
Theorem C9_no_entry_on_first_date :
  forall (starting_capital drop_pct f stop_loss take_profit : Q)
         (lookback : nat) (df : list Portfolio.Row),
    (1 <= lookback)%nat ->
    (forall (i : nat) (r : Portfolio.Row) (ps : dict Portfolio.Pos),
        nth_error df i = Some r ->
        Portfolio.group_pos df i (Portfolio.symbol r) = 0%nat ->
        let x := Portfolio.xrow_at lookback df i r in
        Portfolio.trailing_high x = None /\
        Portfolio.drop_from_high x = NaN /\
        Portfolio.is_candidate drop_pct ps x = false)
    /\
    (dates_increasing df ->
     forall (k : nat) (st : Portfolio.State) (sym : string)
            (pos : Portfolio.Pos) (r0 : Portfolio.Row),
       Portfolio.run_days starting_capital drop_pct f stop_loss take_profit
                          (Portfolio.add_columns lookback df)
                          (firstn k (Portfolio.dates_of df))
                          (Portfolio.init_state starting_capital) = Ok st ->
       In (sym, pos) (Portfolio.positions st) ->
       hd_error (Portfolio.group_rows sym df) = Some r0 ->
       Portfolio.entry_date pos <> Portfolio.date r0).
Proof.
  intros sc dp f sl tp w df Hw. split.
  - intros i r ps H H0 x. unfold x, Portfolio.xrow_at, Portfolio.is_candidate.
    simpl. rewrite (first_row_no_trailing_high w df i r Hw H H0). auto.
  - intros Hs k st sym pos r0 Hrun Hin Hhd Hd.
    assert (Hinv : portfolio_inv dp (Portfolio.add_columns w df) [] st).
    { eapply run_days_inv; [|apply init_inv|exact Hrun].
      apply sorted_firstn, sorted_unique_sorted. }
    destruct Hinv as [Hpos _]. rewrite Forall_forall in Hpos.
    destruct (Hpos _ Hin) as (_ & (x & Hx & Hsym & Hdate & _ & Hsig) & _).
    simpl in *. apply add_columns_In in Hx. destruct Hx as (i & r & Hr & ->).
    simpl in *. subst sym.
    assert (H0 : Portfolio.group_pos df i (Portfolio.symbol r) = 0%nat).
    { eapply first_date_first_pos; eauto. congruence. }
    unfold Portfolio.xrow_at in Hsig. simpl in Hsig.
    rewrite (first_row_no_trailing_high w df i r Hw Hr H0) in Hsig.
    discriminate.
Qed.

(** The first row of instrument B in [demo_panel]. *)
Lemma C9_no_entry_on_first_date_witness :
  let x := Portfolio.xrow_at 2 demo_panel 3
             (Portfolio.mkRow (day 1) "B" 50 50) in
  Portfolio.trailing_high x = None /\
  Portfolio.drop_from_high x = NaN /\
  Portfolio.is_candidate (5 # 100) [] x = false.
Proof.
  apply (proj1 (C9_no_entry_on_first_date 1000 (5 # 100) (1 # 2) (5 # 100)
                  (5 # 100) 2 demo_panel (le_S 1 1 (le_n 1)))
               3%nat (Portfolio.mkRow (day 1) "B" 50 50) []);
    reflexivity.
Defined.

(* ------------------------------------------------------------------ *)
(** ** Trade metrics *)

Lemma guarded_sum (l : list Q) :
  match l with [] => 0 | _ => Report.qsum l end = Report.qsum l.
Proof. now destruct l. Qed.

Lemma guarded_neg_sum (l : list Q) :
  match l with [] => 0 | _ => - Report.qsum l end == - Report.qsum l.
Proof. destruct l; reflexivity. Qed.

Lemma profit_factor_eq (t : Report.Trades) :
  Report.returns t <> [] ->
  Report.profit_factor (Report._extra_metrics_from_trades (Some t))
  = let wins := filter (fun x => Qltb 0 x) (Report.returns t) in
    let losses := filter (fun x => Qle_bool x 0) (Report.returns t) in
    let gp := match wins with [] => 0 | _ => Report.qsum wins end in
    let gl := match losses with [] => 0 | _ => - Report.qsum losses end in
    if Qltb 0 gl then Fin (gp / gl) else if Qltb 0 gp then PInf else Fin 0.
Proof.
  destruct t as [r h]. destruct r as [|x r]; [intros H; now elim H|]. reflexivity.
Qed.

(** C8.  The trade metrics of an empty ledger (no DataFrame, or one
    without rows) are win rate 0, profit factor 0, expectancy 0 and
    median hold 0; the function is total, nothing is raised.  For a
    ledger with rows, zero gross loss and positive gross profit the
    profit factor is the value +infinity. *)
Theorem C8_metrics_edge_cases :
  (Report._extra_metrics_from_trades None = Report.zero_metrics /\
   (forall h, Report._extra_metrics_from_trades (Some (Report.mkTrades [] h))
              = Report.zero_metrics) /\
   Report.win_rate Report.zero_metrics = 0 /\
   Report.profit_factor Report.zero_metrics = Fin 0 /\
   Report.expectancy Report.zero_metrics = 0 /\
   Report.median_hold Report.zero_metrics = Fin 0)
  /\
  (forall t : Report.Trades,
      Report.returns t <> [] ->
      gross_loss (Report.returns t) == 0 ->
      0 < gross_profit (Report.returns t) ->
      Report.profit_factor (Report._extra_metrics_from_trades (Some t)) = PInf).
Proof.
  split.
  - repeat split.
  - intros t Hne Hloss Hprofit. rewrite (profit_factor_eq t Hne). cbv zeta.
    set (wins := filter (fun x => Qltb 0 x) (Report.returns t)) in *.
    set (losses := filter (fun x => Qle_bool x 0) (Report.returns t)) in *.
    assert (E1 : Qltb 0 (match losses with [] => 0 | _ => - Report.qsum losses end)
                 = false).
    { apply Qltb_ge. rewrite guarded_neg_sum. unfold gross_loss in Hloss.
      fold losses in Hloss. rewrite Hloss. apply Qle_refl. }
    assert (E2 : Qltb 0 (match wins with [] => 0 | _ => Report.qsum wins end) = true).
    { apply Qltb_lt. rewrite guarded_sum. exact Hprofit. }
    now rewrite E1, E2.
Qed.

(** Two winning trades and no loss. *)
Lemma C8_metrics_edge_cases_witness :
  Report.profit_factor (Report._extra_metrics_from_trades (Some demo_winning_trades))
  = PInf.
Proof.
  apply (proj2 C8_metrics_edge_cases demo_winning_trades).
  - discriminate.
  - reflexivity.
  - reflexivity.
Defined.

(* ------------------------------------------------------------------ *)
(** ** Sharpe ratio *)

Section SharpeFacts.

Local Open Scope R_scope.

Lemma rsum_shift (c : R) (l : list R) :
  Sharpe.rsum (map (fun x => x - c) l) = Sharpe.rsum l - Sharpe.rlen l * c.
Proof.
  unfold Sharpe.rlen. induction l as [|a l IH].
  - simpl. ring.
  - change (length (a :: l)) with (S (length l)). rewrite S_INR.
    simpl. rewrite IH. ring.
Qed.

Lemma rlen_pos (a : R) (l : list R) : 0 < Sharpe.rlen (a :: l).
Proof.
  unfold Sharpe.rlen. apply lt_0_INR. simpl. lia.
Qed.

Lemma rlen_map (g : R -> R) (l : list R) :
  Sharpe.rlen (map g l) = Sharpe.rlen l.
Proof. unfold Sharpe.rlen. now rewrite length_map. Qed.

Lemma mean_shift_raw (c : R) (l : list R) :
  l <> [] ->
  Sharpe.rsum (map (fun x => x - c) l) / Sharpe.rlen (map (fun x => x - c) l)
  = Sharpe.rsum l / Sharpe.rlen l - c.
Proof.
  intros Hl. destruct l as [|a l]; [congruence|].
  rewrite rlen_map, rsum_shift. pose proof (rlen_pos a l). field. lra.
Qed.

(** Subtracting a constant moves the mean by that constant. *)
Lemma mean_shift (c : R) (l : list R) :
  Sharpe.mean (map (fun x => x - c) l)
  = option_map (fun m => m - c) (Sharpe.mean l).
Proof.
  destruct l as [|a l]; [reflexivity|].
  unfold Sharpe.mean. cbn [map option_map]. f_equal.
  apply (mean_shift_raw c (a :: l)). discriminate.
Qed.

(** Subtracting a constant leaves the standard deviation unchanged. *)
Lemma std_shift (c : R) (l : list R) :
  Sharpe.std (map (fun x => x - c) l) = Sharpe.std l.
Proof.
  destruct l as [|a [|b l]]; [reflexivity|reflexivity|].
  set (l' := a :: b :: l).
  change (Sharpe.std (map (fun x => x - c) l'))
    with (Some (sqrt (Sharpe.rsum
                        (map (fun x => (x - Sharpe.rsum (map (fun x => x - c) l')
                                            / Sharpe.rlen (map (fun x => x - c) l'))
                                       * (x - Sharpe.rsum (map (fun x => x - c) l')
                                              / Sharpe.rlen (map (fun x => x - c) l')))
                             (map (fun x => x - c) l'))
                      / (Sharpe.rlen (map (fun x => x - c) l') - 1)))).
  change (Sharpe.std l')
    with (Some (sqrt (Sharpe.rsum
                        (map (fun x => (x - Sharpe.rsum l' / Sharpe.rlen l')
                                       * (x - Sharpe.rsum l' / Sharpe.rlen l')) l')
                      / (Sharpe.rlen l' - 1)))).
  rewrite mean_shift_raw by discriminate.
  rewrite rlen_map, map_map. do 4 f_equal.
  apply map_ext. intros x. ring.
Qed.

Lemma is_zero_false (s : R) : s <> 0 -> Sharpe.is_zero (Some s) = false.
Proof.
  intros H. unfold Sharpe.is_zero. now destruct (Req_dec_T s 0).
Qed.

Lemma is_zero_true : Sharpe.is_zero (Some 0) = true.
Proof.
  unfold Sharpe.is_zero. destruct (Req_dec_T 0 0); [reflexivity|congruence].
Qed.

Lemma daily_rf_zero : Sharpe.daily_rf 0 = 0.
Proof.
  unfold Sharpe.daily_rf, Rpower. rewrite Rplus_0_r, ln_1, Rmult_0_r, exp_0.
  ring.
Qed.

Lemma daily_rf_pos (rf : R) : 0 < rf -> 0 < Sharpe.daily_rf rf.
Proof.
  intros H. unfold Sharpe.daily_rf, Rpower.
  assert (Hln : 0 < ln (1 + rf)).
  { rewrite <- ln_1. apply ln_increasing; lra. }
  assert (Hy : 0 < 1 / 252 * ln (1 + rf)).
  { apply Rmult_lt_0_compat; [lra|exact Hln]. }
  pose proof (exp_increasing _ _ Hy) as He. rewrite exp_0 in He. lra.
Qed.

Lemma map_minus_zero (l : list R) : map (fun x => x - 0) l = l.
Proof.
  rewrite <- (map_id l) at 2. apply map_ext. intros x. ring.
Qed.

(** The workflow's function is the specification's formula. *)
Lemma calculate_sharpe_ratio_spec (returns : list R) (rf : R) :
  Sharpe.calculate_sharpe_ratio returns rf = Sharpe.sharpe_spec rf returns.
Proof.
  unfold Sharpe.calculate_sharpe_ratio, Sharpe.sharpe_spec, Sharpe.is_zero,
    Sharpe.daily_rf.
  destruct (Sharpe.std returns) as [s|]; [|reflexivity].
  now destruct (Req_dec_T s 0).
Qed.

(** The report's computation is the formula without a risk-free rate. *)
Lemma summary_sharpe_spec (returns : list R) :
  Sharpe.summary_sharpe returns = Sharpe.sharpe_spec 0 returns.
Proof.
  unfold Sharpe.summary_sharpe, Sharpe.sharpe_spec.
  fold (Sharpe.daily_rf 0). rewrite daily_rf_zero, map_minus_zero.
  destruct (Sharpe.std returns) as [s|] eqn:Es.
  - unfold Sharpe.is_zero. destruct (Req_dec_T s 0); [reflexivity|]. simpl.
    destruct (Sharpe.mean returns) as [m|]; [|reflexivity].
    simpl. f_equal. unfold Rdiv. ring.
  - simpl. now destruct (Sharpe.mean returns).
Qed.

(** With a positive annual rate the two computations differ wherever the
    standard deviation is defined and not zero. *)
Lemma summary_sharpe_differs (returns : list R) (rf s : R) :
  0 < rf -> Sharpe.std returns = Some s -> s <> 0 ->
  Sharpe.summary_sharpe returns <> Sharpe.sharpe_spec rf returns.
Proof.
  intros Hrf Hs Hne. rewrite summary_sharpe_spec.
  unfold Sharpe.sharpe_spec.
  fold (Sharpe.daily_rf 0). fold (Sharpe.daily_rf rf).
  rewrite daily_rf_zero, map_minus_zero, Hs.
  destruct (Req_dec_T s 0) as [E|_]; [contradiction|].
  rewrite std_shift, mean_shift, Hs.
  destruct (Sharpe.mean returns) as [m|] eqn:Em.
  - simpl. intros H. inversion H as [H1].
    pose proof (daily_rf_pos rf Hrf) as Hd.
    assert (H252 : 0 < sqrt 252) by (apply sqrt_lt_R0; lra).
    assert (E : sqrt 252 * Sharpe.daily_rf rf = 0).
    { apply (Rmult_eq_compat_r s) in H1. unfold Rdiv in H1.
      rewrite !Rmult_assoc, Rinv_l in H1 by exact Hne. lra. }
    apply Rmult_integral in E. lra.
  - destruct returns as [|a [|b l]]; simpl in *; discriminate.
Qed.

(** The formula on the raw series: subtracting the daily rate [d] from
    every return lowers the mean by [d] and leaves the deviation. *)
Lemma sharpe_spec_closed_form (returns : list R) (rf : R) :
  Sharpe.sharpe_spec rf returns
  = sharpe_closed_form (Sharpe.daily_rf rf) returns.
Proof.
  unfold Sharpe.sharpe_spec, sharpe_closed_form.
  fold (Sharpe.daily_rf rf). rewrite std_shift, mean_shift.
  destruct (Sharpe.std returns) as [s|] eqn:Es.
  - destruct (Req_dec_T s 0); [reflexivity|].
    now destruct (Sharpe.mean returns).
  - now destruct (Sharpe.mean returns).
Qed.

End SharpeFacts.

(** C7, as the code has it.  [calculate_sharpe_ratio] returns 0 when the
    standard deviation of the returns is 0 and otherwise
    sqrt(252) * mean(excess) / std(excess), the excess taken over the
    daily rate (1 + annual_rf)^(1/252) - 1.  The Sharpe ratio of
    [ReportGenerator.summary] returns 0 when the standard deviation is 0
    and otherwise sqrt(252) * mean / std of the returns themselves: the
    same formula at an annual rate of zero. *)
Theorem C7_sharpe_ratios :
  (forall (returns : list R) (rf : R),
      Sharpe.calculate_sharpe_ratio returns rf = Sharpe.sharpe_spec rf returns /\
      Sharpe.calculate_sharpe_ratio returns rf
      = sharpe_closed_form (Sharpe.daily_rf rf) returns)
  /\
  (forall returns : list R,
      Sharpe.summary_sharpe returns = Sharpe.sharpe_spec 0 returns /\
      Sharpe.summary_sharpe returns = sharpe_closed_form 0%R returns).
Proof.
  split.
  - intros returns rf. rewrite calculate_sharpe_ratio_spec.
    split; [reflexivity|apply sharpe_spec_closed_form].
  - intros returns. rewrite summary_sharpe_spec.
    split; [reflexivity|].
    rewrite sharpe_spec_closed_form. now rewrite daily_rf_zero.
Qed.

(** On the returns 0 and 2 the report's Sharpe ratio is not the formula
    with the annual risk-free rate 0.02 of the workflow. *)
Lemma C7_summary_sharpe_ignores_risk_free_rate :
  Sharpe.summary_sharpe [0%R; 2%R] <> Sharpe.sharpe_spec (1 / 50)%R [0%R; 2%R].
Proof.
  apply (summary_sharpe_differs [0%R; 2%R] (1 / 50)%R (sqrt 2)).
  - lra.
  - unfold Sharpe.std, Sharpe.rlen. simpl. do 2 f_equal. field.
  - apply Rgt_not_eq, sqrt_lt_R0. lra.
Qed.

(* ------------------------------------------------------------------ *)
(** ** Invariants of the portfolio loop, in general *)

Section DayInvariant.

Variables starting_capital drop_pct f stop_loss take_profit : Q.
Variable xdf : list Portfolio.XRow.

(** A property of the state, indexed by the dates still to come. *)
Variable I : list Timestamp -> Portfolio.State -> Prop.

Hypothesis I_exit :
  forall d later day_data st st' sym,
    Forall (fun x => In x xdf /\ Portfolio.date (Portfolio.row x) = d) day_data ->
    I (d :: later) st ->
    Portfolio.exit_one stop_loss take_profit d day_data st sym = Ok st' ->
    I (d :: later) st'.

Hypothesis I_next :
  forall d later st,
    StronglySorted Z.lt (d :: later) -> I (d :: later) st -> I later st.

Hypothesis I_entry :
  forall d later st st' x,
    StronglySorted Z.lt (d :: later) ->
    In x xdf ->
    Portfolio.date (Portfolio.row x) = d ->
    I later st ->
    Portfolio.entry_one starting_capital f d st x = Ok st' ->
    I later st'.

Hypothesis I_equity :
  forall d later day_data st,
    Forall (fun x => In x xdf /\ Portfolio.date (Portfolio.row x) = d) day_data ->
    I later st ->
    I later (Portfolio.equity_phase d day_data st).

Lemma exit_loop_preserves (d : Timestamp) (later : list Timestamp)
      (day_data : list Portfolio.XRow) (keys : list string)
      (st st' : Portfolio.State) :
  Forall (fun x => In x xdf /\ Portfolio.date (Portfolio.row x) = d) day_data ->
  I (d :: later) st ->
  Portfolio.exit_loop stop_loss take_profit d day_data keys st = Ok st' ->
  I (d :: later) st'.
Proof.
  intros Hdd. revert st; induction keys as [|k keys IH]; intros st Hi H;
    simpl in H.
  - now inversion H; subst.
  - destruct (Portfolio.exit_one stop_loss take_profit d day_data st k)
      as [st1|e] eqn:E1; cbn [bind] in H; [|discriminate].
    eapply IH; [|exact H]. eapply I_exit; eauto.
Qed.

Lemma entry_loop_preserves (d : Timestamp) (later : list Timestamp)
      (rows : list Portfolio.XRow) (st st' : Portfolio.State) :
  StronglySorted Z.lt (d :: later) ->
  Forall (fun x => In x xdf /\ Portfolio.date (Portfolio.row x) = d) rows ->
  I later st ->
  Portfolio.entry_loop starting_capital f d rows st = Ok st' ->
  I later st'.
Proof.
  intros Hs Hrows. revert st.
  induction Hrows as [|x rows [Hin Hd] _ IH]; intros st Hi H; simpl in H.
  - now inversion H; subst.
  - destruct (Portfolio.entry_one starting_capital f d st x) as [st1|e] eqn:E1;
      cbn [bind] in H; [|discriminate].
    eapply IH; [|exact H]. eapply I_entry; eauto.
Qed.

Lemma day_step_preserves (d : Timestamp) (later : list Timestamp)
      (st st' : Portfolio.State) :
  StronglySorted Z.lt (d :: later) ->
  I (d :: later) st ->
  Portfolio.day_step starting_capital drop_pct f stop_loss take_profit xdf st d
  = Ok st' ->
  I later st'.
Proof.
  intros Hs Hi H. unfold Portfolio.day_step in H.
  set (dd := filter (fun x => (Portfolio.date (Portfolio.row x) =? d)%Z) xdf) in *.
  assert (Hdd : Forall (fun x => In x xdf /\ Portfolio.date (Portfolio.row x) = d) dd).
  { apply Forall_forall. intros x Hx. apply filter_In in Hx.
    destruct Hx as [Hx Hd]. apply Z.eqb_eq in Hd. auto. }
  destruct (Portfolio.exit_phase stop_loss take_profit d dd st) as [st1|e] eqn:E1;
    cbn [bind] in H; [|discriminate].
  destruct (Portfolio.entry_phase starting_capital drop_pct f d dd st1)
    as [st2|e] eqn:E2; cbn [bind] in H; [|discriminate].
  inversion H; subst; clear H. apply I_equity; [exact Hdd|].
  assert (H1 : I later st1).
  { apply (I_next d); [exact Hs|]. eapply exit_loop_preserves; eauto. }
  unfold Portfolio.entry_phase in E2.
  destruct (Qltb _ 1); [|now inversion E2; subst].
  destruct (Portfolio.candidates_of drop_pct (Portfolio.positions st1) dd)
    as [|c cands] eqn:Ec; [now inversion E2; subst|].
  destruct (py_floordiv _ f) as [max_new|e]; cbn [bind] in E2; [|discriminate].
  eapply entry_loop_preserves; [exact Hs| |exact H1|exact E2].
  rewrite Forall_forall in *. intros x Hx.
  apply head_incl in Hx. rewrite <- Ec in Hx.
  apply candidates_facts in Hx. destruct Hx as (Hin & _). now apply Hdd.
Qed.

Lemma run_days_preserves (dates : list Timestamp) (st st' : Portfolio.State) :
  StronglySorted Z.lt dates ->
  I dates st ->
  Portfolio.run_days starting_capital drop_pct f stop_loss take_profit xdf dates st
  = Ok st' ->
  I [] st'.
Proof.
  revert st; induction dates as [|d dates IH]; intros st Hs Hi H; simpl in H.
  - now inversion H; subst.
  - destruct (Portfolio.day_step starting_capital drop_pct f stop_loss take_profit
                xdf st d) as [st1|e] eqn:E1; cbn [bind] in H; [|discriminate].
    eapply IH; [|eapply day_step_preserves; eauto|exact H].
    now inversion Hs.
Qed.

End DayInvariant.

Lemma run_as_state_after (starting_capital drop_pct f stop_loss take_profit : Q)
      (df : list Portfolio.Row) (lookback_days : Z) (st : Portfolio.State) :
  Portfolio.run_sector_strategy starting_capital drop_pct f stop_loss take_profit
                                df lookback_days = Ok st ->
  state_after starting_capital drop_pct f stop_loss take_profit
              (Z.to_nat lookback_days) df (length (Portfolio.dates_of df)) = Ok st.
Proof.
  unfold Portfolio.run_sector_strategy, state_after. intros H.
  destruct df as [|r df]; [discriminate|].
  destruct (lookback_days <? 1)%Z; [discriminate|].
  now rewrite firstn_all.
Qed.

(* ------------------------------------------------------------------ *)
(** ** The equity curve of the portfolio run *)

Section EquityCurve.

Variables starting_capital drop_pct f stop_loss take_profit : Q.

Lemma exit_loop_equity (d : Timestamp) (day_data : list Portfolio.XRow)
      (keys : list string) (st st' : Portfolio.State) :
  Portfolio.exit_loop stop_loss take_profit d day_data keys st = Ok st' ->
  Portfolio.equity_curve st' = Portfolio.equity_curve st.
Proof.
  revert st; induction keys as [|k keys IH]; intros st H; simpl in H.
  - now inversion H.
  - destruct (Portfolio.exit_one stop_loss take_profit d day_data st k)
      as [st1|e] eqn:E1; cbn [bind] in H; [|discriminate].
    rewrite (IH _ H). unfold Portfolio.exit_one in E1.
    destruct (dict_get k (Portfolio.positions st)); [|discriminate].
    destruct (Portfolio.sub_of k day_data); [now inversion E1|].
    destruct (py_div _ _); cbn [bind] in E1; [|discriminate].
    destruct (Portfolio.exit_decision _ _ _); now inversion E1.
Qed.

Lemma entry_loop_equity (d : Timestamp) (rows : list Portfolio.XRow)
      (st st' : Portfolio.State) :
  Portfolio.entry_loop starting_capital f d rows st = Ok st' ->
  Portfolio.equity_curve st' = Portfolio.equity_curve st /\
  Portfolio.trades st' = Portfolio.trades st.
Proof.
  revert st; induction rows as [|x rows IH]; intros st H; simpl in H.
  - inversion H. auto.
  - destruct (Portfolio.entry_one starting_capital f d st x) as [st1|e] eqn:E1;
      cbn [bind] in H; [|discriminate].
    destruct (IH _ H) as [-> ->]. unfold Portfolio.entry_one in E1.
    destruct (Qltb _ _); [inversion E1; auto|].
    destruct (py_div _ _); cbn [bind] in E1; [|discriminate].
    inversion E1. auto.
Qed.

Lemma entry_phase_equity (d : Timestamp) (day_data : list Portfolio.XRow)
      (st st' : Portfolio.State) :
  Portfolio.entry_phase starting_capital drop_pct f d day_data st = Ok st' ->
  Portfolio.equity_curve st' = Portfolio.equity_curve st /\
  Portfolio.trades st' = Portfolio.trades st.
Proof.
  unfold Portfolio.entry_phase. intros H.
  destruct (Qltb _ 1); [|inversion H; auto].
  destruct (Portfolio.candidates_of _ _ _); [inversion H; auto|].
  destruct (py_floordiv _ _); cbn [bind] in H; [|discriminate].
  now apply entry_loop_equity in H.
Qed.

Lemma run_days_equity_dates (xdf : list Portfolio.XRow) (dates : list Timestamp)
      (st st' : Portfolio.State) :
  Portfolio.run_days starting_capital drop_pct f stop_loss take_profit xdf dates st
  = Ok st' ->
  map fst (Portfolio.equity_curve st')
  = map fst (Portfolio.equity_curve st) ++ dates.
Proof.
  revert st; induction dates as [|d dates IH]; intros st H; simpl in H.
  - inversion H. now rewrite app_nil_r.
  - destruct (Portfolio.day_step _ _ _ _ _ _ _ _) as [st1|e] eqn:E1;
      cbn [bind] in H; [|discriminate].
    rewrite (IH _ H). unfold Portfolio.day_step in E1.
    destruct (Portfolio.exit_phase _ _ _ _ _) as [s1|e] eqn:E2;
      cbn [bind] in E1; [|discriminate].
    destruct (Portfolio.entry_phase _ _ _ _ _ _) as [s2|e] eqn:E3;
      cbn [bind] in E1; [|discriminate].
    inversion E1; subst. simpl.
    apply entry_phase_equity in E3. destruct E3 as [-> _].
    rewrite (exit_loop_equity _ _ _ _ _ E2).
    now rewrite map_app, <- app_assoc.
Qed.

End EquityCurve.

Lemma sorted_unique_In (x : Timestamp) (l : list Timestamp) :
  In x (sorted_unique l) <-> In x l.
Proof.
  induction l as [|d l IH]; simpl; [tauto|].
  rewrite insert_uniq_In, IH. intuition.
Qed.

(** X1.  The equity curve returned by the portfolio run has exactly one
    point per date of the panel, in strictly increasing date order. *)
Theorem equity_curve_one_point_per_date :
  forall (starting_capital drop_pct f stop_loss take_profit : Q)
         (df : list Portfolio.Row) (lookback_days : Z) (st : Portfolio.State),
    Portfolio.run_sector_strategy starting_capital drop_pct f stop_loss
                                  take_profit df lookback_days = Ok st ->
    let dates := map fst (Portfolio.equity_curve st) in
    StronglySorted Z.lt dates /\
    forall d, In d dates <-> In d (map Portfolio.date df).
Proof.
  intros sc dp f sl tp df L st H dates.
  assert (E : dates = Portfolio.dates_of df).
  { unfold dates, Portfolio.run_sector_strategy in *.
    destruct df as [|r df]; [discriminate|].
    destruct (L <? 1)%Z; [discriminate|].
    now rewrite (run_days_equity_dates _ _ _ _ _ _ _ _ _ H). }
  rewrite E. split.
  - apply sorted_unique_sorted.
  - intros d. apply sorted_unique_In.
Qed.

Lemma equity_curve_one_point_per_date_witness :
  let dates := map fst (Portfolio.equity_curve demo_state) in
  StronglySorted Z.lt dates /\
  forall d, In d dates <-> In d (map Portfolio.date demo_panel).
Proof.
  apply (equity_curve_one_point_per_date 1000 (5 # 100) (1 # 2) (5 # 100)
           (5 # 100) demo_panel 2%Z demo_state).
  reflexivity.
Defined.

(* ------------------------------------------------------------------ *)
(** ** Cash, shares and equity stay non-negative *)

Lemma mkt_val_nonneg (day_data : list Portfolio.XRow) (ps : dict Portfolio.Pos) :
  Forall (fun x => 0 <= Portfolio.close (Portfolio.row x)) day_data ->
  Forall (fun kv => 0 <= Portfolio.shares (snd kv)) ps ->
  0 <= Portfolio.mkt_val day_data ps.
Proof.
  intros Hc Hs. unfold Portfolio.mkt_val.
  assert (G : forall acc, 0 <= acc ->
            0 <= fold_left
                   (fun acc kv =>
                      match Portfolio.sub_of (fst kv) day_data with
                      | [] => acc
                      | x :: _ => acc + Portfolio.shares (snd kv)
                                        * Portfolio.close (Portfolio.row x)
                      end) ps acc).
  { induction Hs as [|kv ps Hkv _ IH]; intros acc Hacc; simpl; [exact Hacc|].
    apply IH.
    destruct (Portfolio.sub_of (fst kv) day_data) as [|x xs] eqn:E; [exact Hacc|].
    assert (Hx : In x day_data).
    { unfold Portfolio.sub_of in E.
      assert (Hin : In x (x :: xs)) by now left.
      rewrite <- E in Hin. now apply filter_In in Hin. }
    rewrite Forall_forall in Hc. specialize (Hc x Hx).
    assert (0 <= Portfolio.shares (snd kv) * Portfolio.close (Portfolio.row x))
      by (apply Qmult_le_0_compat; assumption).
    lra. }
  apply G. lra.
Qed.

Lemma state_after_nonneg :
  forall (starting_capital drop_pct f stop_loss take_profit : Q)
         (lookback : nat) (df : list Portfolio.Row) (k : nat)
         (st : Portfolio.State),
    0 <= starting_capital ->
    0 <= f ->
    Forall (fun r => 0 <= Portfolio.open r /\ 0 <= Portfolio.close r) df ->
    state_after starting_capital drop_pct f stop_loss take_profit lookback df k
    = Ok st ->
    0 <= Portfolio.cash st /\
    Forall (fun kv => 0 <= Portfolio.shares (snd kv)) (Portfolio.positions st) /\
    Forall (fun p => 0 <= snd p) (Portfolio.equity_curve st).
Proof.
  intros sc dp f sl tp w df k st Hsc Hf Hdf H.
  set (xdf := Portfolio.add_columns w df) in *.
  assert (Hx : Forall (fun x => 0 <= Portfolio.open (Portfolio.row x) /\
                                0 <= Portfolio.close (Portfolio.row x)) xdf).
  { apply Forall_forall. intros x Hin. rewrite Forall_forall in Hdf. apply Hdf.
    rewrite <- (add_columns_from_rows w df df 0).
    exact (in_map Portfolio.row _ _ Hin). }
  assert (Hinvest : 0 <= Portfolio.invest_amt sc f)
    by (apply Qmult_le_0_compat; assumption).
  pose (I := fun (_ : list Timestamp) (s : Portfolio.State) =>
               0 <= Portfolio.cash s /\
               Forall (fun kv => 0 <= Portfolio.shares (snd kv))
                      (Portfolio.positions s) /\
               Forall (fun p => 0 <= snd p) (Portfolio.equity_curve s)).
  apply (run_days_preserves sc dp f sl tp xdf I) with
    (dates := firstn k (Portfolio.dates_of df)) (st := Portfolio.init_state sc);
    try exact H.
  - (* exits *)
    intros d later dd s s' sym Hdd (Hc & Hs & He) E.
    unfold Portfolio.exit_one in E.
    destruct (dict_get sym (Portfolio.positions s)) as [pos|] eqn:Eg; [|discriminate].
    destruct (Portfolio.sub_of sym dd) as [|x xs] eqn:Es.
    { inversion E; subst. repeat split; assumption. }
    destruct (py_div _ _) as [q|e]; cbn [bind] in E; [|discriminate].
    destruct (Portfolio.exit_decision _ _ _); inversion E; subst; clear E;
      [|repeat split; assumption].
    unfold I. cbn [Portfolio.cash Portfolio.positions Portfolio.equity_curve].
    repeat split; [| |exact He].
    + assert (Hp : 0 <= Portfolio.shares pos).
      { rewrite Forall_forall in Hs. exact (Hs _ (dict_get_In _ _ _ Eg)). }
      assert (Hxin : In x dd).
      { assert (Hin : In x (x :: xs)) by now left.
        rewrite <- Es in Hin. now apply filter_In in Hin. }
      rewrite Forall_forall in Hdd, Hx.
      destruct (Hx x (proj1 (Hdd x Hxin))) as [_ Hcl].
      assert (0 <= Portfolio.close (Portfolio.row x) * Portfolio.shares pos)
        by (apply Qmult_le_0_compat; assumption).
      lra.
    + rewrite Forall_forall in *. intros kv Hkv. apply Hs.
      now apply dict_del_In in Hkv.
  - (* next day *)
    intros d later s _ Hi. exact Hi.
  - (* entries *)
    intros d later s s' x _ Hin _ (Hc & Hs & He) E.
    unfold Portfolio.entry_one in E.
    destruct (Qltb (Portfolio.cash s) (Portfolio.invest_amt sc f)) eqn:Eq.
    { inversion E; subst. repeat split; assumption. }
    unfold py_div in E.
    destruct (Qeqb (Portfolio.open (Portfolio.row x)) 0); cbn [bind] in E;
      [discriminate|].
    inversion E; subst; clear E.
    unfold I. cbn [Portfolio.cash Portfolio.positions Portfolio.equity_curve].
    apply Qltb_ge in Eq.
    repeat split; [lra| |exact He].
    rewrite Forall_forall in *. intros kv Hkv.
    apply dict_set_In in Hkv. destruct Hkv as [->|Hkv]; [|now apply Hs].
    cbn [snd Portfolio.shares]. destruct (Hx x Hin) as [Ho _].
    apply Qmult_le_0_compat; [exact Hinvest|].
    now apply Qinv_le_0_compat.
  - (* equity *)
    intros d later dd s Hdd (Hc & Hs & He). unfold I, Portfolio.equity_phase.
    cbn [Portfolio.cash Portfolio.positions Portfolio.equity_curve].
    repeat split; try assumption.
    apply Forall_app. split; [exact He|]. constructor; [|constructor].
    cbn [snd].
    assert (0 <= Portfolio.mkt_val dd (Portfolio.positions s)).
    { apply mkt_val_nonneg; [|exact Hs].
      rewrite Forall_forall in *. intros x Hxin.
      exact (proj2 (Hx x (proj1 (Hdd x Hxin)))). }
    lra.
  - apply sorted_firstn, sorted_unique_sorted.
  - unfold I. simpl. repeat split; auto.
Qed.

(** X2.  With a non-negative starting capital and allocation fraction
    and no negative price in the panel, the portfolio run never spends
    cash it does not have: after any number of days the cash, the shares
    of every open position and every equity point are non-negative. *)
Theorem cash_and_equity_never_negative :
  forall (starting_capital drop_pct f stop_loss take_profit : Q)
         (lookback : nat) (df : list Portfolio.Row) (k : nat)
         (st : Portfolio.State),
    0 <= starting_capital ->
    0 <= f ->
    Forall (fun r => 0 <= Portfolio.open r /\ 0 <= Portfolio.close r) df ->
    state_after starting_capital drop_pct f stop_loss take_profit lookback df k
    = Ok st ->
    0 <= Portfolio.cash st /\
    Forall (fun kv => 0 <= Portfolio.shares (snd kv)) (Portfolio.positions st) /\
    Forall (fun p => 0 <= snd p) (Portfolio.equity_curve st).
Proof.
  exact state_after_nonneg.
Qed.

Lemma cash_and_equity_never_negative_witness :
  0 <= Portfolio.cash demo_state /\
  Forall (fun kv => 0 <= Portfolio.shares (snd kv)) (Portfolio.positions demo_state) /\
  Forall (fun p => 0 <= snd p) (Portfolio.equity_curve demo_state).
Proof.
  apply (cash_and_equity_never_negative 1000 (5 # 100) (1 # 2) (5 # 100) (5 # 100)
           2 demo_panel 3 demo_state).
  - discriminate.
  - discriminate.
  - repeat constructor; discriminate.
  - reflexivity.
Defined.

(* ------------------------------------------------------------------ *)
(** ** The portfolio ledger *)

Lemma py_div_ok (a b q : Q) : py_div a b = Ok q -> q = a / b /\ ~ b == 0.
Proof.
  unfold py_div. destruct (Qeqb b 0) eqn:E; [discriminate|].
  intros H. inversion H. split; [reflexivity|]. now apply Qeqb_neq.
Qed.

Lemma exit_decision_cases (stop_loss take_profit ret : Q)
      (why : Portfolio.exit_reason) :
  Portfolio.exit_decision stop_loss take_profit ret = Some why ->
  (why = Portfolio.take_profit_reason /\ take_profit <= ret) \/
  (why = Portfolio.stop_loss_reason /\ ret <= - stop_loss /\ ret < take_profit).
Proof.
  unfold Portfolio.exit_decision.
  destruct (Qle_bool take_profit ret) eqn:E1.
  - intros H. inversion H. left. split; [reflexivity|]. now apply Qle_bool_iff.
  - destruct (Qle_bool ret (- stop_loss)) eqn:E2; [|discriminate].
    intros H. inversion H. right. split; [reflexivity|].
    split; [now apply Qle_bool_iff|].
    apply Qnot_le_lt. intros Hle. apply Qle_bool_iff in Hle. congruence.
Qed.

(** A step that leaves the ledger alone keeps every property of it. *)
Lemma exit_one_ledger (stop_loss take_profit : Q) (d : Timestamp)
      (day_data : list Portfolio.XRow) (st st' : Portfolio.State) (sym : string) :
  Portfolio.exit_one stop_loss take_profit d day_data st sym = Ok st' ->
  Portfolio.trades st' = Portfolio.trades st \/
  exists pos x q why,
    dict_get sym (Portfolio.positions st) = Some pos /\
    In x day_data /\
    py_div (Portfolio.close (Portfolio.row x)) (Portfolio.entry_price pos) = Ok q /\
    Portfolio.exit_decision stop_loss take_profit (q - 1) = Some why /\
    Portfolio.trades st'
    = Portfolio.trades st ++
        [Portfolio.trade_row sym pos d (Portfolio.close (Portfolio.row x)) (q - 1) why].
Proof.
  unfold Portfolio.exit_one. intros H.
  destruct (dict_get sym (Portfolio.positions st)) as [pos|] eqn:Eg; [|discriminate].
  destruct (Portfolio.sub_of sym day_data) as [|x xs] eqn:Es; [inversion H; auto|].
  destruct (py_div _ _) as [q|e] eqn:Ed; cbn [bind] in H; [|discriminate].
  destruct (Portfolio.exit_decision _ _ _) as [why|] eqn:Ee;
    inversion H; subst; clear H; [|auto].
  right. exists pos, x, q, why. repeat split; auto.
  assert (Hin : In x (x :: xs)) by now left.
  rewrite <- Es in Hin. now apply filter_In in Hin.
Qed.

Lemma entry_one_ledger (starting_capital f : Q) (d : Timestamp)
      (st st' : Portfolio.State) (x : Portfolio.XRow) :
  Portfolio.entry_one starting_capital f d st x = Ok st' ->
  Portfolio.trades st' = Portfolio.trades st.
Proof.
  unfold Portfolio.entry_one. destruct (Qltb _ _); [now inversion 1|].
  destruct (py_div _ _); cbn [bind]; [|discriminate]. now inversion 1.
Qed.

(** X3.  Every row of the portfolio ledger carries the return
    exit_price / entry_price - 1, and its exit reason agrees with it: a
    take_profit row has a return of at least take_profit, a stop_loss
    row a return of at most -stop_loss and below take_profit. *)
Theorem ledger_return_matches_reason :
  forall (starting_capital drop_pct f stop_loss take_profit : Q)
         (df : list Portfolio.Row) (lookback_days : Z) (st : Portfolio.State),
    Portfolio.run_sector_strategy starting_capital drop_pct f stop_loss
                                  take_profit df lookback_days = Ok st ->
    Forall (return_matches_reason stop_loss take_profit) (Portfolio.trades st).
Proof.
  intros sc dp f sl tp df L st H. apply run_as_state_after in H.
  pose (I := fun (_ : list Timestamp) (s : Portfolio.State) =>
               Forall (return_matches_reason sl tp) (Portfolio.trades s)).
  apply (run_days_preserves sc dp f sl tp (Portfolio.add_columns (Z.to_nat L) df) I)
    with (dates := firstn (length (Portfolio.dates_of df)) (Portfolio.dates_of df))
         (st := Portfolio.init_state sc); try exact H.
  - intros d later dd s s' sym _ Hi E. unfold I in *.
    destruct (exit_one_ledger _ _ _ _ _ _ _ E)
      as [->|(pos & x & q & why & _ & _ & Hq & Hwhy & ->)]; [exact Hi|].
    apply Forall_app. split; [exact Hi|]. constructor; [|constructor].
    apply py_div_ok in Hq. destruct Hq as [-> _].
    exists (Portfolio.entry_price pos), (Portfolio.close (Portfolio.row x)),
      (Portfolio.close (Portfolio.row x) / Portfolio.entry_price pos - 1).
    repeat split.
    destruct (exit_decision_cases _ _ _ _ Hwhy) as [[-> Hr]|[-> Hr]];
      [left|right]; split; auto.
  - intros d later s _ Hi. exact Hi.
  - intros d later s s' x _ _ _ Hi E. unfold I in *.
    now rewrite (entry_one_ledger _ _ _ _ _ _ E).
  - intros d later dd s _ Hi. exact Hi.
  - apply sorted_firstn, sorted_unique_sorted.
  - constructor.
Qed.

Lemma ledger_return_matches_reason_witness :
  Forall (return_matches_reason (5 # 100) (5 # 100)) (Portfolio.trades demo_state).
Proof.
  apply (ledger_return_matches_reason 1000 (5 # 100) (1 # 2) (5 # 100) (5 # 100)
           demo_panel 2%Z demo_state).
  reflexivity.
Defined.

Lemma sorted_snoc {A} (R : A -> A -> Prop) (l : list A) (x : A) :
  StronglySorted R l -> Forall (fun y => R y x) l -> StronglySorted R (l ++ [x]).
Proof.
  induction 1 as [|a l Hs IH Hall]; intros Hx; simpl.
  - repeat constructor.
  - inversion Hx as [|? ? Hax Hlx]; subst. constructor; [now apply IH|].
    apply Forall_app. split; [exact Hall|]. now constructor.
Qed.

(** X4.  The portfolio ledger is in chronological order of closing: the
    exit dates of its rows never decrease along the ledger. *)
Theorem ledger_in_closing_order :
  forall (starting_capital drop_pct f stop_loss take_profit : Q)
         (df : list Portfolio.Row) (lookback_days : Z) (st : Portfolio.State),
    Portfolio.run_sector_strategy starting_capital drop_pct f stop_loss
                                  take_profit df lookback_days = Ok st ->
    StronglySorted (fun a b => (row_exit_date a <= row_exit_date b)%Z)
                   (Portfolio.trades st).
Proof.
  intros sc dp f sl tp df L st H. apply run_as_state_after in H.
  pose (I := fun (later : list Timestamp) (s : Portfolio.State) =>
               StronglySorted (fun a b => (row_exit_date a <= row_exit_date b)%Z)
                              (Portfolio.trades s) /\
               Forall (fun r => match later with
                                | [] => True
                                | d :: _ => (row_exit_date r <= d)%Z
                                end) (Portfolio.trades s)).
  apply (run_days_preserves sc dp f sl tp (Portfolio.add_columns (Z.to_nat L) df) I)
    with (dates := firstn (length (Portfolio.dates_of df)) (Portfolio.dates_of df))
         (st := Portfolio.init_state sc); try exact H.
  - intros d later dd s s' sym _ [Hs Hb] E. unfold I.
    destruct (exit_one_ledger _ _ _ _ _ _ _ E)
      as [->|(pos & x & q & why & _ & _ & _ & _ & ->)]; [now split|].
    split.
    + apply sorted_snoc; [exact Hs|]. exact Hb.
    + apply Forall_app. split; [exact Hb|]. constructor; [|constructor].
      change (d <= d)%Z. lia.
  - intros d later s Hsorted [Hs Hb]. split; [exact Hs|].
    destruct later as [|d' later]; [now apply Forall_forall|].
    inversion Hsorted as [|? ? _ Hall]; subst. inversion Hall; subst.
    eapply Forall_impl; [|exact Hb]. simpl. intros r Hr. lia.
  - intros d later s s' x _ _ _ Hi E. unfold I in *.
    now rewrite (entry_one_ledger _ _ _ _ _ _ E).
  - intros d later dd s _ Hi. exact Hi.
  - apply sorted_firstn, sorted_unique_sorted.
  - split; constructor.
Qed.

Lemma ledger_in_closing_order_witness :
  StronglySorted (fun a b => (row_exit_date a <= row_exit_date b)%Z)
                 (Portfolio.trades demo_state).
Proof.
  apply (ledger_in_closing_order 1000 (5 # 100) (1 # 2) (5 # 100) (5 # 100)
           demo_panel 2%Z demo_state).
  reflexivity.
Defined.

(* ------------------------------------------------------------------ *)
(** ** Slot size and degenerate allocation fractions *)

(** X5.  Every open position of the portfolio run was bought for
    exactly [starting_capital * allocation_per_trade], whatever the
    equity at the time: shares times entry price is that amount, and the
    entry price is not zero. *)
Theorem position_cost_is_fixed_slot :
  forall (starting_capital drop_pct f stop_loss take_profit : Q)
         (lookback : nat) (df : list Portfolio.Row) (k : nat)
         (st : Portfolio.State),
    state_after starting_capital drop_pct f stop_loss take_profit lookback df k
    = Ok st ->
    Forall (fun kv =>
              ~ Portfolio.entry_price (snd kv) == 0 /\
              Portfolio.shares (snd kv) * Portfolio.entry_price (snd kv)
              == starting_capital * f)
           (Portfolio.positions st).
Proof.
  intros sc dp f sl tp w df k st H.
  pose (I := fun (_ : list Timestamp) (s : Portfolio.State) =>
               Forall (fun kv =>
                         ~ Portfolio.entry_price (snd kv) == 0 /\
                         Portfolio.shares (snd kv) * Portfolio.entry_price (snd kv)
                         == sc * f)
                      (Portfolio.positions s)).
  apply (run_days_preserves sc dp f sl tp (Portfolio.add_columns w df) I)
    with (dates := firstn k (Portfolio.dates_of df))
         (st := Portfolio.init_state sc); try exact H.
  - intros d later dd s s' sym _ Hi E. unfold I in *.
    unfold Portfolio.exit_one in E.
    destruct (dict_get sym (Portfolio.positions s)); [|discriminate].
    destruct (Portfolio.sub_of sym dd); [now inversion E; subst|].
    destruct (py_div _ _); cbn [bind] in E; [|discriminate].
    destruct (Portfolio.exit_decision _ _ _); inversion E; subst; [|exact Hi].
    cbn [Portfolio.positions]. rewrite Forall_forall in *.
    intros kv Hkv. apply Hi. now apply dict_del_In in Hkv.
  - intros d later s _ Hi. exact Hi.
  - intros d later s s' x _ _ _ Hi E. unfold I in *.
    unfold Portfolio.entry_one in E.
    destruct (Qltb _ _); [now inversion E; subst|].
    destruct (py_div _ _) as [sh|e] eqn:Ed; cbn [bind] in E; [|discriminate].
    inversion E; subst; clear E. cbn [Portfolio.positions].
    apply py_div_ok in Ed. destruct Ed as [-> Hne].
    rewrite Forall_forall in *. intros kv Hkv.
    apply dict_set_In in Hkv. destruct Hkv as [->|Hkv]; [|now apply Hi].
    cbn [snd Portfolio.shares Portfolio.entry_price]. split; [exact Hne|].
    unfold Portfolio.invest_amt. field. exact Hne.
  - intros d later dd s _ Hi. exact Hi.
  - apply sorted_firstn, sorted_unique_sorted.
  - constructor.
Qed.

Lemma position_cost_is_fixed_slot_witness :
  Forall (fun kv =>
            ~ Portfolio.entry_price (snd kv) == 0 /\
            Portfolio.shares (snd kv) * Portfolio.entry_price (snd kv)
            == 1000 * (1 # 2))
         (Portfolio.positions demo_state).
Proof.
  apply (position_cost_is_fixed_slot 1000 (5 # 100) (1 # 2) (5 # 100) (5 # 100)
           2 demo_panel 3 demo_state).
  reflexivity.
Defined.

Lemma floor_unit_interval (x : Q) : 0 <= x -> x < 1 -> Qfloor x = 0%Z.
Proof.
  intros H0 H1. pose proof (Qfloor_le x) as Hl. pose proof (Qlt_floor x) as Hu.
  assert (A : (Qfloor x < 1)%Z).
  { rewrite Zlt_Qlt. eapply Qle_lt_trans; eauto. }
  assert (B : (0 < Qfloor x + 1)%Z).
  { rewrite Zlt_Qlt. eapply Qle_lt_trans; eauto. }
  lia.
Qed.

Section OversizedAllocation.

Variables starting_capital drop_pct f stop_loss take_profit : Q.
Hypothesis f_above_one : 1 < f.

Lemma day_step_untouched (xdf : list Portfolio.XRow) (d : Timestamp)
      (st : Portfolio.State) :
  untouched starting_capital st ->
  exists st',
    Portfolio.day_step starting_capital drop_pct f stop_loss take_profit xdf st d
    = Ok st' /\ untouched starting_capital st'.
Proof.
  intros (Hp & Ht & Hc & He). unfold Portfolio.day_step.
  set (dd := filter (fun x => (Portfolio.date (Portfolio.row x) =? d)%Z) xdf).
  unfold Portfolio.exit_phase. rewrite Hp. cbn [dict_keys map Portfolio.exit_loop bind].
  assert (E : Portfolio.entry_phase starting_capital drop_pct f d dd st = Ok st).
  { unfold Portfolio.entry_phase. rewrite Hp.
    cbn [length Z.of_nat].
    destruct (Qltb _ 1); [|reflexivity].
    destruct (Portfolio.candidates_of drop_pct [] dd) as [|c cands];
      [reflexivity|].
    unfold py_floordiv.
    assert (Hf0 : Qeqb f 0 = false) by (apply Qeqb_neq; lra).
    rewrite Hf0. cbn [bind].
    assert (Hx : (1 - inject_Z 0 * f) / f == 1 / f) by (field; lra).
    rewrite (Qfloor_comp _ _ Hx).
    rewrite (floor_unit_interval (1 / f)).
    - reflexivity.
    - apply Qle_shift_div_l; lra.
    - apply Qlt_shift_div_r; lra. }
  rewrite E. cbn [bind]. eexists. split; [reflexivity|].
  unfold untouched, Portfolio.equity_phase.
  cbn [Portfolio.positions Portfolio.trades Portfolio.cash Portfolio.equity_curve].
  repeat split; auto.
  apply Forall_app. split; [exact He|]. constructor; [|constructor].
  rewrite Hp, Hc. unfold Portfolio.mkt_val. simpl. lra.
Qed.

Lemma run_days_untouched (xdf : list Portfolio.XRow) (dates : list Timestamp)
      (st : Portfolio.State) :
  untouched starting_capital st ->
  exists st',
    Portfolio.run_days starting_capital drop_pct f stop_loss take_profit xdf dates st
    = Ok st' /\ untouched starting_capital st'.
Proof.
  revert st; induction dates as [|d dates IH]; intros st Hu; simpl.
  - eauto.
  - destruct (day_step_untouched xdf d st Hu) as (st1 & E1 & Hu1).
    rewrite E1. cbn [bind]. now apply IH.
Qed.

(** X6.  With an allocation fraction above 1 the portfolio run returns
    without ever opening a position, whatever the prices: no position,
    an empty ledger, the cash untouched and a flat equity curve. *)
Theorem oversized_allocation_never_trades (df : list Portfolio.Row)
        (lookback_days : Z) :
  df <> [] ->
  (1 <= lookback_days)%Z ->
  exists st,
    Portfolio.run_sector_strategy starting_capital drop_pct f stop_loss take_profit
                                  df lookback_days = Ok st /\
    Portfolio.positions st = [] /\
    Portfolio.trades st = [] /\
    Portfolio.cash st = starting_capital /\
    Forall (fun p => snd p == starting_capital) (Portfolio.equity_curve st).
Proof.
  intros Hdf Hl. unfold Portfolio.run_sector_strategy.
  destruct df as [|r df]; [congruence|].
  apply Z.ltb_ge in Hl. rewrite Hl.
  apply run_days_untouched. repeat split. constructor.
Qed.

End OversizedAllocation.

Lemma oversized_allocation_never_trades_witness :
  exists st,
    Portfolio.run_sector_strategy 1000 (5 # 100) (3 # 2) (5 # 100) (5 # 100)
                                  demo_panel 2 = Ok st /\
    Portfolio.positions st = [] /\
    Portfolio.trades st = [] /\
    Portfolio.cash st = 1000 /\
    Forall (fun p => snd p == 1000) (Portfolio.equity_curve st).
Proof.
  apply (oversized_allocation_never_trades 1000 (5 # 100) (3 # 2) (5 # 100)
           (5 # 100)).
  - reflexivity.
  - discriminate.
  - discriminate.
Defined.

(** X7.  With an allocation fraction of zero the entry phase raises
    ZeroDivisionError as soon as the day has an eligible candidate, and
    leaves the state alone on a day without one. *)
Theorem zero_allocation_raises :
  forall (starting_capital drop_pct f : Q) (d : Timestamp)
         (day_data : list Portfolio.XRow) (st : Portfolio.State),
    f == 0 ->
    Portfolio.entry_phase starting_capital drop_pct f d day_data st
    = match Portfolio.candidates_of drop_pct (Portfolio.positions st) day_data with
      | [] => Ok st
      | _ :: _ => Err ZeroDivisionError
      end.
Proof.
  intros sc dp f d dd st Hf. unfold Portfolio.entry_phase.
  assert (Hg : Qltb (inject_Z (Z.of_nat (length (Portfolio.positions st))) * f) 1
               = true).
  { apply Qltb_lt. rewrite Hf. lra. }
  rewrite Hg.
  destruct (Portfolio.candidates_of dp (Portfolio.positions st) dd); [reflexivity|].
  unfold py_floordiv. apply Qeqb_eq in Hf. now rewrite Hf.
Qed.

Lemma zero_allocation_raises_witness :
  Portfolio.entry_phase 1000 (5 # 100) 0 (day 2) (day_data_of 2 demo_panel (day 2))
                        (Portfolio.init_state 1000)
  = Err ZeroDivisionError.
Proof.
  apply (zero_allocation_raises 1000 (5 # 100) 0 (day 2)
           (day_data_of 2 demo_panel (day 2)) (Portfolio.init_state 1000)).
  reflexivity.
Defined.

(** X26.  On a non-empty panel without a zero open price, with a
    lookback of at least one day and a non-zero allocation fraction, the
    portfolio run raises nothing: it returns a final state. *)
Theorem portfolio_run_completes :
  forall (starting_capital drop_pct f stop_loss take_profit : Q)
         (df : list Portfolio.Row) (lookback_days : Z),
    ~ f == 0 ->
    df <> [] ->
    (1 <= lookback_days)%Z ->
    Forall (fun r => ~ Portfolio.open r == 0) df ->
    exists st,
      Portfolio.run_sector_strategy starting_capital drop_pct f stop_loss take_profit
                                    df lookback_days = Ok st.
Proof.
  intros sc dp f sl tp df lb Hf Hdf Hlb Hopen.
  now apply run_sector_strategy_returns.
Qed.

Lemma portfolio_run_completes_witness :
  exists st,
    Portfolio.run_sector_strategy 1000 (5 # 100) (1 # 2) (5 # 100) (5 # 100)
                                  demo_panel 2 = Ok st.
Proof.
  apply (portfolio_run_completes 1000 (5 # 100) (1 # 2) (5 # 100) (5 # 100)).
  - discriminate.
  - discriminate.
  - discriminate.
  - repeat constructor; discriminate.
Defined.

(* ------------------------------------------------------------------ *)
(** ** Cash conservation in the portfolio run *)

Lemma dict_del_length_present {V} (k : string) (v : V) (d : dict V) :
  dict_get k d = Some v -> S (length (dict_del k d)) = length d.
Proof.
  induction d as [|[k' v'] d IH]; simpl; [discriminate|].
  destruct (String.eqb k k'); [reflexivity|].
  intros H. simpl. now rewrite IH.
Qed.

Lemma realized_return_sum_snoc (l : list (dict value)) (r : dict value) :
  realized_return_sum (l ++ [r]) == realized_return_sum l + row_return r.
Proof.
  unfold realized_return_sum. induction l as [|a l IH]; simpl; [lra|].
  rewrite IH. lra.
Qed.

Lemma inject_S (n : nat) :
  inject_Z (Z.of_nat (S n)) == inject_Z (Z.of_nat n) + 1.
Proof.
  rewrite Nat2Z.inj_succ. unfold Z.succ. now rewrite inject_Z_plus.
Qed.

Section CashConservation.

Variables starting_capital drop_pct f stop_loss take_profit : Q.

Lemma exit_one_balanced (d : Timestamp) (day_data : list Portfolio.XRow)
      (st st' : Portfolio.State) (sym : string) :
  balanced starting_capital f st ->
  Portfolio.exit_one stop_loss take_profit d day_data st sym = Ok st' ->
  balanced starting_capital f st'.
Proof.
  intros [Hs Hc] E. unfold Portfolio.exit_one in E.
  destruct (dict_get sym (Portfolio.positions st)) as [pos|] eqn:Eg; [|discriminate].
  destruct (Portfolio.sub_of sym day_data) as [|x xs];
    [inversion E; subst; now split|].
  destruct (py_div _ _) as [q|e] eqn:Ed; cbn [bind] in E; [|discriminate].
  destruct (Portfolio.exit_decision _ _ _) as [why|];
    inversion E; subst; clear E; [|now split].
  apply py_div_ok in Ed. destruct Ed as [-> Hne].
  pose proof (dict_get_In _ _ _ Eg) as Hin.
  unfold slots_sized in Hs. rewrite Forall_forall in Hs.
  destruct (Hs _ Hin) as [_ Hsz]. cbn [snd] in Hsz.
  split.
  - unfold slots_sized. cbn [Portfolio.positions]. apply Forall_forall.
    intros kv Hkv. apply Hs. now apply dict_del_In in Hkv.
  - unfold cash_balanced, open_count in *.
    cbn [Portfolio.cash Portfolio.positions Portfolio.trades].
    rewrite realized_return_sum_snoc.
    change (row_return (Portfolio.trade_row sym pos d
                          (Portfolio.close (Portfolio.row x))
                          (Portfolio.close (Portfolio.row x)
                           / Portfolio.entry_price pos - 1) why))
      with (Portfolio.close (Portfolio.row x) / Portfolio.entry_price pos - 1).
    rewrite <- (dict_del_length_present _ _ _ Eg) in Hc.
    rewrite inject_S in Hc. rewrite Hc, <- Hsz. field. exact Hne.
Qed.

Lemma exit_loop_balanced (d : Timestamp) (day_data : list Portfolio.XRow)
      (keys : list string) (st st' : Portfolio.State) :
  balanced starting_capital f st ->
  Portfolio.exit_loop stop_loss take_profit d day_data keys st = Ok st' ->
  balanced starting_capital f st'.
Proof.
  revert st; induction keys as [|k keys IH]; intros st Hb H; simpl in H.
  - now inversion H; subst.
  - destruct (Portfolio.exit_one stop_loss take_profit d day_data st k)
      as [st1|e] eqn:E1; cbn [bind] in H; [|discriminate].
    eapply IH; [|exact H]. eapply exit_one_balanced; eauto.
Qed.

Lemma entry_loop_balanced (d : Timestamp) (rows : list Portfolio.XRow)
      (st st' : Portfolio.State) :
  Forall (fun x => dict_get (xsymbol x) (Portfolio.positions st) = None) rows ->
  NoDup (map xsymbol rows) ->
  balanced starting_capital f st ->
  Portfolio.entry_loop starting_capital f d rows st = Ok st' ->
  balanced starting_capital f st'.
Proof.
  revert st; induction rows as [|x rows IH]; intros st Hfresh Hnd Hb H.
  - simpl in H. now inversion H; subst.
  - inversion Hfresh as [|? ? Hx Hrest]; subst.
    inversion Hnd as [|? ? Hnotin Hnd']; subst.
    simpl in H. unfold Portfolio.entry_one in H.
    destruct (Qltb (Portfolio.cash st) (Portfolio.invest_amt starting_capital f)).
    + cbn [bind] in H. now apply (IH st).
    + destruct (py_div _ _) as [sh|e] eqn:Ed; cbn [bind] in H; [|discriminate].
      apply py_div_ok in Ed. destruct Ed as [-> Hne].
      apply IH in H; [exact H| |exact Hnd'|].
      * cbn [Portfolio.positions]. unfold xsymbol in Hx.
        rewrite (dict_set_fresh _ _ _ Hx).
        rewrite Forall_forall in *. intros y Hy.
        rewrite dict_get_app_fresh; [now apply Hrest|].
        intros E. apply Hnotin.
        change (xsymbol x) with (Portfolio.symbol (Portfolio.row x)).
        rewrite <- E.
        exact (in_map xsymbol _ _ Hy).
      * destruct Hb as [Hs Hc]. unfold xsymbol in Hx. split.
        -- unfold slots_sized in *. cbn [Portfolio.positions].
           rewrite (dict_set_fresh _ _ _ Hx). apply Forall_app.
           split; [exact Hs|]. constructor; [|constructor].
           cbn [snd Portfolio.shares Portfolio.entry_price].
           split; [exact Hne|]. unfold Portfolio.invest_amt. field. exact Hne.
        -- unfold cash_balanced, open_count in *.
           cbn [Portfolio.cash Portfolio.positions Portfolio.trades].
           rewrite (dict_set_fresh _ _ _ Hx), length_app.
           cbn [length]. rewrite Nat.add_1_r, inject_S, Hc.
           unfold Portfolio.invest_amt. ring.
Qed.

Lemma day_step_balanced (lookback : nat) (df : list Portfolio.Row)
      (d : Timestamp) (st st' : Portfolio.State) :
  panel_sorted df ->
  balanced starting_capital f st ->
  Portfolio.day_step starting_capital drop_pct f stop_loss take_profit
                     (Portfolio.add_columns lookback df) st d = Ok st' ->
  balanced starting_capital f st'.
Proof.
  intros Hsorted Hb H. unfold Portfolio.day_step in H.
  fold (day_data_of lookback df d) in H.
  destruct (Portfolio.exit_phase _ _ _ _ _) as [st1|e] eqn:E1;
    cbn [bind] in H; [|discriminate].
  destruct (Portfolio.entry_phase _ _ _ _ _ _) as [st2|e] eqn:E2;
    cbn [bind] in H; [|discriminate].
  inversion H; subst; clear H.
  assert (H1 : balanced starting_capital f st1) by (eapply exit_loop_balanced; eauto).
  assert (H2 : balanced starting_capital f st2).
  { unfold Portfolio.entry_phase in E2.
    destruct (Qltb _ 1); [|now inversion E2; subst].
    destruct (Portfolio.candidates_of drop_pct (Portfolio.positions st1)
                                      (day_data_of lookback df d))
      as [|c cands] eqn:Ec; [now inversion E2; subst|].
    destruct (py_floordiv _ f) as [max_new|e]; cbn [bind] in E2; [|discriminate].
    assert (Hcs : StronglySorted (fun a b => str_lt (xsymbol a) (xsymbol b))
                                 (c :: cands)).
    { rewrite <- Ec. apply sorted_filter. now apply day_data_sorted. }
    eapply entry_loop_balanced; [| |exact H1|exact E2].
    - apply Forall_forall. intros x Hx. apply head_incl in Hx.
      rewrite <- Ec in Hx. now apply candidates_facts in Hx.
    - apply (sorted_map_nodup xsymbol). unfold head.
      destruct (0 <=? max_new)%Z; now apply sorted_firstn. }
  exact H2.
Qed.

Lemma run_days_balanced (lookback : nat) (df : list Portfolio.Row)
      (dates : list Timestamp) (st st' : Portfolio.State) :
  panel_sorted df ->
  balanced starting_capital f st ->
  Portfolio.run_days starting_capital drop_pct f stop_loss take_profit
                     (Portfolio.add_columns lookback df) dates st = Ok st' ->
  balanced starting_capital f st'.
Proof.
  intros Hsorted. revert st; induction dates as [|d dates IH]; intros st Hb H;
    simpl in H.
  - now inversion H; subst.
  - destruct (Portfolio.day_step _ _ _ _ _ _ _ _) as [st1|e] eqn:E1;
      cbn [bind] in H; [|discriminate].
    eapply IH; [|exact H]. eapply day_step_balanced; eauto.
Qed.

(** X8.  Cash conservation.  On a panel sorted by (symbol, date), after
    any number of days the cash of the portfolio run is the starting
    capital, less one slot [starting_capital * f] per open position,
    plus one slot times the sum of the returns in the ledger. *)
Theorem cash_is_conserved (lookback : nat) (df : list Portfolio.Row) (k : nat)
        (st : Portfolio.State) :
  panel_sorted df ->
  state_after starting_capital drop_pct f stop_loss take_profit lookback df k
  = Ok st ->
  Portfolio.cash st
  == starting_capital
     - starting_capital * f * open_count st
     + starting_capital * f * realized_return_sum (Portfolio.trades st).
Proof.
  intros Hsorted H.
  apply (run_days_balanced lookback df (firstn k (Portfolio.dates_of df))
           (Portfolio.init_state starting_capital) st Hsorted); [|exact H].
  split; [constructor|].
  unfold cash_balanced, open_count. simpl. ring.
Qed.

End CashConservation.

Lemma demo_panel_sorted : panel_sorted demo_panel.
Proof.
  unfold panel_sorted, demo_panel.
  repeat (apply SSorted_cons || apply SSorted_nil
          || apply Forall_cons || apply Forall_nil);
    solve [left; reflexivity | right; split; reflexivity].
Defined.

Lemma cash_is_conserved_witness :
  Portfolio.cash demo_state
  == 1000 - 1000 * (1 # 2) * open_count demo_state
     + 1000 * (1 # 2) * realized_return_sum (Portfolio.trades demo_state).
Proof.
  apply (cash_is_conserved 1000 (5 # 100) (1 # 2) (5 # 100) (5 # 100)
           2 demo_panel 3 demo_state).
  - exact demo_panel_sorted.
  - reflexivity.
Defined.

(* ------------------------------------------------------------------ *)
(** ** Invariants of the single-instrument loop, in general *)

(** The three things one iteration can do. *)
Lemma branch_cases (sym act : string) (i : nat) (x : Single.XRow)
      (st st' : Single.State) :
  Single.branch sym act i x st = Ok st' ->
  (Single.position st = 0%Z /\ Single.entry_signal x = true /\
   st' = Single.mkState (side_of_action act) (Single.positions st)
           (Single.ledger st) (Some i) (Some (Single.close (Single.row x)))
           (Some (Single.date (Single.row x))) (side_of_action act))
  \/
  (Single.position st <> 0%Z /\ Single.exit_signal x = true /\
   exists p e,
     Single.entry_price st = Some p /\ Single.entry_date st = Some e /\
     st' = Single.mkState 0 (Single.positions st)
             (Single.ledger st ++
                [Single.ledger_row sym (Single.side st) e p
                   (Single.date (Single.row x)) (Single.close (Single.row x))
                   (fmul_sign (fsub (np_div (Single.close (Single.row x)) p) 1)
                              (Single.side st))
                   (timedelta_days (Single.date (Single.row x)) e)
                   (Single.reason_of x)])
             None None None 0)
  \/
  (st' = st /\
   ((Single.position st = 0%Z /\ Single.entry_signal x = false) \/
    (Single.position st <> 0%Z /\ Single.exit_signal x = false))).
Proof.
  unfold Single.branch, side_of_action.
  destruct (Single.position st =? 0)%Z eqn:E0.
  - apply Z.eqb_eq in E0. destruct (Single.entry_signal x); simpl; intros H.
    + left. inversion H; subst. auto.
    + right. right. inversion H; subst. auto.
  - apply Z.eqb_neq in E0. simpl. destruct (Single.exit_signal x).
    + destruct (Single.entry_price st) as [p|]; [|discriminate].
      destruct (Single.entry_date st) as [e|]; [|discriminate].
      intros H. right. left. inversion H; subst. repeat split; auto.
      exists p, e. auto.
    + intros H. right. right. inversion H; subst. auto.
Qed.

Section LoopInvariant.

Variables sym act : string.

(** A property of the rows, and one of the state indexed by the rows
    still to come. *)
Variable P : Single.XRow -> Prop.
Variable I : list Single.XRow -> Single.State -> Prop.

Hypothesis I_step :
  forall i x rest st st',
    P x -> I (x :: rest) st ->
    Single.branch sym act i x st = Ok st' ->
    I rest (Single.push_position st').

Lemma loop_preserves (rows : list Single.XRow) (i : nat) (st st' : Single.State) :
  Forall P rows ->
  I rows st ->
  Single.loop sym act i rows st = Ok st' ->
  I [] st'.
Proof.
  intros Hrows. revert i st.
  induction Hrows as [|x rows Hx _ IH]; intros i st Hi H; simpl in H.
  - now inversion H; subst.
  - unfold Single.step in H.
    destruct (Single.branch sym act i x st) as [st1|e] eqn:E1;
      cbn [bind] in H; [|discriminate].
    eapply IH; [|exact H]. eapply I_step; eauto.
Qed.

End LoopInvariant.

(** [Backtester.run] returns whenever a symbol is named and the symbol
    has rows. *)
Lemma single_run_returns (s : Single.Strategy) (df : list Single.Row) :
  Single.rule_symbol (Single.entry s) <> EmptyString ->
  df <> [] ->
  exists st,
    Single.run s df = Ok st /\
    Single.loop (Single.upper (Single.rule_symbol (Single.entry s)))
                (Single.action (Single.entry s)) 0
                (Single.add_signals s df) Single.init_state = Ok st.
Proof.
  intros Hsym Hdf. unfold Single.run.
  destruct (String.eqb_spec (Single.upper (Single.rule_symbol (Single.entry s)))
                            EmptyString) as [E|_];
    [now apply upper_nonempty in E|].
  destruct df as [|r df]; [congruence|].
  destruct (loop_open_has_entry
              (Single.upper (Single.rule_symbol (Single.entry s)))
              (Single.action (Single.entry s))
              (Single.add_signals s (r :: df)) 0 Single.init_state
              init_open_has_entry) as (st & E & _).
  exists st. split; exact E.
Qed.

Lemma add_signals_dates (s : Single.Strategy) (df : list Single.Row) :
  map (fun x => Single.date (Single.row x)) (Single.add_signals s df)
  = map Single.date df.
Proof.
  rewrite <- (map_map Single.row Single.date).
  unfold Single.add_signals. now rewrite add_signals_rows.
Qed.

(* ------------------------------------------------------------------ *)
(** ** The single-instrument ledger *)

(** X9.  On a series in strictly increasing date order the trades of
    the single-instrument ledger follow one another without overlap:
    every trade is closed strictly before any later trade of the ledger
    is opened. *)
Theorem single_ledger_trades_do_not_overlap :
  forall (s : Single.Strategy) (df : list Single.Row),
    Single.rule_symbol (Single.entry s) <> EmptyString ->
    df <> [] ->
    StronglySorted Z.lt (map Single.date df) ->
    exists st,
      Single.run s df = Ok st /\
      StronglySorted (fun a b => (row_exit_date a < row_entry_date b)%Z)
                     (Single.ledger st).
Proof.
  intros s df Hsym Hdf Hsorted.
  destruct (single_run_returns s df Hsym Hdf) as (st & Erun & Eloop).
  exists st. split; [exact Erun|].
  set (sym := Single.upper (Single.rule_symbol (Single.entry s))) in *.
  set (act := Single.action (Single.entry s)) in *.
  pose (I := fun (rest : list Single.XRow) (t : Single.State) =>
    StronglySorted (fun a b => (row_exit_date a < row_entry_date b)%Z)
                   (Single.ledger t) /\
    StronglySorted Z.lt (map (fun y => Single.date (Single.row y)) rest) /\
    Forall (fun r => Forall (fun y => (row_exit_date r < Single.date (Single.row y))%Z)
                            rest) (Single.ledger t) /\
    (Single.position t <> 0%Z ->
     exists e, Single.entry_date t = Some e /\
               Forall (fun r => (row_exit_date r < e)%Z) (Single.ledger t) /\
               Forall (fun y => (e < Single.date (Single.row y))%Z) rest)).
  assert (Hfin : I [] st).
  { apply (loop_preserves sym act (fun _ => True) I) with
      (rows := Single.add_signals s df) (i := 0%nat) (st := Single.init_state);
      [| |split; [|split; [|split]]|exact Eloop].
    - intros i x rest t t' _ (Hl & Hs & HA & HB) E.
      assert (Hs' : StronglySorted Z.lt
                      (map (fun y => Single.date (Single.row y)) rest))
        by (simpl in Hs; now inversion Hs).
      assert (Hx : Forall (fun y => (Single.date (Single.row x)
                                     < Single.date (Single.row y))%Z) rest).
      { simpl in Hs. inversion Hs as [|? ? _ Hall]; subst.
        now rewrite Forall_map in Hall. }
      assert (HA' : Forall (fun r => Forall
                       (fun y => (row_exit_date r < Single.date (Single.row y))%Z)
                       rest) (Single.ledger t)).
      { eapply Forall_impl; [|exact HA]. intros r Hr. now inversion Hr. }
      destruct (branch_cases _ _ _ _ _ _ E)
        as [(Hp & _ & ->)|[(Hp & _ & p & e & Ep & Ee & ->)|(-> & _)]];
        unfold I, Single.push_position; cbn [Single.ledger Single.position
                                              Single.entry_date].
      + repeat split; auto. intros _. eexists. split; [reflexivity|].
        split; [|exact Hx].
        eapply Forall_impl; [|exact HA]. intros r Hr. now inversion Hr.
      + destruct (HB Hp) as (e' & Ee' & Hbefore & Hafter).
        rewrite Ee in Ee'. inversion Ee'; subst e'.
        repeat split; auto.
        * apply sorted_snoc; [exact Hl|]. exact Hbefore.
        * apply Forall_app. split; [exact HA'|]. constructor; [|constructor].
          exact Hx.
        * intros H. now elim H.
      + repeat split; auto. intros Hp. destruct (HB Hp) as (e & Ee & H1 & H2).
        exists e. repeat split; auto. now inversion H2.
    - apply Forall_forall. auto.
    - constructor.
    - now rewrite add_signals_dates.
    - constructor.
    - intros H. now elim H. }
  exact (proj1 Hfin).
Qed.

Lemma single_ledger_trades_do_not_overlap_witness :
  exists st,
    Single.run demo_strategy demo_series = Ok st /\
    StronglySorted (fun a b => (row_exit_date a < row_entry_date b)%Z)
                   (Single.ledger st).
Proof.
  apply (single_ledger_trades_do_not_overlap demo_strategy demo_series).
  - discriminate.
  - discriminate.
  - repeat constructor.
Defined.

(** X10.  The action fixes the side of every trade: with the action
    "buy" every ledger row is long and the position series takes the
    values 0 and 1 only; with any other action every row is short and
    the position series takes the values 0 and -1 only. *)
Theorem single_side_follows_action :
  forall (s : Single.Strategy) (df : list Single.Row),
    Single.rule_symbol (Single.entry s) <> EmptyString ->
    df <> [] ->
    let sd := side_of_action (Single.action (Single.entry s)) in
    exists st,
      Single.run s df = Ok st /\
      Forall (fun r => dict_get "side" r = Some (VStr (side_name sd)))
             (Single.ledger st) /\
      Forall (fun p => p = 0%Z \/ p = sd) (Single.positions st) /\
      length (Single.positions st) = length df.
Proof.
  intros s df Hsym Hdf sd.
  destruct (single_run_returns s df Hsym Hdf) as (st & Erun & Eloop).
  exists st. split; [exact Erun|].
  set (sym := Single.upper (Single.rule_symbol (Single.entry s))) in *.
  set (act := Single.action (Single.entry s)) in *.
  pose (I := fun (rest : list Single.XRow) (t : Single.State) =>
    Forall (fun r => dict_get "side" r = Some (VStr (side_name sd)))
           (Single.ledger t) /\
    Forall (fun p => p = 0%Z \/ p = sd) (Single.positions t) /\
    (length (Single.positions t) + length rest = length df)%nat /\
    (Single.position t = 0%Z \/ Single.position t = sd) /\
    (Single.position t <> 0%Z -> Single.side t = sd)).
  assert (Hfin : I [] st).
  { apply (loop_preserves sym act (fun _ => True) I) with
      (rows := Single.add_signals s df) (i := 0%nat) (st := Single.init_state);
      [| |repeat split|exact Eloop].
    - intros i x rest t t' _ (Hl & Hp & Hn & Hpos & Hside) E.
      simpl in Hn.
      destruct (branch_cases _ _ _ _ _ _ E)
        as [(Hz & _ & ->)|[(Hz & _ & p & e & Ep & Ee & ->)|(-> & _)]];
        unfold I, Single.push_position;
        cbn [Single.ledger Single.position Single.positions Single.side];
        rewrite length_app; cbn [length].
      + split; [|split; [|split; [|split]]].
        * exact Hl.
        * apply Forall_app. split; [exact Hp|]. constructor; [now right|constructor].
        * lia.
        * now right.
        * reflexivity.
      + split; [|split; [|split; [|split]]].
        * apply Forall_app. split; [exact Hl|]. constructor; [|constructor].
          rewrite (Hside Hz). reflexivity.
        * apply Forall_app. split; [exact Hp|]. constructor; [now left|constructor].
        * lia.
        * now left.
        * intros H. now elim H.
      + split; [|split; [|split; [|split]]].
        * exact Hl.
        * apply Forall_app. split; [exact Hp|]. constructor; [exact Hpos|constructor].
        * lia.
        * exact Hpos.
        * exact Hside.
    - apply Forall_forall. auto.
    - constructor.
    - constructor.
    - simpl. unfold Single.add_signals.
      rewrite <- (length_map Single.row), add_signals_rows. reflexivity.
    - now left.
    - intros H. now elim H. }
  destruct Hfin as (H1 & H2 & H3 & _). repeat split; auto.
  simpl in H3. lia.
Qed.

Lemma single_side_follows_action_witness :
  exists st,
    Single.run demo_strategy demo_series = Ok st /\
    Forall (fun r => dict_get "side" r = Some (VStr "long")) (Single.ledger st) /\
    Forall (fun p => p = 0%Z \/ p = 1%Z) (Single.positions st) /\
    length (Single.positions st) = length demo_series.
Proof.
  apply (single_side_follows_action demo_strategy demo_series); discriminate.
Defined.

(* ------------------------------------------------------------------ *)
(** ** Signals of the single-instrument simulator *)

Lemma nth_error_firstn_lt {A} (l : list A) (n k : nat) :
  (k < n)%nat -> nth_error (firstn n l) k = nth_error l k.
Proof.
  revert n k; induction l as [|a l IH]; intros n k H.
  - now rewrite firstn_nil.
  - destruct n; [lia|]. destruct k; [reflexivity|]. simpl. apply IH. lia.
Qed.

Lemma pct_change_at_prefix (p : Z) (xs xs' : list Q) (i : nat) :
  (0 < p)%Z ->
  firstn (S i) xs = firstn (S i) xs' ->
  Single.pct_change_at p xs i = Single.pct_change_at p xs' i.
Proof.
  intros Hp E. unfold Single.pct_change_at, Single.shift_at.
  assert (Hi : nth_error xs i = nth_error xs' i).
  { rewrite <- (nth_error_firstn_lt xs (S i) i) by lia.
    rewrite <- (nth_error_firstn_lt xs' (S i) i) by lia. now rewrite E. }
  rewrite Hi. destruct (Z.of_nat i - p <? 0)%Z eqn:Ek; [reflexivity|].
  apply Z.ltb_ge in Ek.
  assert (Hk : nth_error xs (Z.to_nat (Z.of_nat i - p))
               = nth_error xs' (Z.to_nat (Z.of_nat i - p))).
  { rewrite <- (nth_error_firstn_lt xs (S i)) by lia.
    rewrite <- (nth_error_firstn_lt xs' (S i)) by lia. now rewrite E. }
  now rewrite Hk.
Qed.

Lemma pct_change_at_warmup (p : Z) (xs : list Q) (i : nat) :
  (Z.of_nat i < p)%Z -> Single.pct_change_at p xs i = NaN.
Proof.
  intros H. unfold Single.pct_change_at, Single.shift_at.
  assert (E : (Z.of_nat i - p <? 0)%Z = true) by (apply Z.ltb_lt; lia).
  rewrite E. now destruct (nth_error xs i).
Qed.

Lemma directional_nan (dir : string) (thr : Q) :
  Single.directional dir thr NaN = false.
Proof.
  unfold Single.directional.
  destruct (String.eqb dir "down"); [reflexivity|].
  now destruct (String.eqb dir "up").
Qed.

(** X11.  With positive periods the single-instrument signals have no
    lookahead: the signal columns of row [i] are the same for two close
    series that agree up to row [i]; and during the first [period_days]
    rows the entry signal is false. *)
Theorem single_signals_have_no_lookahead :
  forall (s : Single.Strategy) (closes closes' : list Q) (i : nat)
         (r : Single.Row),
    (0 < Single.period_of (Single.condition (Single.entry s)))%Z ->
    (forall xr, Single.exit s = Some xr ->
                (0 < Single.period_of (Single.condition xr))%Z) ->
    (firstn (S i) closes = firstn (S i) closes' ->
     Single.xrow_of s closes i r = Single.xrow_of s closes' i r) /\
    ((Z.of_nat i < Single.period_of (Single.condition (Single.entry s)))%Z ->
     Single.entry_signal (Single.xrow_of s closes i r) = false).
Proof.
  intros s closes closes' i r He Hx. split.
  - intros E. unfold Single.xrow_of.
    rewrite (pct_change_at_prefix _ closes closes' i He E).
    destruct (Single.exit s) as [xr|]; [|reflexivity].
    now rewrite (pct_change_at_prefix _ closes closes' i (Hx xr eq_refl) E).
  - intros Hw. unfold Single.xrow_of.
    rewrite (pct_change_at_warmup _ closes i Hw).
    destruct (Single.exit s); simpl; apply directional_nan.
Qed.

Lemma single_signals_have_no_lookahead_witness :
  (firstn 3 (map Single.close demo_series) = firstn 3 [100; 100; 94; 1; 2; 3] ->
   Single.xrow_of demo_strategy (map Single.close demo_series) 2
                  (Single.mkRow (day 3) 94)
   = Single.xrow_of demo_strategy [100; 100; 94; 1; 2; 3] 2
                    (Single.mkRow (day 3) 94)) /\
  ((Z.of_nat 2 < Single.period_of (Single.condition (Single.entry demo_strategy)))%Z ->
   Single.entry_signal
     (Single.xrow_of demo_strategy (map Single.close demo_series) 2
                     (Single.mkRow (day 3) 94)) = false).
Proof.
  apply (single_signals_have_no_lookahead demo_strategy
           (map Single.close demo_series) [100; 100; 94; 1; 2; 3] 2%nat
           (Single.mkRow (day 3) 94)).
  - reflexivity.
  - intros xr H. inversion H. reflexivity.
Defined.

(* ------------------------------------------------------------------ *)
(** ** Runs that never close a trade *)

Lemma add_signals_In (s : Single.Strategy) (df : list Single.Row)
      (x : Single.XRow) :
  In x (Single.add_signals s df) ->
  exists i r, x = Single.xrow_of s (map Single.close df) i r.
Proof.
  intros H. apply In_nth_error in H. destruct H as [i H].
  destruct (add_signals_nth s df i x H) as (r & _ & E). eauto.
Qed.

Lemma repeat_snoc {A} (a : A) (n : nat) : repeat a n ++ [a] = repeat a (S n).
Proof. now rewrite <- repeat_cons. Qed.

Lemma side_of_action_nonzero (act : string) : side_of_action act <> 0%Z.
Proof. unfold side_of_action. destruct (String.eqb act "buy"); discriminate. Qed.

Lemma no_exit_change_no_move (rows : list Single.XRow) :
  Forall (fun x => Single.exit_change x = None) rows ->
  filter fst
    (map (fun x => match Single.exit_change x with
                   | Some c => (Single.exit_signal x, c)
                   | None => (false, NaN)
                   end) rows) = [].
Proof.
  induction 1 as [|x rows Hc _ IH]; simpl; [reflexivity|].
  now rewrite Hc.
Qed.

(** X12.  Without an exit rule the single-instrument run never closes a
    trade: the ledger is empty, and the position series is 0 on exactly
    the rows before the first entry signal and holds the side on every
    row from the first entry signal to the end of the series (it is 0
    throughout when no entry signal fires). *)
Theorem no_exit_rule_holds_to_the_end :
  forall (s : Single.Strategy) (df : list Single.Row),
    Single.rule_symbol (Single.entry s) <> EmptyString ->
    df <> [] ->
    Single.exit s = None ->
    exists res,
      SingleStats.run s df = Ok res /\
      SingleStats.trades res = [] /\
      SingleStats.num_trades res = 0%nat /\
      SingleStats.avg_exit_move res = Fin 0 /\
      let a := rows_before_entry (Single.add_signals s df) in
      (a <= length df)%nat /\
      SingleStats.positions res
      = repeat 0%Z a
        ++ repeat (side_of_action (Single.action (Single.entry s))) (length df - a).
Proof.
  intros s df Hsym Hdf Hexit.
  destruct (single_run_returns s df Hsym Hdf) as (st & Erun & Eloop).
  set (sym := Single.upper (Single.rule_symbol (Single.entry s))) in *.
  set (act := Single.action (Single.entry s)) in *.
  set (sd := side_of_action act).
  set (all := Single.add_signals s df) in *.
  set (a0 := rows_before_entry all).
  assert (Hlen : length all = length df).
  { unfold all, Single.add_signals.
    rewrite <- (length_map Single.row), add_signals_rows. reflexivity. }
  assert (Hrows : Forall (fun x => Single.exit_signal x = false /\
                                   Single.exit_change x = None) all).
  { apply Forall_forall. intros x Hx.
    destruct (add_signals_In s df x Hx) as (i & r & ->).
    unfold Single.xrow_of. rewrite Hexit. auto. }
  pose proof (side_of_action_nonzero act) as Hsd. fold sd in Hsd.
  pose (I := fun (rest : list Single.XRow) (t : Single.State) =>
    Single.ledger t = [] /\
    exists k,
      (k + length rest = length df)%nat /\
      ((Single.position t = 0%Z /\
        Single.positions t = repeat 0%Z k /\
        a0 = (k + rows_before_entry rest)%nat) \/
       (Single.position t = sd /\
        (a0 < k)%nat /\
        Single.positions t = repeat 0%Z a0 ++ repeat sd (k - a0)))).
  assert (Hfin : I [] st).
  { apply (loop_preserves sym act
             (fun x => Single.exit_signal x = false /\ Single.exit_change x = None) I)
      with (rows := all) (i := 0%nat) (st := Single.init_state);
      [|exact Hrows| |exact Eloop].
    - intros i x rest t t' [Hx _] (Hl & k & Hn & Hcase) E.
      cbn [length] in Hn.
      destruct (branch_cases _ _ _ _ _ _ E)
        as [(Hz & Hsig & ->)|[(_ & Hsig & _)|(-> & Hstay)]];
        [| congruence |];
        unfold I, Single.push_position;
        cbn [Single.ledger Single.position Single.positions].
      + (* the trade is opened *)
        split; [exact Hl|]. exists (S k). split; [lia|]. right.
        destruct Hcase as [(_ & Hp & Ha)|(Hs & _)]; [|congruence].
        cbn [rows_before_entry] in Ha. rewrite Hsig in Ha.
        assert (Ek : a0 = k) by lia.
        split; [reflexivity|]. split; [lia|].
        rewrite Hp, Ek. replace (S k - k)%nat with 1%nat by lia. reflexivity.
      + (* nothing happens *)
        split; [exact Hl|]. exists (S k). split; [lia|].
        destruct Hstay as [(Hz & Hsig)|(Hnz & _)].
        * left. destruct Hcase as [(_ & Hp & Ha)|(Hs & _)]; [|congruence].
          cbn [rows_before_entry] in Ha. rewrite Hsig in Ha.
          split; [exact Hz|]. split; [|lia].
          rewrite Hp, Hz. apply repeat_snoc.
        * right. destruct Hcase as [(Hz & _)|(Hs & Ha & Hp)]; [congruence|].
          split; [exact Hs|]. split; [lia|].
          rewrite Hp, Hs, <- app_assoc, repeat_snoc.
          now replace (S k - a0)%nat with (S (k - a0)) by lia.
    - split; [reflexivity|]. exists 0%nat. split; [simpl; lia|].
      left. repeat split. }
  destruct Hfin as (Hl & k & Hn & Hcase). cbn [length] in Hn.
  assert (Ek : k = length df) by lia. subst k.
  eexists. unfold SingleStats.run. rewrite Erun. cbn [bind].
  split; [reflexivity|]. cbn [SingleStats.trades SingleStats.num_trades
                              SingleStats.avg_exit_move SingleStats.positions].
  rewrite Hl. fold all. split; [reflexivity|]. split; [reflexivity|]. split.
  - unfold SingleStats.avg_move.
    assert (E : filter fst
                  (map (fun x => match Single.exit_change x with
                                 | Some c => (Single.exit_signal x, c)
                                 | None => (false, NaN)
                                 end) all) = []).
    { apply no_exit_change_no_move. eapply Forall_impl; [|exact Hrows].
      now intros x [_ Hc]. }
    now rewrite E.
  - cbv zeta. fold all a0. fold act sd.
    destruct Hcase as [(_ & Hp & Ha)|(_ & Ha & Hp)].
    + cbn [rows_before_entry] in Ha. rewrite Nat.add_0_r in Ha.
      split; [lia|]. rewrite Hp, Ha, Nat.sub_diag. now rewrite app_nil_r.
    + split; [lia|exact Hp].
Qed.

(** The run of [demo_entry_only] on [demo_series] enters on the third
    row and holds the long position on the last four rows. *)
Lemma no_exit_rule_holds_to_the_end_witness :
  exists res,
    SingleStats.run demo_entry_only demo_series = Ok res /\
    SingleStats.trades res = [] /\
    SingleStats.num_trades res = 0%nat /\
    SingleStats.avg_exit_move res = Fin 0 /\
    let a := rows_before_entry (Single.add_signals demo_entry_only demo_series) in
    (a <= length demo_series)%nat /\
    SingleStats.positions res
    = repeat 0%Z a ++ repeat 1%Z (length demo_series - a).
Proof.
  apply (no_exit_rule_holds_to_the_end demo_entry_only demo_series).
  - discriminate.
  - discriminate.
  - reflexivity.
Defined.

(* ------------------------------------------------------------------ *)
(** ** The statistics of [Backtester.run] *)

Lemma flat_return_is_zero (closes : list Q) (n i : nat) :
  exists q, fillna0 (SingleStats.return_at closes (repeat 0%Z n) i) = Fin q /\
            q == 0.
Proof.
  unfold SingleStats.return_at, SingleStats.prev_position.
  assert (Hmul : forall x, exists q, fillna0 (fnum_mul x (Fin (inject_Z 0))) = Fin q
                                     /\ q == 0).
  { intros [a| | |]; simpl; eexists; split; try reflexivity.
    unfold inject_Z. ring. }
  assert (Hnan : forall x, fillna0 (fnum_mul x NaN) = Fin 0)
    by (intros [a| | |]; reflexivity).
  destruct i as [|j].
  - rewrite Hnan. exists 0. split; reflexivity.
  - destruct (nth_error (repeat 0%Z n) j) as [p|] eqn:E.
    + apply nth_error_In, repeat_spec in E. subst p. apply Hmul.
    + rewrite Hnan. exists 0. split; reflexivity.
Qed.

Lemma prod_of_ones (l : list fnum) (a : Q) :
  Forall (fun x => is_fin x 1) l -> a == 1 ->
  is_fin (fold_left fnum_mul l (Fin a)) 1.
Proof.
  intros Hl. revert a; induction Hl as [|x l Hx _ IH]; intros a Ha; simpl.
  - exact Ha.
  - destruct x as [b| | |]; simpl in Hx; try contradiction.
    apply IH. rewrite Ha, Hx. ring.
Qed.

(** A flat position series earns nothing. *)
Lemma flat_total_return (closes : list Q) (n : nat) :
  is_fin (fsub (fnum_prod (SingleStats.growth
                             (SingleStats.return_col closes (repeat 0%Z n)))) 1) 0.
Proof.
  assert (H : is_fin (fnum_prod (SingleStats.growth
                        (SingleStats.return_col closes (repeat 0%Z n)))) 1).
  { unfold fnum_prod. apply prod_of_ones; [|reflexivity].
    unfold SingleStats.growth, SingleStats.return_col.
    apply Forall_forall. intros x Hx.
    apply in_map_iff in Hx. destruct Hx as (r & <- & Hr).
    apply in_map_iff in Hr. destruct Hr as (i & <- & _).
    destruct (flat_return_is_zero closes n i) as (q & -> & Hq).
    simpl. rewrite Hq. ring. }
  destruct (fnum_prod _) as [p| | |]; simpl in *; try contradiction.
  rewrite H. ring.
Qed.

Lemma no_signal_no_move (rows : list (bool * fnum)) :
  Forall (fun r => fst r = false) rows -> SingleStats.avg_move rows = Fin 0.
Proof.
  intros H. unfold SingleStats.avg_move.
  assert (E : filter fst rows = []).
  { induction H as [|r rows Hr _ IH]; simpl; [reflexivity|]. now rewrite Hr. }
  now rewrite E.
Qed.

(** X13.  An entry direction other than "down" and "up" makes the
    entry signal false on every row, so the run never trades: the ledger
    is empty, the position series is zero throughout, the average entry
    move is 0 and the total return is 0. *)
Theorem unknown_direction_never_trades :
  forall (s : Single.Strategy) (df : list Single.Row) (dir : string),
    Single.rule_symbol (Single.entry s) <> EmptyString ->
    df <> [] ->
    Single.direction (Single.condition (Single.entry s)) = Some dir ->
    dir <> "down"%string ->
    dir <> "up"%string ->
    exists res,
      SingleStats.run s df = Ok res /\
      SingleStats.trades res = [] /\
      SingleStats.num_trades res = 0%nat /\
      SingleStats.positions res = repeat 0%Z (length df) /\
      SingleStats.avg_entry_move res = Fin 0 /\
      is_fin (SingleStats.total_return res) 0.
Proof.
  intros s df dir Hsym Hdf Hdir Hd Hu.
  destruct (single_run_returns s df Hsym Hdf) as (st & Erun & Eloop).
  set (sym := Single.upper (Single.rule_symbol (Single.entry s))) in *.
  set (act := Single.action (Single.entry s)) in *.
  assert (Hrows : Forall (fun x => Single.entry_signal x = false)
                         (Single.add_signals s df)).
  { apply Forall_forall. intros x Hx.
    destruct (add_signals_In s df x Hx) as (i & r & ->).
    assert (E : forall thr c, Single.directional dir thr c = false).
    { intros thr c. unfold Single.directional.
      destruct (String.eqb_spec dir "down"); [contradiction|].
      destruct (String.eqb_spec dir "up"); [contradiction|reflexivity]. }
    unfold Single.xrow_of. rewrite Hdir. cbn [Single.default].
    destruct (Single.exit s); cbn [Single.entry_signal]; apply E. }
  pose (I := fun (rest : list Single.XRow) (t : Single.State) =>
    Single.ledger t = [] /\ Single.position t = 0%Z /\
    exists a, Single.positions t = repeat 0%Z a /\
              (a + length rest = length df)%nat).
  assert (Hfin : I [] st).
  { apply (loop_preserves sym act (fun x => Single.entry_signal x = false) I)
      with (rows := Single.add_signals s df) (i := 0%nat) (st := Single.init_state);
      [|exact Hrows| |exact Eloop].
    - intros i x rest t t' Hx (Hl & Hz & a & Hp & Hn) E. simpl in Hn.
      destruct (branch_cases _ _ _ _ _ _ E)
        as [(_ & Hsig & _)|[(Hnz & _)|(-> & _)]]; [congruence|contradiction|].
      unfold I, Single.push_position.
      cbn [Single.ledger Single.position Single.positions].
      repeat split; auto. exists (S a). rewrite Hp, Hz, repeat_snoc.
      split; [reflexivity|lia].
    - repeat split. exists 0%nat. split; [reflexivity|].
      simpl. unfold Single.add_signals.
      rewrite <- (length_map Single.row), add_signals_rows. reflexivity. }
  destruct Hfin as (Hl & _ & a & Hp & Hn). simpl in Hn.
  assert (a = length df) by lia. subst a.
  eexists. unfold SingleStats.run. rewrite Erun. cbn [bind].
  split; [reflexivity|].
  cbn [SingleStats.trades SingleStats.num_trades SingleStats.positions
       SingleStats.avg_entry_move SingleStats.total_return].
  rewrite Hl, Hp. repeat split.
  - apply no_signal_no_move. apply Forall_map.
    eapply Forall_impl; [|exact Hrows]. auto.
  - apply flat_total_return.
Qed.

Lemma unknown_direction_never_trades_witness :
  exists res,
    SingleStats.run demo_sideways demo_series = Ok res /\
    SingleStats.trades res = [] /\
    SingleStats.num_trades res = 0%nat /\
    SingleStats.positions res = repeat 0%Z (length demo_series) /\
    SingleStats.avg_entry_move res = Fin 0 /\
    is_fin (SingleStats.total_return res) 0.
Proof.
  apply (unknown_direction_never_trades demo_sideways demo_series
           "sideways"%string); try discriminate.
  reflexivity.
Defined.

(* ------------------------------------------------------------------ *)
(** ** The average move on signal days *)

Lemma nat_q_succ (n : nat) : nat_q (S n) == nat_q n + 1.
Proof.
  unfold nat_q. rewrite Nat2Z.inj_succ. unfold Z.succ.
  rewrite inject_Z_plus. reflexivity.
Qed.

Lemma sum_at_most (l : list fnum) (t : Q) (acc : fnum) (bound : Q) :
  Forall (fun v => f_le v t = true) l ->
  f_le acc bound = true ->
  f_le (fold_left fnum_add l acc) (bound + nat_q (length l) * t) = true.
Proof.
  intros Hl. revert acc bound.
  induction Hl as [|v l Hv _ IH]; intros acc bound Hacc.
  - cbn [fold_left length]. change (nat_q 0) with 0.
    destruct acc as [a| | |]; cbn [f_le f_ge] in *; try assumption.
    apply Qle_bool_iff in Hacc. apply Qle_bool_iff. lra.
  - cbn [fold_left length].
    assert (Hstep : f_le (fnum_add acc v) (bound + t) = true).
    { destruct acc as [a| | |], v as [b| | |]; simpl in *;
        try discriminate; try reflexivity.
      apply Qle_bool_iff in Hacc, Hv. apply Qle_bool_iff. lra. }
    specialize (IH _ _ Hstep).
    destruct (fold_left fnum_add l (fnum_add acc v)) as [s| | |];
      simpl in *; try assumption.
    apply Qle_bool_iff in IH. apply Qle_bool_iff.
    rewrite nat_q_succ. lra.
Qed.

Lemma sum_at_least (l : list fnum) (t : Q) (acc : fnum) (bound : Q) :
  Forall (fun v => f_ge v t = true) l ->
  f_ge acc bound = true ->
  f_ge (fold_left fnum_add l acc) (bound + nat_q (length l) * t) = true.
Proof.
  intros Hl. revert acc bound.
  induction Hl as [|v l Hv _ IH]; intros acc bound Hacc.
  - cbn [fold_left length]. change (nat_q 0) with 0.
    destruct acc as [a| | |]; cbn [f_le f_ge] in *; try assumption.
    apply Qle_bool_iff in Hacc. apply Qle_bool_iff. lra.
  - cbn [fold_left length].
    assert (Hstep : f_ge (fnum_add acc v) (bound + t) = true).
    { destruct acc as [a| | |], v as [b| | |]; simpl in *;
        try discriminate; try reflexivity.
      apply Qle_bool_iff in Hacc, Hv. apply Qle_bool_iff. lra. }
    specialize (IH _ _ Hstep).
    destruct (fold_left fnum_add l (fnum_add acc v)) as [s| | |];
      simpl in *; try assumption.
    apply Qle_bool_iff in IH. apply Qle_bool_iff.
    rewrite nat_q_succ. lra.
Qed.

Lemma nat_q_pos (n : nat) : (0 < n)%nat -> 0 < nat_q n.
Proof.
  intros H. unfold nat_q. change 0 with (inject_Z 0). rewrite <- Zlt_Qlt. lia.
Qed.

Lemma mean_at_most (l : list fnum) (t : Q) :
  l <> [] -> Forall (fun v => f_le v t = true) l -> f_le (fnum_mean l) t = true.
Proof.
  intros Hne Hl. unfold fnum_mean. destruct l as [|v l]; [congruence|].
  pose proof (sum_at_most (v :: l) t (Fin 0) 0 Hl eq_refl) as H.
  set (n := length (v :: l)) in *.
  assert (Hn : 0 < nat_q n) by (apply nat_q_pos; unfold n; simpl; lia).
  destruct (fold_left fnum_add (v :: l) (Fin 0)) as [s| | |];
    cbn [fnum_div_count f_le f_ge] in *; try assumption.
  apply Qle_bool_iff in H. apply Qle_bool_iff.
  fold (nat_q n). apply Qle_shift_div_r; [exact Hn|]. lra.
Qed.

Lemma mean_at_least (l : list fnum) (t : Q) :
  l <> [] -> Forall (fun v => f_ge v t = true) l -> f_ge (fnum_mean l) t = true.
Proof.
  intros Hne Hl. unfold fnum_mean. destruct l as [|v l]; [congruence|].
  pose proof (sum_at_least (v :: l) t (Fin 0) 0 Hl eq_refl) as H.
  set (n := length (v :: l)) in *.
  assert (Hn : 0 < nat_q n) by (apply nat_q_pos; unfold n; simpl; lia).
  destruct (fold_left fnum_add (v :: l) (Fin 0)) as [s| | |];
    cbn [fnum_div_count f_le f_ge] in *; try assumption.
  apply Qle_bool_iff in H. apply Qle_bool_iff.
  fold (nat_q n). apply Qle_shift_div_l; [exact Hn|]. lra.
Qed.

Lemma avg_move_cases (rows : list (bool * fnum)) (P : fnum -> Prop) :
  Forall (fun r => fst r = true -> P (snd r)) rows ->
  (SingleStats.avg_move rows = Fin 0 /\ Forall (fun r => fst r = false) rows) \/
  (exists fired, fired <> [] /\ Forall P fired /\
                 SingleStats.avg_move rows = fnum_mean fired).
Proof.
  intros H. unfold SingleStats.avg_move.
  destruct (filter fst rows) as [|r fired] eqn:E.
  - left. split; [reflexivity|]. apply Forall_forall. intros x Hx.
    destruct (fst x) eqn:Ex; [|reflexivity].
    assert (Hin : In x (filter fst rows)) by (apply filter_In; auto).
    rewrite E in Hin. contradiction.
  - right. exists (map snd (r :: fired)). split; [discriminate|].
    split; [|reflexivity]. rewrite <- E. apply Forall_map, Forall_forall.
    intros x Hx. apply filter_In in Hx. destruct Hx as [Hx Hf].
    rewrite Forall_forall in H. now apply H.
Qed.

(** X14.  The average entry move reported by [Backtester.run] is 0 when
    no entry signal fired; otherwise it is at most -threshold for a
    "down" rule and at least threshold for an "up" rule. *)
Theorem avg_entry_move_is_beyond_threshold :
  forall (s : Single.Strategy) (df : list Single.Row) (res : SingleStats.Result),
    SingleStats.run s df = Ok res ->
    let econd := Single.condition (Single.entry s) in
    let thr := Single.default (5 # 100) (Single.threshold econd) in
    let dir := Single.default "down"%string (Single.direction econd) in
    let fired := existsb Single.entry_signal (Single.add_signals s df) in
    (fired = false -> SingleStats.avg_entry_move res = Fin 0) /\
    (fired = true -> dir = "down"%string ->
     f_le (SingleStats.avg_entry_move res) (- thr) = true) /\
    (fired = true -> dir = "up"%string ->
     f_ge (SingleStats.avg_entry_move res) thr = true).
Proof.
  intros s df res H econd thr dir fired.
  unfold SingleStats.run in H.
  destruct (Single.run s df) as [st|e]; cbn [bind] in H; [|discriminate].
  inversion H; subst res; clear H. cbn [SingleStats.avg_entry_move].
  set (rows := map (fun x => (Single.entry_signal x, Single.entry_change x))
                   (Single.add_signals s df)).
  assert (Hsig : forall x, In x (Single.add_signals s df) ->
                 Single.entry_signal x
                 = Single.directional dir thr (Single.entry_change x)).
  { intros x Hx. destruct (add_signals_In s df x Hx) as (i & r & ->).
    unfold Single.xrow_of. now destruct (Single.exit s). }
  assert (Hfired : fired = true ->
                   ~ Forall (fun r => fst r = false) rows).
  { intros Hf Hall. unfold fired in Hf. apply existsb_exists in Hf.
    destruct Hf as (x & Hx & Hs). rewrite Forall_forall in Hall.
    specialize (Hall _ (in_map (fun x => (Single.entry_signal x,
                                          Single.entry_change x)) _ _ Hx)).
    simpl in Hall. congruence. }
  split; [|split].
  - intros Hf. apply no_signal_no_move. unfold rows. apply Forall_map.
    apply Forall_forall. intros x Hx. simpl.
    destruct (Single.entry_signal x) eqn:Ex; [|reflexivity].
    assert (existsb Single.entry_signal (Single.add_signals s df) = true)
      by (apply existsb_exists; eauto).
    unfold fired in Hf. congruence.
  - intros Hf Hd.
    destruct (avg_move_cases rows (fun v => f_le v (- thr) = true))
      as [[_ Hnone]|(l & Hne & Hl & ->)].
    + unfold rows. apply Forall_map, Forall_forall. intros x Hx. simpl.
      rewrite (Hsig x Hx), Hd. unfold Single.directional. simpl. auto.
    + now apply Hfired in Hnone.
    + now apply mean_at_most.
  - intros Hf Hd.
    destruct (avg_move_cases rows (fun v => f_ge v thr = true))
      as [[_ Hnone]|(l & Hne & Hl & ->)].
    + unfold rows. apply Forall_map, Forall_forall. intros x Hx. simpl.
      rewrite (Hsig x Hx), Hd. unfold Single.directional. simpl. auto.
    + now apply Hfired in Hnone.
    + now apply mean_at_least.
Qed.

Lemma avg_entry_move_is_beyond_threshold_witness :
  f_le (SingleStats.avg_entry_move demo_result) (- (5 # 100)) = true.
Proof.
  apply (avg_entry_move_is_beyond_threshold demo_strategy demo_series demo_result);
    reflexivity.
Defined.

(* ------------------------------------------------------------------ *)
(** ** Trade metrics: identities and ranges *)

Lemma qsum_from (l : list Q) (a : Q) : fold_left Qplus l a == a + Report.qsum l.
Proof.
  unfold Report.qsum. revert a. induction l as [|x l IH]; intros a; simpl.
  - lra.
  - rewrite (IH (a + x)), (IH (0 + x)). lra.
Qed.

Lemma qsum_cons (x : Q) (l : list Q) : Report.qsum (x :: l) == x + Report.qsum l.
Proof.
  unfold Report.qsum at 1. simpl. rewrite qsum_from. lra.
Qed.

Lemma qlen_cons (x : Q) (l : list Q) : Report.qlen (x :: l) == Report.qlen l + 1.
Proof.
  unfold Report.qlen. cbn [length]. rewrite Nat2Z.inj_succ. unfold Z.succ.
  rewrite inject_Z_plus. reflexivity.
Qed.

Lemma qlen_nonneg (l : list Q) : 0 <= Report.qlen l.
Proof.
  unfold Report.qlen. change 0 with (inject_Z 0). rewrite <- Zle_Qle. lia.
Qed.

Lemma qlen_pos (x : Q) (l : list Q) : 0 < Report.qlen (x :: l).
Proof.
  rewrite qlen_cons. pose proof (qlen_nonneg l). lra.
Qed.

Lemma wins_and_losses_partition (r : list Q) :
  let wins := filter (fun x => Qltb 0 x) r in
  let losses := filter (fun x => Qle_bool x 0) r in
  Report.qsum wins + Report.qsum losses == Report.qsum r /\
  Report.qlen wins + Report.qlen losses == Report.qlen r.
Proof.
  induction r as [|x r [IHs IHl]]; cbv zeta in *.
  - split; reflexivity.
  - cbn [filter]. assert (E : Qltb 0 x = negb (Qle_bool x 0)) by reflexivity.
    rewrite E. destruct (Qle_bool x 0); cbn [negb].
    + rewrite !qsum_cons, !qlen_cons. split; lra.
    + rewrite !qsum_cons, !qlen_cons. split; lra.
Qed.

Lemma qsum_wins_nonneg (r : list Q) :
  0 <= Report.qsum (filter (fun x => Qltb 0 x) r).
Proof.
  induction r as [|x r IH]; [apply Qle_refl|].
  cbn [filter]. destruct (Qltb 0 x) eqn:E; [|exact IH].
  apply Qltb_lt in E. rewrite qsum_cons. lra.
Qed.

Lemma qsum_losses_nonpos (r : list Q) :
  Report.qsum (filter (fun x => Qle_bool x 0) r) <= 0.
Proof.
  induction r as [|x r IH]; [apply Qle_refl|].
  cbn [filter]. destruct (Qle_bool x 0) eqn:E; [|exact IH].
  apply Qle_bool_iff in E. rewrite qsum_cons. lra.
Qed.

Lemma mean_or_zero_times_len (l : list Q) :
  Report.mean_or_zero l * Report.qlen l == Report.qsum l.
Proof.
  destruct l as [|x l]; [reflexivity|].
  unfold Report.mean_or_zero. pose proof (qlen_pos x l). field. lra.
Qed.

Lemma mean_or_zero_sign (l : list Q) :
  (0 <= Report.qsum l -> 0 <= Report.mean_or_zero l) /\
  (Report.qsum l <= 0 -> Report.mean_or_zero l <= 0).
Proof.
  destruct l as [|x l]; [split; intros; apply Qle_refl|].
  unfold Report.mean_or_zero. pose proof (qlen_pos x l) as Hn. split; intros H.
  - apply Qle_shift_div_l; [exact Hn|]. lra.
  - apply Qle_shift_div_r; [exact Hn|]. lra.
Qed.

Lemma metrics_eq (r0 : Q) (r : list Q) (h : option (list Z)) :
  let rs := r0 :: r in
  let wins := filter (fun x => Qltb 0 x) rs in
  let losses := filter (fun x => Qle_bool x 0) rs in
  let m := Report._extra_metrics_from_trades (Some (Report.mkTrades rs h)) in
  Report.win_rate m = Report.qlen wins / Report.qlen rs /\
  Report.avg_win m = Report.mean_or_zero wins /\
  Report.avg_loss m = Report.mean_or_zero losses /\
  Report.expectancy m
  = Report.win_rate m * Report.avg_win m
    + (1 - Report.win_rate m) * Report.avg_loss m /\
  Report.median_hold m = match h with Some d => Report.median d | None => Fin 0 end.
Proof.
  cbv zeta. repeat split.
Qed.

(** X15.  The expectancy that [_extra_metrics_from_trades] reports is
    the plain mean of all trade returns (0 for an empty ledger). *)
Theorem expectancy_is_mean_return :
  forall t : Report.Trades,
    Report.expectancy (Report._extra_metrics_from_trades (Some t))
    == Report.mean_or_zero (Report.returns t).
Proof.
  intros [[|r0 r] h]; [reflexivity|].
  destruct (metrics_eq r0 r h) as (Ew & Eaw & Eal & Ee & _). cbv zeta in *.
  rewrite Ee, Ew, Eaw, Eal. cbn [Report.returns].
  set (rs := r0 :: r) in *.
  set (wins := filter (fun x => Qltb 0 x) rs) in *.
  set (losses := filter (fun x => Qle_bool x 0) rs) in *.
  destruct (wins_and_losses_partition rs) as [Hs Hl]. fold wins losses in Hs, Hl.
  pose proof (mean_or_zero_times_len wins) as Hw.
  pose proof (mean_or_zero_times_len losses) as Hlo.
  pose proof (qlen_pos r0 r) as Hn. fold rs in Hn.
  assert (Hr : Report.mean_or_zero rs == Report.qsum rs / Report.qlen rs)
    by reflexivity.
  rewrite Hr, <- Hs, <- Hw, <- Hlo.
  assert (Hlosses : Report.qlen losses == Report.qlen rs - Report.qlen wins) by lra.
  rewrite Hlosses. field. lra.
Qed.

(** X16.  Whatever the ledger, the win rate lies in [0, 1], the average
    win is not negative, the average loss is not positive, and the
    profit factor is +infinity or a finite number that is not negative
    (never NaN). *)
Theorem trade_metrics_ranges :
  forall (trades : option Report.Trades),
    let m := Report._extra_metrics_from_trades trades in
    0 <= Report.win_rate m <= 1 /\
    0 <= Report.avg_win m /\
    Report.avg_loss m <= 0 /\
    (Report.profit_factor m = PInf \/
     exists q, Report.profit_factor m = Fin q /\ 0 <= q).
Proof.
  intros [[[|r0 r] h]|]; cbv zeta;
    try (cbn; repeat split; try lra; right; exists 0; split;
         [reflexivity|lra]).
  destruct (metrics_eq r0 r h) as (Ew & Eaw & Eal & _ & _). cbv zeta in *.
  rewrite Ew, Eaw, Eal.
  rewrite (profit_factor_eq (Report.mkTrades (r0 :: r) h)) by discriminate.
  cbn [Report.returns]. cbv zeta.
  set (rs := r0 :: r) in *.
  set (wins := filter (fun x => Qltb 0 x) rs) in *.
  set (losses := filter (fun x => Qle_bool x 0) rs) in *.
  destruct (wins_and_losses_partition rs) as [_ Hl]. fold wins losses in Hl.
  pose proof (qlen_pos r0 r) as Hn. fold rs in Hn.
  pose proof (qlen_nonneg wins) as Hnw. pose proof (qlen_nonneg losses) as Hnl.
  pose proof (qsum_wins_nonneg rs) as Hsw. fold wins in Hsw.
  pose proof (qsum_losses_nonpos rs) as Hsl. fold losses in Hsl.
  split; [split|split; [|split]].
  - apply Qle_shift_div_l; [exact Hn|]. lra.
  - apply Qle_shift_div_r; [exact Hn|]. lra.
  - now apply mean_or_zero_sign.
  - now apply mean_or_zero_sign.
  - rewrite guarded_sum.
    destruct (Qltb 0 (match losses with [] => 0 | _ => - Report.qsum losses end))
      eqn:E.
    + right. eexists. split; [reflexivity|].
      apply Qltb_lt in E. apply Qle_shift_div_l; [exact E|]. lra.
    + destruct (Qltb 0 (Report.qsum wins)); [now left|].
      right. exists 0. split; [reflexivity|lra].
Qed.

(* ------------------------------------------------------------------ *)
(** ** The median holding time *)

Lemma insert_sorted_Forall (P : Z -> Prop) (x : Z) (l : list Z) :
  P x -> Forall P l -> Forall P (Report.insert_sorted x l).
Proof.
  intros Hx Hl. induction Hl as [|y l Hy Hl IH]; simpl.
  - now constructor.
  - destruct (x <=? y)%Z; repeat constructor; assumption.
Qed.

Lemma insert_sorted_length (x : Z) (l : list Z) :
  length (Report.insert_sorted x l) = S (length l).
Proof.
  induction l as [|y l IH]; simpl; [reflexivity|].
  destruct (x <=? y)%Z; simpl; congruence.
Qed.

Lemma sort_Forall (P : Z -> Prop) (l : list Z) :
  Forall P l -> Forall P (Report.sort l).
Proof.
  intros H. induction H as [|x l Hx Hl IH]; simpl; [constructor|].
  now apply insert_sorted_Forall.
Qed.

Lemma sort_length (l : list Z) : length (Report.sort l) = length l.
Proof.
  induction l as [|x l IH]; simpl; [reflexivity|].
  now rewrite insert_sorted_length, IH.
Qed.

Lemma nth_between (lo hi : Z) (l : list Z) (i : nat) :
  Forall (fun x => (lo <= x <= hi)%Z) l -> (i < length l)%nat ->
  (lo <= nth i l 0 <= hi)%Z.
Proof.
  intros H Hi. rewrite Forall_forall in H. apply H. now apply nth_In.
Qed.

Lemma median_between (lo hi : Z) (l : list Z) :
  l <> [] -> Forall (fun x => (lo <= x <= hi)%Z) l ->
  exists m, Report.median l = Fin m /\ inject_Z lo <= m <= inject_Z hi.
Proof.
  intros Hne H. unfold Report.median.
  pose proof (sort_Forall _ l H) as Hs. pose proof (sort_length l) as Hlen.
  set (s := Report.sort l) in *.
  assert (Hpos : (0 < length s)%nat).
  { rewrite Hlen. destruct l; [congruence|simpl; lia]. }
  destruct (length s) as [|n] eqn:En; [lia|]. rewrite <- En.
  assert (Hhalf : (length s / 2 < length s)%nat)
    by (apply Nat.div_lt; lia).
  pose proof (nth_between lo hi s (length s / 2) Hs Hhalf) as [H1 H2].
  destruct (Nat.odd (length s)).
  - eexists. split; [reflexivity|]. split; rewrite <- Zle_Qle; assumption.
  - assert (Hprev : (length s / 2 - 1 < length s)%nat) by lia.
    pose proof (nth_between lo hi s (length s / 2 - 1) Hs Hprev) as [H3 H4].
    eexists. split; [reflexivity|].
    rewrite Zle_Qle in H1, H2, H3, H4. split.
    + apply Qle_shift_div_l; lra.
    + apply Qle_shift_div_r; lra.
Qed.

(** X17.  For a ledger with rows and a [holding_days] column, the median
    hold is a finite number between the shortest and the longest holding
    time; without that column it is 0. *)
Theorem median_hold_between_extremes :
  forall (t : Report.Trades) (lo hi : Z),
    Report.returns t <> [] ->
    let m := Report.median_hold (Report._extra_metrics_from_trades (Some t)) in
    match Report.holding_days t with
    | None => m = Fin 0
    | Some h =>
        h <> [] -> Forall (fun x => (lo <= x <= hi)%Z) h ->
        exists q, m = Fin q /\ inject_Z lo <= q <= inject_Z hi
    end.
Proof.
  intros [[|r0 r] h] lo hi Hne; [now elim Hne|]. cbv zeta.
  destruct (metrics_eq r0 r h) as (_ & _ & _ & _ & Em). cbv zeta in Em.
  rewrite Em. cbn [Report.holding_days]. destruct h as [d|]; [|reflexivity].
  intros Hd Hall. now apply median_between.
Qed.

Lemma median_hold_between_extremes_witness :
  exists q,
    Report.median_hold
      (Report._extra_metrics_from_trades
         (Some (Report.mkTrades [1 # 10; - (1 # 20)] (Some [3; 8]%Z)))) = Fin q /\
    inject_Z 3 <= q <= inject_Z 8.
Proof.
  apply (median_hold_between_extremes
           (Report.mkTrades [1 # 10; - (1 # 20)] (Some [3; 8]%Z)) 3 8).
  - discriminate.
  - discriminate.
  - repeat constructor; discriminate.
Defined.

(* ------------------------------------------------------------------ *)
(** ** The maximum drawdown *)

Lemma Qmaxb_spec (a b : Q) :
  a <= Qmaxb a b /\ b <= Qmaxb a b /\ (Qmaxb a b = a \/ Qmaxb a b = b).
Proof.
  unfold Qmaxb. destruct (Qle_bool a b) eqn:E.
  - apply Qle_bool_iff in E. repeat split; auto; lra.
  - assert (b < a).
    { apply Qnot_le_lt. intros H. apply Qle_bool_iff in H. congruence. }
    repeat split; auto; lra.
Qed.

Lemma np_div_fin (a b : Q) : ~ b == 0 -> np_div a b = Fin (a / b).
Proof.
  intros H. unfold np_div. apply Qeqb_neq in H. now rewrite H.
Qed.

Lemma fnum_min2_within (lo hi : Q) (x y : fnum) :
  (x = NaN \/ fin_within lo hi x) -> fin_within lo hi y ->
  fin_within lo hi (fnum_min2 x y).
Proof.
  intros [->|Hx] Hy.
  - now destruct y.
  - destruct x as [a| | |], y as [b| | |]; simpl in *; try contradiction.
    now destruct (Qle_bool a b).
Qed.

Lemma series_min_within (lo hi : Q) (l : list fnum) (acc : fnum) :
  Forall (fin_within lo hi) l ->
  (acc = NaN /\ l <> []) \/ fin_within lo hi acc ->
  fin_within lo hi (fold_left fnum_min2 l acc).
Proof.
  intros H. revert acc. induction H as [|x l Hx Hl IH]; intros acc Hacc.
  - destruct Hacc as [[_ Hne]|Hacc]; [now elim Hne|exact Hacc].
  - cbn [fold_left]. apply IH. right. apply fnum_min2_within; [|exact Hx].
    destruct Hacc as [[-> _]|Hacc]; auto.
Qed.

Lemma drawdown_from_within (m : Q) (l : list Q) :
  0 < m -> Forall (fun e => 0 < e) l ->
  Forall (fin_within (-(1)) 0)
         (map (fun em => np_div (fst em - snd em) (snd em))
              (combine l (cummax_from m l))).
Proof.
  intros Hm H. revert m Hm. induction H as [|e l He Hl IH]; intros m Hm.
  - constructor.
  - cbn [cummax_from combine map fst snd].
    destruct (Qmaxb_spec m e) as (H1 & H2 & _).
    set (m' := Qmaxb m e) in *.
    assert (Hm' : 0 < m') by lra.
    constructor; [|now apply IH].
    rewrite np_div_fin by lra. simpl. split.
    + apply Qlt_shift_div_l; [exact Hm'|]. lra.
    + apply Qle_shift_div_r; [exact Hm'|]. lra.
Qed.

Lemma cummax_as_from (x : Q) (r : list Q) :
  cummax (x :: r) = cummax_from x (x :: r).
Proof.
  cbn [cummax cummax_from]. unfold Qmaxb. now destruct (Qle_bool x x).
Qed.

Lemma drawdown_from_flat (m : Q) (l : list Q) :
  0 < m -> StronglySorted Qle (m :: l) ->
  Forall (fun d => is_fin d 0)
         (map (fun em => np_div (fst em - snd em) (snd em))
              (combine l (cummax_from m l))).
Proof.
  revert m. induction l as [|e l IH]; intros m Hm Hs; [constructor|].
  cbn [cummax_from combine map fst snd].
  inversion Hs as [|? ? Hs' Hall]; subst.
  inversion Hall as [|? ? Hme _]; subst.
  assert (E : Qmaxb m e = e).
  { unfold Qmaxb. apply Qle_bool_iff in Hme. now rewrite Hme. }
  rewrite E. constructor; [|apply IH; [lra|exact Hs']].
  rewrite np_div_fin by lra. simpl. field. lra.
Qed.

Lemma series_min_zero (l : list fnum) (acc : fnum) :
  Forall (fun d => is_fin d 0) l ->
  (acc = NaN /\ l <> []) \/ is_fin acc 0 ->
  is_fin (fold_left fnum_min2 l acc) 0.
Proof.
  intros H. revert acc. induction H as [|x l Hx Hl IH]; intros acc Hacc.
  - destruct Hacc as [[_ Hne]|Hacc]; [now elim Hne|exact Hacc].
  - cbn [fold_left]. apply IH. right.
    destruct Hacc as [[-> _]|Hacc]; [now destruct x|].
    destruct acc as [a| | |], x as [b| | |]; simpl in *; try contradiction.
    now destruct (Qle_bool a b).
Qed.

(** X18.  On an equity series of positive values, the maximum drawdown
    is a finite number in (-1, 0]; it is 0 when the series never
    falls. *)
Theorem max_drawdown_range :
  forall equity_series : list Q,
    equity_series <> [] ->
    Forall (fun e => 0 < e) equity_series ->
    fin_within (-(1)) 0 (calculate_max_drawdown equity_series) /\
    (StronglySorted Qle equity_series ->
     is_fin (calculate_max_drawdown equity_series) 0).
Proof.
  intros [|x r] Hne Hpos; [now elim Hne|].
  unfold calculate_max_drawdown, series_min, drawdown.
  rewrite cummax_as_from.
  assert (Hx : 0 < x) by now inversion Hpos.
  split.
  - apply series_min_within; [now apply drawdown_from_within|].
    left. split; [reflexivity|discriminate].
  - intros Hs. apply series_min_zero.
    + apply drawdown_from_flat; [exact Hx|].
      constructor; [exact Hs|]. constructor; [apply Qle_refl|].
      now inversion Hs.
    + left. split; [reflexivity|discriminate].
Qed.

Lemma max_drawdown_range_witness :
  fin_within (-(1)) 0 (calculate_max_drawdown [100; 120; 90; 130]).
Proof.
  apply (proj1 (max_drawdown_range [100; 120; 90; 130]
                  ltac:(discriminate) ltac:(repeat constructor))).
Defined.

(* ------------------------------------------------------------------ *)
(** ** Sharpe ratio: short and flat series *)

Section SharpeEdges.

Local Open Scope R_scope.

Lemma std_short (l : list R) : (length l < 2)%nat -> Sharpe.std l = None.
Proof.
  destruct l as [|a [|b l]]; simpl; intros H; try reflexivity. lia.
Qed.

Lemma rsum_zeros (n : nat) : Sharpe.rsum (repeat 0 n) = 0.
Proof.
  induction n as [|n IH]; [reflexivity|].
  unfold Sharpe.rsum in *. cbn [repeat fold_right]. rewrite IH. lra.
Qed.

Lemma map_zeros (g : R -> R) (n : nat) :
  g 0 = 0 -> map g (repeat 0 n) = repeat 0 n.
Proof.
  intros H. induction n as [|n IH]; simpl; [reflexivity|]. now rewrite H, IH.
Qed.

Lemma std_zeros (n : nat) : (2 <= n)%nat -> Sharpe.std (repeat 0 n) = Some 0.
Proof.
  intros Hn. destruct n as [|[|n]]; try lia.
  change (Sharpe.std (repeat 0 (S (S n))))
    with (Some (sqrt (Sharpe.rsum
                        (map (fun x => (x - Sharpe.rsum (repeat 0 (S (S n)))
                                            / Sharpe.rlen (repeat 0 (S (S n))))
                                       * (x - Sharpe.rsum (repeat 0 (S (S n)))
                                              / Sharpe.rlen (repeat 0 (S (S n)))))
                             (repeat 0 (S (S n))))
                      / (Sharpe.rlen (repeat 0 (S (S n))) - 1)))).
  rewrite rsum_zeros. rewrite map_zeros.
  - rewrite rsum_zeros. unfold Rdiv. rewrite Rmult_0_l. now rewrite sqrt_0.
  - unfold Rdiv. rewrite Rmult_0_l. lra.
Qed.

(** X19.  On a series of fewer than two returns both Sharpe computations
    give NaN: the standard deviation is NaN, which the zero test does
    not catch. *)
Theorem sharpe_of_short_series_is_nan :
  forall (returns : list R) (risk_free_rate : R),
    (length returns < 2)%nat ->
    Sharpe.calculate_sharpe_ratio returns risk_free_rate = None /\
    Sharpe.summary_sharpe returns = None.
Proof.
  intros returns rf H. unfold Sharpe.calculate_sharpe_ratio, Sharpe.summary_sharpe.
  rewrite (std_short returns H). cbn [Sharpe.is_zero negb].
  rewrite std_short by now rewrite length_map.
  split.
  - unfold Sharpe.scaled_ratio. now destruct (Sharpe.mean _).
  - now destruct (Sharpe.mean returns).
Qed.

Lemma sharpe_of_short_series_is_nan_witness :
  Sharpe.calculate_sharpe_ratio [1] 0 = None /\ Sharpe.summary_sharpe [1] = None.
Proof.
  apply (sharpe_of_short_series_is_nan [1] 0). simpl. lia.
Defined.

(** X20.  On a flat series (two or more returns, all 0) both Sharpe
    computations give 0, whatever the risk-free rate: the zero test
    comes before the division by the standard deviation. *)
Theorem sharpe_of_flat_series_is_zero :
  forall (n : nat) (risk_free_rate : R),
    (2 <= n)%nat ->
    Sharpe.calculate_sharpe_ratio (repeat 0 n) risk_free_rate = Some 0 /\
    Sharpe.summary_sharpe (repeat 0 n) = Some 0.
Proof.
  intros n rf Hn. unfold Sharpe.calculate_sharpe_ratio, Sharpe.summary_sharpe.
  rewrite (std_zeros n Hn), is_zero_true. split; reflexivity.
Qed.

Lemma sharpe_of_flat_series_is_zero_witness :
  Sharpe.calculate_sharpe_ratio (repeat 0 3) 0 = Some 0 /\
  Sharpe.summary_sharpe (repeat 0 3) = Some 0.
Proof.
  apply (sharpe_of_flat_series_is_zero 3 0). lia.
Defined.

End SharpeEdges.

(* ------------------------------------------------------------------ *)
(** ** The loaded frames are sorted *)

Lemma str_lt_trans (a b c : string) : str_lt a b -> str_lt b c -> str_lt a c.
Proof.
  unfold str_lt. intros H1 H2.
  apply OrderedTypeEx.String_as_OT.cmp_lt.
  apply OrderedTypeEx.String_as_OT.cmp_lt in H1, H2.
  eapply OrderedTypeEx.String_as_OT.lt_trans; eassumption.
Qed.

Lemma key_lt_trans (a b c : Key) : key_lt a b -> key_lt b c -> key_lt a c.
Proof.
  unfold key_lt. intros [H1|[E1 H1]] [H2|[E2 H2]].
  - left. eapply str_lt_trans; eassumption.
  - left. now rewrite <- E2.
  - left. now rewrite E1.
  - right. split; [congruence|lia].
Qed.

Lemma key_leb_true (a b : Key) : key_leb a b = true -> a = b \/ key_lt a b.
Proof.
  unfold key_leb, key_lt, str_lt. destruct a as [sa da], b as [sb db]. simpl.
  destruct (String.compare sa sb) eqn:E; intros H; try discriminate.
  - apply String.compare_eq_iff in E. subst sb.
    apply Z.leb_le in H. destruct (Z.eq_dec da db) as [->|Hne]; [now left|].
    right. right. split; [reflexivity|lia].
  - right. now left.
Qed.

Lemma key_leb_false (a b : Key) : key_leb a b = false -> key_lt b a.
Proof.
  unfold key_leb, key_lt, str_lt. destruct a as [sa da], b as [sb db]. simpl.
  destruct (String.compare sa sb) eqn:E; intros H; try discriminate.
  - apply String.compare_eq_iff in E. subst sb.
    apply Z.leb_gt in H. right. split; [reflexivity|exact H].
  - left. rewrite String.compare_antisym, E. reflexivity.
Qed.

Lemma key_lt_irrefl (a : Key) : ~ key_lt a a.
Proof.
  intros [H|[_ H]]; [now apply str_lt_irrefl in H|lia].
Qed.

Lemma key_eqb_eq (a b : Key) : key_eqb a b = true <-> a = b.
Proof.
  unfold key_eqb. destruct a as [sa da], b as [sb db]. simpl.
  rewrite andb_true_iff, String.eqb_eq, Z.eqb_eq. split.
  - intros [-> ->]. reflexivity.
  - intros E. inversion E. auto.
Qed.

Lemma seen_iff (k : Key) (seen : list Key) :
  existsb (key_eqb k) seen = true <-> In k seen.
Proof.
  rewrite existsb_exists. split.
  - intros (y & Hy & E). apply key_eqb_eq in E. now subst.
  - intros H. exists k. split; [exact H|]. now apply key_eqb_eq.
Qed.

Lemma filter_map_In {A B} (f : A -> option B) (l : list A) (y : B) :
  In y (filter_map f l) <-> exists x, In x l /\ f x = Some y.
Proof.
  induction l as [|x l IH]; simpl.
  - split; [contradiction|]. now intros (x & [] & _).
  - destruct (f x) as [z|] eqn:E; simpl; rewrite IH; split.
    + intros [->|(x' & Hx & E')]; [exists x; auto|exists x'; auto].
    + intros (x' & [->|Hx] & E').
      * left. congruence.
      * right. exists x'. auto.
    + intros (x' & Hx & E'). exists x'. auto.
    + intros (x' & [->|Hx] & E'); [congruence|]. exists x'. auto.
Qed.

Section FrameFacts.

Context {A : Type} (key : A -> Key).

Lemma insert_by_In (x y : A) (l : list A) :
  In y (insert_by key x l) <-> y = x \/ In y l.
Proof.
  induction l as [|z l IH]; simpl.
  - split; intros [H|H]; auto.
  - destruct (key_leb (key x) (key z)); simpl; [|rewrite IH]; split; intuition.
Qed.

Lemma insert_by_length (x : A) (l : list A) :
  length (insert_by key x l) = S (length l).
Proof.
  induction l as [|z l IH]; simpl; [reflexivity|].
  destruct (key_leb (key x) (key z)); simpl; congruence.
Qed.

Lemma insert_by_sorted (x : A) (l : list A) :
  StronglySorted (rows_lt key) l ->
  ~ In (key x) (map key l) ->
  StronglySorted (rows_lt key) (insert_by key x l).
Proof.
  induction 1 as [|z l Hs IH Hall]; intros Hnew; simpl.
  - repeat constructor.
  - simpl in Hnew.
    destruct (key_leb (key x) (key z)) eqn:E.
    + apply key_leb_true in E. destruct E as [E|E]; [elim Hnew; auto|].
      constructor; [now constructor|].
      constructor; [exact E|].
      rewrite Forall_forall in *. intros y Hy.
      eapply key_lt_trans; [exact E|]. now apply Hall.
    + apply key_leb_false in E.
      constructor; [apply IH; tauto|].
      rewrite Forall_forall in *. intros y Hy.
      rewrite insert_by_In in Hy. destruct Hy as [->|Hy]; [exact E|now apply Hall].
Qed.

Lemma sort_values_In (y : A) (l : list A) : In y (sort_values key l) <-> In y l.
Proof.
  induction l as [|x l IH]; simpl; [tauto|].
  rewrite insert_by_In, IH. intuition.
Qed.

Lemma sort_values_length (l : list A) : length (sort_values key l) = length l.
Proof.
  induction l as [|x l IH]; simpl; [reflexivity|].
  now rewrite insert_by_length, IH.
Qed.

Lemma sort_values_sorted (l : list A) :
  NoDup (map key l) -> StronglySorted (rows_lt key) (sort_values key l).
Proof.
  induction l as [|x l IH]; simpl; intros H; [constructor|].
  inversion H as [|? ? Hnew Hnd]; subst.
  apply insert_by_sorted; [now apply IH|].
  intros Hin. apply Hnew. apply in_map_iff in Hin.
  destruct Hin as (y & E & Hy). rewrite sort_values_In in Hy.
  rewrite <- E. now apply in_map.
Qed.

Lemma drop_duplicates_from_In (y : A) (l : list A) (seen : list Key) :
  In y (drop_duplicates_from key seen l) -> In y l /\ ~ In (key y) seen.
Proof.
  revert seen. induction l as [|x l IH]; intros seen; simpl; [contradiction|].
  destruct (existsb (key_eqb (key x)) seen) eqn:E.
  - intros H. apply IH in H. tauto.
  - intros [->|H].
    + split; [now left|]. intros Hin. apply seen_iff in Hin. congruence.
    + apply IH in H. simpl in H. tauto.
Qed.

Lemma drop_duplicates_from_keys (k : Key) (l : list A) (seen : list Key) :
  In k (map key l) -> ~ In k seen ->
  In k (map key (drop_duplicates_from key seen l)).
Proof.
  revert seen. induction l as [|x l IH]; intros seen; simpl; [contradiction|].
  intros Hin Hseen.
  destruct (existsb (key_eqb (key x)) seen) eqn:E.
  - apply seen_iff in E. destruct Hin as [<-|Hin]; [contradiction|].
    now apply IH.
  - simpl. destruct Hin as [E'|Hin]; [now left|].
    destruct (key_eqb (key x) k) eqn:Ek.
    + left. now apply key_eqb_eq.
    + right. apply IH; [exact Hin|]. simpl. intros [E'|H]; [|contradiction].
      apply key_eqb_eq in E'. congruence.
Qed.

Lemma drop_duplicates_from_NoDup (l : list A) (seen : list Key) :
  NoDup (map key (drop_duplicates_from key seen l)).
Proof.
  revert seen. induction l as [|x l IH]; intros seen; simpl; [constructor|].
  destruct (existsb (key_eqb (key x)) seen); [apply IH|].
  simpl. constructor; [|apply IH].
  intros Hin. apply in_map_iff in Hin. destruct Hin as (y & E & Hy).
  apply drop_duplicates_from_In in Hy. destruct Hy as [_ Hy].
  apply Hy. rewrite E. now left.
Qed.

End FrameFacts.

Lemma single_data_facts :
  forall csv : list SingleLoader.CsvRow,
    let data := SingleLoader._load_and_validate_data csv in
    StronglySorted key_lt (map SingleLoader.key data) /\
    (forall s d,
        In (s, d) (map SingleLoader.key data) <->
        exists c, In (SingleLoader.mkCsvRow s (Some d) c) csv).
Proof.
  intros csv data. unfold data, SingleLoader._load_and_validate_data. split.
  - assert (H : StronglySorted
                  (fun a b => key_lt (SingleLoader.key a) (SingleLoader.key b))
                  (sort_values SingleLoader.key
                     (drop_duplicates SingleLoader.key
                        (filter_map SingleLoader.valid_date csv)))).
    { apply sort_values_sorted, drop_duplicates_from_NoDup. }
    revert H. generalize (sort_values SingleLoader.key
                            (drop_duplicates SingleLoader.key
                               (filter_map SingleLoader.valid_date csv))).
    induction 1 as [|x l Hs IH Hall]; simpl; constructor; [exact IH|].
    now rewrite Forall_map.
  - intros s d. rewrite in_map_iff. split.
    + intros (r & E & Hr). rewrite sort_values_In in Hr.
      apply drop_duplicates_from_In in Hr. destruct Hr as [Hr _].
      rewrite filter_map_In in Hr. destruct Hr as ([s' d' c] & Hin & Hv).
      unfold SingleLoader.valid_date in Hv. simpl in Hv.
      destruct d' as [d'|]; [|discriminate]. inversion Hv; subst r.
      unfold SingleLoader.key in E. simpl in E. inversion E; subst.
      now exists c.
    + intros (c & Hin).
      assert (Hk : In (s, d) (map SingleLoader.key
                                  (filter_map SingleLoader.valid_date csv))).
      { apply in_map_iff. exists (s, Single.mkRow d c). split; [reflexivity|].
        rewrite filter_map_In. eexists. split; [exact Hin|reflexivity]. }
      apply (drop_duplicates_from_keys SingleLoader.key _ _ []) in Hk; [|tauto].
      apply in_map_iff in Hk. destruct Hk as (r & E & Hr).
      exists r. split; [exact E|]. now rewrite sort_values_In.
Qed.

(** X21.  [Backtester._load_and_validate_data] returns the rows in
    strictly ascending order of (symbol, date): no key occurs twice.
    The keys it returns are those of the CSV rows that have a date. *)
Theorem single_data_sorted_without_duplicates :
  forall csv : list SingleLoader.CsvRow,
    let data := SingleLoader._load_and_validate_data csv in
    StronglySorted key_lt (map SingleLoader.key data) /\
    (forall s d,
        In (s, d) (map SingleLoader.key data) <->
        exists c, In (SingleLoader.mkCsvRow s (Some d) c) csv).
Proof.
  exact single_data_facts.
Qed.

(** X22.  When the rows that [Backtester.run] selects for a symbol all
    spell it the same way, the selected frame has strictly increasing
    dates. *)
Theorem selected_dates_increase :
  forall (csv : list SingleLoader.CsvRow) (sym spelling : string),
    (forall r, In r csv -> Single.upper (SingleLoader.symbol r) = sym ->
               SingleLoader.symbol r = spelling) ->
    StronglySorted Z.lt
      (map Single.date
           (SingleLoader.select sym (SingleLoader._load_and_validate_data csv))).
Proof.
  intros csv sym spelling Hsp.
  destruct (single_data_facts csv) as [Hs Hin].
  unfold SingleLoader.select. rewrite map_map.
  set (data := SingleLoader._load_and_validate_data csv) in *.
  apply sorted_of_map in Hs.
  apply (sorted_filter _ (fun r => String.eqb (Single.upper (fst r)) sym)) in Hs.
  assert (Hall : Forall (fun r => fst r = spelling)
                        (filter (fun r => String.eqb (Single.upper (fst r)) sym) data)).
  { apply Forall_forall. intros [s [d c]] Hr. apply filter_In in Hr.
    destruct Hr as [Hr Hu]. simpl in Hu. apply String.eqb_eq in Hu.
    destruct (proj1 (Hin s d)) as (c' & Hc).
    - apply in_map_iff. exists (s, Single.mkRow d c). auto.
    - simpl. now apply (Hsp _ Hc). }
  revert Hs Hall.
  generalize (filter (fun r => String.eqb (Single.upper (fst r)) sym) data).
  induction 1 as [|x l Hs IH Hl]; intros Hall; simpl; constructor.
  - apply IH. now inversion Hall.
  - inversion Hall as [|? ? Hx Hrest]; subst.
    rewrite Forall_map. rewrite Forall_forall in *. intros y Hy.
    destruct (Hl y Hy) as [Hlt|[_ Hlt]]; [|exact Hlt].
    unfold SingleLoader.key in Hlt. simpl in Hlt.
    rewrite (Hrest y Hy) in Hlt. now apply str_lt_irrefl in Hlt.
Qed.

Lemma selected_dates_increase_witness :
  StronglySorted Z.lt
    (map Single.date
         (SingleLoader.select "X" (SingleLoader._load_and_validate_data demo_csv))).
Proof.
  apply (selected_dates_increase demo_csv "X" "x").
  intros r Hin Hup. simpl in Hin.
  repeat (destruct Hin as [<-|Hin]; [try reflexivity; discriminate|]).
  contradiction.
Defined.

Lemma sorted_map {A B} (R : B -> B -> Prop) (g : A -> B) (l : list A) :
  StronglySorted (fun a b => R (g a) (g b)) l -> StronglySorted R (map g l).
Proof.
  induction 1 as [|x l Hs IH Hall]; simpl; constructor; [exact IH|].
  now rewrite Forall_map.
Qed.

(** X23.  [PortfolioBacktester._load_and_prepare_data] keeps every
    complete row of the CSV, repeated ones included.  When no two
    complete rows share symbol and date, the frame selected for a sector
    is in strictly ascending order of (symbol, date). *)
Theorem loaded_panel_is_sorted :
  forall (has_sector_column : bool) (csv : list PortfolioLoader.CsvRow),
    let data := PortfolioLoader._load_and_prepare_data has_sector_column csv in
    length data = length (filter_map PortfolioLoader.complete csv) /\
    (NoDup (map PortfolioLoader.key (filter_map PortfolioLoader.complete csv)) ->
     forall sector_name,
       panel_sorted (PortfolioLoader.sector_frame sector_name data)).
Proof.
  intros h csv data. unfold data, PortfolioLoader._load_and_prepare_data. split.
  - now rewrite length_map, sort_values_length.
  - intros Hnd sector_name. unfold PortfolioLoader.sector_frame, panel_sorted.
    apply sorted_map. apply sorted_filter. apply sorted_of_map.
    rewrite map_map. cbn [fst].
    apply (sorted_map row_lt (fun r : Portfolio.Row * option string => fst r)).
    apply (sort_values_sorted PortfolioLoader.key _ Hnd).
Qed.

Lemma loaded_panel_is_sorted_witness :
  panel_sorted
    (PortfolioLoader.sector_frame "Tech"
       (PortfolioLoader._load_and_prepare_data true demo_portfolio_csv)).
Proof.
  apply (proj2 (loaded_panel_is_sorted true demo_portfolio_csv)).
  repeat constructor; simpl; intros H;
    repeat (destruct H as [H|H]; [discriminate H|]); exact H.
Defined.

Lemma select_nonempty (sym : string) (csv : list SingleLoader.CsvRow) :
  SingleLoader.select sym (SingleLoader._load_and_validate_data csv) <> []
  <-> has_data sym csv = true.
Proof.
  destruct (single_data_facts csv) as [_ Hin]. cbv zeta in Hin.
  unfold SingleLoader.select, has_data.
  set (data := SingleLoader._load_and_validate_data csv) in *.
  rewrite existsb_exists. split.
  - intros Hne.
    destruct (filter (fun r => String.eqb (Single.upper (fst r)) sym) data)
      as [|[s [d c]] l] eqn:E; [now elim Hne|].
    assert (Hr : In (s, Single.mkRow d c)
                    (filter (fun r => String.eqb (Single.upper (fst r)) sym) data))
      by (rewrite E; now left).
    apply filter_In in Hr. destruct Hr as [Hr Hu].
    destruct (proj1 (Hin s d)) as (c' & Hc).
    + apply in_map_iff. exists (s, Single.mkRow d c). auto.
    + exists (SingleLoader.mkCsvRow s (Some d) c'). split; [exact Hc|exact Hu].
  - intros ([s d c] & Hr & Hu). simpl in Hu.
    destruct d as [d|]; [|discriminate].
    pose proof (proj2 (Hin s d) (ex_intro _ c Hr)) as Hk.
    apply in_map_iff in Hk. destruct Hk as (r & E & Hk).
    assert (Hf : In r (filter (fun r => String.eqb (Single.upper (fst r)) sym) data)).
    { apply filter_In. split; [exact Hk|].
      unfold SingleLoader.key in E. inversion E; subst. exact Hu. }
    intros Hnil. apply map_eq_nil in Hnil. rewrite Hnil in Hf. contradiction.
Qed.

(** X24.  The frame that [Backtester.run] selects for a symbol is empty
    exactly when the CSV has no dated row for the symbol (compared in
    upper case); and loading a CSV and running a strategy raises
    [ValueError] when the entry rule names no symbol or the CSV has no
    dated row for its symbol. *)
Theorem load_and_run_without_data_raises :
  forall (s : Single.Strategy) (csv : list SingleLoader.CsvRow),
    let name := Single.rule_symbol (Single.entry s) in
    (forall sym,
        SingleLoader.select sym (SingleLoader._load_and_validate_data csv) = []
        <-> has_data sym csv = false) /\
    (name = EmptyString \/ has_data (Single.upper name) csv = false ->
     SingleLoader.load_and_run s csv = Err ValueError).
Proof.
  intros s csv name. split.
  - intros sym. pose proof (select_nonempty sym csv) as H.
    destruct (has_data sym csv);
      destruct (SingleLoader.select sym (SingleLoader._load_and_validate_data csv))
        as [|r l];
      split; intros E; try reflexivity; try discriminate.
    + now elim (proj2 H eq_refl).
    + assert (Hne : r :: l <> []) by discriminate.
      apply H in Hne. discriminate.
  - unfold SingleLoader.load_and_run. fold name.
    intros [E|E]; unfold Single.run; fold name.
    + rewrite E. reflexivity.
    + destruct (String.eqb (Single.upper name) EmptyString); [reflexivity|].
      destruct (SingleLoader.select (Single.upper name)
                  (SingleLoader._load_and_validate_data csv)) eqn:Es;
        [reflexivity|].
      assert (H : has_data (Single.upper name) csv = true).
      { apply select_nonempty. rewrite Es. discriminate. }
      congruence.
Qed.

(** A CSV whose only row for the symbol of [demo_strategy] has no
    readable date. *)
Lemma load_and_run_without_data_raises_witness :
  SingleLoader.load_and_run demo_strategy
    [ SingleLoader.mkCsvRow "y" (Some (day 1)) 5;
      SingleLoader.mkCsvRow "x" None 7 ]
  = Err ValueError.
Proof.
  apply (proj2 (load_and_run_without_data_raises demo_strategy
                  [ SingleLoader.mkCsvRow "y" (Some (day 1)) 5;
                    SingleLoader.mkCsvRow "x" None 7 ])).
  right. reflexivity.
Defined.

(* ------------------------------------------------------------------ *)
(** ** Allocation groups *)

Section GroupFacts.

Import Groups.

Variable allocation : Q.

Lemma set_group_nth (t : Trade) (g : Z) (rows : list Marked) (j : nat) :
  nth_error (set_group t g rows) j
  = option_map (fun m => if overlaps t (trade m)
                         then mkMarked (trade m) (Some g) (highlight m)
                         else m)
               (nth_error rows j).
Proof. apply nth_error_map. Qed.

Lemma set_group_trades (t : Trade) (g : Z) (rows : list Marked) :
  map trade (set_group t g rows) = map trade rows.
Proof.
  unfold set_group. rewrite map_map. apply map_ext.
  intros m. now destruct (overlaps t (trade m)).
Qed.

Lemma set_group_highlights (t : Trade) (g : Z) (rows : list Marked) :
  map highlight (set_group t g rows) = map highlight rows.
Proof.
  unfold set_group. rewrite map_map. apply map_ext.
  intros m. now destruct (overlaps t (trade m)).
Qed.

Lemma set_highlight_trades (i : nat) (rows : list Marked) :
  map trade (set_highlight i rows) = map trade rows.
Proof.
  revert i. induction rows as [|m r IH]; intros [|i]; simpl; try reflexivity.
  now rewrite IH.
Qed.

Lemma set_highlight_nth (i j : nat) (rows : list Marked) :
  nth_error (set_highlight i rows) j
  = if (j =? i)%nat
    then option_map (fun m => mkMarked (trade m) (group_id m) true)
                    (nth_error rows j)
    else nth_error rows j.
Proof.
  revert i j. induction rows as [|m r IH]; intros [|i] [|j]; simpl;
    try reflexivity.
  - now destruct (j =? i)%nat.
  - apply IH.
Qed.

Lemma set_highlight_count (i : nat) (rows : list Marked) (m : Marked) :
  nth_error rows i = Some m -> highlight m = false ->
  highlighted (set_highlight i rows) = S (highlighted rows).
Proof.
  unfold highlighted. revert i.
  induction rows as [|x r IH]; intros [|i]; simpl; try discriminate.
  - intros E Hm. inversion E; subst. now rewrite Hm.
  - intros E Hm. destruct (highlight x); simpl; now rewrite (IH i E Hm).
Qed.

Lemma highlighted_as_filter (rows : list Marked) :
  highlighted rows = length (filter highlight rows).
Proof.
  unfold highlighted. induction rows as [|x r IH]; simpl; [reflexivity|].
  destruct (highlight x); simpl; now rewrite IH.
Qed.

Lemma step_inv (frame : list Trade) (k : nat) (acc : list Marked * Z) :
  (k < length frame)%nat ->
  groups_inv allocation frame k acc -> groups_inv allocation frame (S k) (step allocation acc k).
Proof.
  destruct acc as [rows gid]. intros Hk (Htr & Hgid & Hrows).
  unfold step.
  destruct (nth_error rows k) as [mk|] eqn:Ek.
  2:{ apply nth_error_None in Ek. rewrite <- Htr, length_map in Hk. lia. }
  destruct (Hrows k mk Ek) as (Hhk & _ & _).
  rewrite Nat.ltb_irrefl in Hhk. simpl in Hhk.
  rewrite Htr.
  destruct (full allocation frame (trade mk)) eqn:Efull.
  - split; [|split].
    + now rewrite set_highlight_trades, set_group_trades.
    + assert (Ek' : nth_error (set_group (trade mk) gid rows) k
                    = Some (if overlaps (trade mk) (trade mk)
                            then mkMarked (trade mk) (Some gid) (highlight mk)
                            else mk)).
      { now rewrite set_group_nth, Ek. }
      rewrite (set_highlight_count k _ _ Ek').
      * unfold highlighted at 1. rewrite set_group_highlights.
        fold (highlighted rows). lia.
      * now destruct (overlaps (trade mk) (trade mk)).
    + intros j m. rewrite set_highlight_nth, set_group_nth.
      destruct (Nat.eqb_spec j k) as [->|Hne].
      * rewrite Ek. simpl. intros E. inversion E; subst m; clear E.
        destruct (Hrows k mk Ek) as (_ & _ & Hg).
        destruct (overlaps (trade mk) (trade mk)) eqn:Eo; simpl.
        -- rewrite Eo. split; [|split].
           ++ rewrite Efull. now rewrite (proj2 (Nat.ltb_lt k (S k))) by lia.
           ++ discriminate.
           ++ intros g E. inversion E; subst. lia.
        -- rewrite Eo. split; [|split].
           ++ rewrite Efull. now rewrite (proj2 (Nat.ltb_lt k (S k))) by lia.
           ++ discriminate.
           ++ intros g E. specialize (Hg g E). lia.
      * destruct (nth_error rows j) as [m0|] eqn:Ej; simpl; [|discriminate].
        intros E. inversion E; subst m; clear E.
        destruct (Hrows j m0 Ej) as (Hh & Hself & Hg).
        assert (Hlt : (j <? S k)%nat = (j <? k)%nat).
        { destruct (Nat.ltb_spec j k), (Nat.ltb_spec j (S k)); try reflexivity; lia. }
        destruct (overlaps (trade mk) (trade m0)); simpl.
        -- split; [|split].
           ++ now rewrite Hlt.
           ++ discriminate.
           ++ intros g E. inversion E; subst. lia.
        -- split; [|split].
           ++ now rewrite Hlt.
           ++ exact Hself.
           ++ intros g E. specialize (Hg g E). lia.
  - split; [exact Htr|]. split; [exact Hgid|].
    intros j m Ej. destruct (Hrows j m Ej) as (Hh & Hself & Hg).
    split; [|split; assumption].
    destruct (Nat.eqb_spec j k) as [->|Hne].
    + rewrite Ek in Ej. inversion Ej; subst m.
      rewrite Efull, andb_false_r. exact Hhk.
    + rewrite Hh. f_equal.
      destruct (Nat.ltb_spec j k), (Nat.ltb_spec j (S k)); try reflexivity; lia.
Qed.

Lemma steps_inv (frame : list Trade) (len start : nat) (acc : list Marked * Z) :
  (start + len <= length frame)%nat ->
  groups_inv allocation frame start acc ->
  groups_inv allocation frame (start + len)
             (fold_left (step allocation) (seq start len) acc).
Proof.
  revert start acc. induction len as [|len IH]; intros start acc Hlen Hinv.
  - now rewrite Nat.add_0_r.
  - cbn [seq fold_left]. rewrite <- Nat.add_succ_comm. apply IH; [lia|].
    apply step_inv; [lia|exact Hinv].
Qed.

Lemma init_groups_inv (frame : list Trade) :
  groups_inv allocation frame 0 (map (fun t => mkMarked t None false) frame, 1%Z).
Proof.
  split; [|split].
  - rewrite map_map. apply map_id.
  - unfold highlighted. rewrite map_map. simpl.
    induction frame as [|t r IH]; [reflexivity|exact IH].
  - intros j m E. rewrite nth_error_map in E.
    destruct (nth_error frame j); [|discriminate]. inversion E; subst; simpl.
    repeat split; discriminate.
Qed.

Lemma loop_facts (frame : list Trade) :
  exists gid,
    groups_inv allocation frame (length frame) (loop allocation frame, gid).
Proof.
  unfold loop.
  pose proof (steps_inv frame (length frame) 0 _ (Nat.le_refl _)
                        (init_groups_inv frame)) as H.
  destruct (fold_left (step allocation) (seq 0 (length frame))
                      (map (fun t => mkMarked t None false) frame, 1%Z))
    as [rows gid].
  now exists gid.
Qed.

End GroupFacts.

(** X25.  [assign_allocation_groups] only adds its two columns to the
    sorted ledger.  A trade is highlighted exactly when the trades that
    overlap it fill the allocation; a highlighted trade that lasts
    (entry before exit) carries a group id; and the group ids run from 1
    to the number of highlighted trades. *)
Theorem allocation_groups_facts :
  forall (allocation : Q) (frame : list Groups.Trade),
    let out := Groups.loop allocation frame in
    map Groups.trade out = frame /\
    Forall (fun m =>
              Groups.highlight m = Groups.full allocation frame (Groups.trade m) /\
              (Groups.highlight m = true ->
               (Groups.entry_date (Groups.trade m)
                < Groups.exit_date (Groups.trade m))%Z ->
               Groups.group_id m <> None) /\
              (forall g, Groups.group_id m = Some g ->
                         (1 <= g <= Z.of_nat (length (filter Groups.highlight out)))%Z))
           out.
Proof.
  intros allocation frame out.
  destruct (loop_facts allocation frame) as (gid & Htr & Hgid & Hrows).
  fold out in Htr, Hgid, Hrows. split; [exact Htr|].
  apply Forall_forall. intros m Hm.
  apply In_nth_error in Hm. destruct Hm as (j & Ej).
  destruct (Hrows j m Ej) as (Hh & Hself & Hg).
  assert (Hj : (j < length frame)%nat).
  { rewrite <- Htr, length_map. apply nth_error_Some. congruence. }
  split; [|split].
  - rewrite Hh. now rewrite (proj2 (Nat.ltb_lt _ _) Hj).
  - intros Hhl Hlt. apply Hself; [exact Hhl|].
    unfold Groups.overlaps. apply andb_true_iff. split.
    + now apply Z.ltb_lt.
    + apply Z.gtb_lt. exact Hlt.
  - intros g E. specialize (Hg g E).
    rewrite <- highlighted_as_filter. lia.
Qed.

(* ------------------------------------------------------------------ *)
(** ** The parameters that reach the portfolio run *)

Lemma truthy_get_pos (x : option Q) (default : Q) :
  (forall v, x = Some v -> 0 <= v) -> 0 < default ->
  0 < Workflow.get (if Workflow.truthy x then x else None) default.
Proof.
  intros Hx Hd. destruct x as [v|]; simpl; [|exact Hd].
  destruct (Qeqb v 0) eqn:E; simpl; [exact Hd|].
  apply Qeqb_neq in E. specialize (Hx v eq_refl).
  destruct (Qlt_le_dec 0 v) as [H|H]; [exact H|].
  elim E. now apply Qle_antisym.
Qed.

(** X27.  Whatever the text, the allocation, stop-loss and take-profit
    that [main] reads from the parsed strategy are positive: a matched
    value of zero is dropped by [parse] and replaced by the default of
    [main].  An allocation written as a number up to 100 is at most 1. *)
Theorem parsed_parameters_are_positive :
  forall (m : Workflow.Matches),
    matches_nonneg m ->
    let strategy := Workflow.parse m in
    let f := Workflow.get (Workflow.allocation strategy) (1 # 2) in
    0 < f /\
    0 < Workflow.get (Workflow.stop_loss strategy) (5 # 100) /\
    0 < Workflow.get (Workflow.take_profit strategy) (5 # 100) /\
    ((forall v, Workflow.capital_match m = Some v -> v <= 100) -> f <= 1).
Proof.
  intros m (Hs & Ht & Hc) strategy f.
  split; [|split; [|split]].
  - unfold f, strategy, Workflow.parse. simpl.
    apply truthy_get_pos; [|reflexivity].
    unfold Workflow._extract_allocation.
    destruct (Workflow.capital_match m) as [v|]; simpl; [|discriminate].
    intros w E. inversion E; subst; clear E. specialize (Hc v eq_refl).
    destruct (Qltb 1 v); [|exact Hc].
    apply Qle_shift_div_l; [reflexivity|]. lra.
  - unfold strategy, Workflow.parse. simpl.
    apply truthy_get_pos; [|reflexivity].
    destruct (Workflow.stop_match m) as [v|]; simpl; [|discriminate].
    intros w E. inversion E; subst. specialize (Hs v eq_refl).
    apply Qle_shift_div_l; [reflexivity|]. lra.
  - unfold strategy, Workflow.parse. simpl.
    apply truthy_get_pos; [|reflexivity].
    destruct (Workflow.take_match m) as [v|]; simpl; [|discriminate].
    intros w E. inversion E; subst. specialize (Ht v eq_refl).
    apply Qle_shift_div_l; [reflexivity|]. lra.
  - intros Hmax. unfold f, strategy, Workflow.parse, Workflow._extract_allocation.
    simpl. destruct (Workflow.capital_match m) as [v|] eqn:Ev; simpl;
      [|discriminate].
    specialize (Hmax v eq_refl).
    destruct (Qltb 1 v) eqn:E1; simpl.
    + destruct (Qeqb (v / 100) 0); simpl; [discriminate|].
      apply Qle_shift_div_r; [reflexivity|]. lra.
    + apply Qltb_ge in E1.
      destruct (Qeqb v 0); simpl; [discriminate|exact E1].
Qed.

(** "stop loss 5%", no take-profit, "50% of capital", and a stop-loss
    and an allocation of 0: the defaults apply. *)
Lemma parsed_parameters_are_positive_witness :
  (Workflow.get (Workflow.allocation
                   (Workflow.parse (Workflow.mkMatches (Some 5) None (Some 50))))
                (1 # 2) == 1 # 2 /\
   0 < Workflow.get (Workflow.allocation
                       (Workflow.parse (Workflow.mkMatches (Some 5) None (Some 50))))
                    (1 # 2)) /\
  0 < Workflow.get (Workflow.allocation
                      (Workflow.parse (Workflow.mkMatches (Some 0) None (Some 0))))
                   (1 # 2).
Proof.
  split; [split; [reflexivity|]|].
  - apply (parsed_parameters_are_positive
             (Workflow.mkMatches (Some 5) None (Some 50))).
    repeat split; intros v E; inversion E; subst; discriminate.
  - apply (parsed_parameters_are_positive
             (Workflow.mkMatches (Some 0) None (Some 0))).
    repeat split; intros v E; inversion E; subst; discriminate.
Defined.

(* ------------------------------------------------------------------ *)
(** ** The returned totals *)

Lemma dates_of_nonempty (df : list Portfolio.Row) :
  df <> [] -> Portfolio.dates_of df <> [].
Proof.
  destruct df as [|r df]; [congruence|]. intros _ E.
  assert (H : In (Portfolio.date r) (Portfolio.dates_of (r :: df))).
  { unfold Portfolio.dates_of. apply sorted_unique_In. now left. }
  rewrite E in H. contradiction.
Qed.

(** X28.  With a positive starting capital and allocation fraction, on a
    non-empty panel with positive open prices and no negative close, the
    portfolio run returns its dictionary: the final equity is not
    negative and the total return is a finite number, final equity over
    starting capital minus one, never below -1. *)
Theorem total_return_at_least_minus_one :
  forall (starting_capital drop_pct f stop_loss take_profit : Q)
         (df : list Portfolio.Row) (lookback_days : Z),
    0 < starting_capital ->
    0 < f ->
    df <> [] ->
    (1 <= lookback_days)%Z ->
    Forall (fun r => 0 < Portfolio.open r /\ 0 <= Portfolio.close r) df ->
    exists res q,
      PortfolioResults.run starting_capital drop_pct f stop_loss take_profit
                           df lookback_days = Ok res /\
      0 <= PortfolioResults.final_equity res /\
      PortfolioResults.total_return res = Fin q /\
      q == PortfolioResults.final_equity res / starting_capital - 1 /\
      - (1) <= q.
Proof.
  intros sc dp f sl tp df lb Hsc Hf Hdf Hlb Hrows.
  destruct (run_sector_strategy_returns sc dp f sl tp) with (df := df)
    (lookback_days := lb) as (st & Erun); try assumption.
  { intros E. rewrite E in Hf. now apply Qlt_irrefl in Hf. }
  { apply Forall_forall. intros r Hr. rewrite Forall_forall in Hrows.
    destruct (Hrows r Hr) as [Ho _]. intros E. rewrite E in Ho.
    now apply Qlt_irrefl in Ho. }
  unfold PortfolioResults.run. rewrite Erun. cbn [bind].
  assert (Hdates : map fst (Portfolio.equity_curve st) = Portfolio.dates_of df).
  { pose proof Erun as H. unfold Portfolio.run_sector_strategy in H.
    destruct df as [|r df]; [discriminate|].
    destruct (lb <? 1)%Z; [discriminate|].
    now rewrite (run_days_equity_dates _ _ _ _ _ _ _ _ _ H). }
  destruct (state_after_nonneg sc dp f sl tp (Z.to_nat lb) df
              (length (Portfolio.dates_of df)) st) as (_ & _ & Heq).
  { lra. }
  { lra. }
  { apply Forall_forall. intros r Hr. rewrite Forall_forall in Hrows.
    destruct (Hrows r Hr). split; lra. }
  { now apply run_as_state_after. }
  unfold PortfolioResults.results_of.
  destruct (rev (Portfolio.equity_curve st)) as [|[d e] rest] eqn:Erev.
  { apply (f_equal (@rev _)) in Erev. rewrite rev_involutive in Erev.
    rewrite Erev in Hdates. simpl in Hdates. symmetry in Hdates.
    now apply dates_of_nonempty in Hdates. }
  assert (He : 0 <= e).
  { rewrite Forall_forall in Heq. apply (Heq (d, e)).
    apply in_rev. rewrite Erev. now left. }
  eexists; exists (e / sc - 1). split; [reflexivity|].
  cbn [PortfolioResults.final_equity PortfolioResults.total_return].
  split; [exact He|].
  assert (Hne : ~ sc == 0) by lra.
  unfold np_div. apply Qeqb_neq in Hne. rewrite Hne. cbn [fsub].
  split; [reflexivity|]. split; [reflexivity|].
  assert (0 <= e / sc) by (apply Qle_shift_div_l; lra). lra.
Qed.

Lemma total_return_at_least_minus_one_witness :
  exists res q,
    PortfolioResults.run 1000 (5 # 100) (1 # 2) (5 # 100) (5 # 100) demo_panel 2
    = Ok res /\
    0 <= PortfolioResults.final_equity res /\
    PortfolioResults.total_return res = Fin q /\
    q == PortfolioResults.final_equity res / 1000 - 1 /\
    - (1) <= q.
Proof.
  apply (total_return_at_least_minus_one 1000 (5 # 100) (1 # 2) (5 # 100)
           (5 # 100) demo_panel 2).
  - reflexivity.
  - reflexivity.
  - discriminate.
  - discriminate.
  - repeat constructor; discriminate.
Defined.

Lemma insert_symbol_In (s x : string) (l : list string) :
  In x (insert_symbol s l) <-> x = s \/ In x l.
Proof.
  induction l as [|y l IH]; simpl; [intuition|].
  destruct (String.compare s y) eqn:E; simpl.
  - apply String.compare_eq_iff in E. subst y. intuition.
  - intuition.
  - rewrite IH. intuition.
Qed.

Lemma insert_symbol_sorted (s : string) (l : list string) :
  StronglySorted str_lt l -> StronglySorted str_lt (insert_symbol s l).
Proof.
  induction 1 as [|y l Hs IH Hall]; simpl; [repeat constructor|].
  destruct (String.compare s y) eqn:E.
  - now constructor.
  - constructor; [now constructor|]. constructor; [exact E|].
    rewrite Forall_forall in *. intros z Hz.
    eapply str_lt_trans; [exact E|]. now apply Hall.
  - constructor; [exact IH|]. rewrite Forall_forall in *. intros z Hz.
    rewrite insert_symbol_In in Hz. destruct Hz as [->|Hz]; [|now apply Hall].
    unfold str_lt. rewrite String.compare_antisym, E. reflexivity.
Qed.

(** X29.  [available_symbols] lists, in strictly ascending order and
    without repetition, exactly the symbols of the CSV rows that have a
    date. *)
Theorem available_symbols_sorted_and_complete :
  forall csv : list SingleLoader.CsvRow,
    let symbols := available_symbols (SingleLoader._load_and_validate_data csv) in
    StronglySorted str_lt symbols /\
    (forall s, In s symbols <->
               exists d c, In (SingleLoader.mkCsvRow s (Some d) c) csv).
Proof.
  intros csv symbols. unfold symbols, available_symbols. split.
  - induction (map fst (SingleLoader._load_and_validate_data csv)) as [|s l IH];
      simpl; [constructor|now apply insert_symbol_sorted].
  - intros s.
    assert (Hin : forall l, In s (fold_right insert_symbol [] l) <-> In s l).
    { induction l as [|x l IH]; simpl; [tauto|].
      rewrite insert_symbol_In, IH. intuition. }
    rewrite Hin. destruct (single_data_facts csv) as [_ Hkeys]. cbv zeta in Hkeys.
    split.
    + intros H. apply in_map_iff in H. destruct H as ([s' [d c]] & E & Hr).
      simpl in E. subst s'. exists d.
      apply (Hkeys s d). apply in_map_iff. exists (s, Single.mkRow d c). auto.
    + intros (d & c & Hc).
      assert (Hk : In (s, d) (map SingleLoader.key
                                  (SingleLoader._load_and_validate_data csv))).
      { apply (Hkeys s d). now exists c. }
      apply in_map_iff in Hk. destruct Hk as (r & E & Hr).
      apply in_map_iff. exists r. split; [|exact Hr].
      unfold SingleLoader.key in E. now inversion E.
Qed.

(* ------------------------------------------------------------------ *)
(** ** The equity column and the total return *)

Lemma fnum_eq_refl (x : fnum) : fnum_eq x x.
Proof. destruct x; simpl; auto. reflexivity. Qed.

Lemma Qltb_compat (a a' b b' : Q) : a == a' -> b == b' -> Qltb a b = Qltb a' b'.
Proof.
  intros Ha Hb. destruct (Qltb a b) eqn:E; symmetry.
  - apply Qltb_lt. apply Qltb_lt in E. now rewrite <- Ha, <- Hb.
  - apply Qltb_ge. apply Qltb_ge in E. now rewrite <- Ha, <- Hb.
Qed.

Lemma fnum_scale_inf_compat (p : bool) (a a' : Q) :
  a == a' -> fnum_scale_inf p a = fnum_scale_inf p a'.
Proof.
  intros H. unfold fnum_scale_inf.
  rewrite (Qltb_compat 0 0 a a' (Qeq_refl 0) H).
  now rewrite (Qltb_compat a a' 0 0 H (Qeq_refl 0)).
Qed.

Lemma fnum_mul_compat (x x' y : fnum) :
  fnum_eq x x' -> fnum_eq (fnum_mul x y) (fnum_mul x' y).
Proof.
  destruct x as [a| | |], x' as [a'| | |]; simpl; intros H;
    try contradiction; try apply fnum_eq_refl; try exact I.
  destruct y as [b| | |]; simpl.
  - now rewrite H.
  - rewrite (fnum_scale_inf_compat true a a' H). apply fnum_eq_refl.
  - rewrite (fnum_scale_inf_compat false a a' H). apply fnum_eq_refl.
  - exact I.
Qed.

Lemma fold_mul_compat (l : list fnum) (x x' : fnum) :
  fnum_eq x x' ->
  fnum_eq (fold_left fnum_mul l x) (fold_left fnum_mul l x').
Proof.
  revert x x'. induction l as [|y l IH]; intros x x' H; simpl; [exact H|].
  apply IH. now apply fnum_mul_compat.
Qed.

Lemma one_times (x : fnum) : fnum_eq (fnum_mul (Fin 1) x) x.
Proof.
  destruct x as [b| | |]; simpl; auto. apply Qmult_1_l.
Qed.

Lemma last_cumprod_from (l : list fnum) (acc d : fnum) :
  last (acc :: cumprod_from acc l) d = fold_left fnum_mul l acc.
Proof.
  revert acc. induction l as [|x l IH]; intros acc; [reflexivity|].
  cbn [cumprod_from fold_left]. rewrite <- IH.
  cbv zeta. now destruct (cumprod_from (fnum_mul acc x) l).
Qed.

Lemma cumprod_length (l : list fnum) : length (cumprod l) = length l.
Proof.
  destruct l as [|x l]; [reflexivity|]. simpl. f_equal.
  generalize x. induction l as [|y l IH]; intros acc; simpl; [reflexivity|].
  now rewrite IH.
Qed.

Lemma fsub_compat (x y : fnum) (c : Q) :
  fnum_eq x y -> fnum_eq (fsub x c) (fsub y c).
Proof.
  destruct x, y; simpl; intros H; try contradiction; auto. now rewrite H.
Qed.

(** X30.  The statistics of [Backtester.run] agree with one another: the
    equity column has one value per row, the total return is its last
    value minus 1, and the number of trades is the length of the
    ledger. *)
Theorem total_return_is_last_equity :
  forall (s : Single.Strategy) (df : list Single.Row) (res : SingleStats.Result),
    SingleStats.run s df = Ok res ->
    length (SingleStats.equity res) = length df /\
    fnum_eq (SingleStats.total_return res)
            (fsub (last (SingleStats.equity res) (Fin 1)) 1) /\
    SingleStats.num_trades res = length (SingleStats.trades res).
Proof.
  intros s df res H. unfold SingleStats.run in H.
  destruct (Single.run s df) as [st|e]; cbn [bind] in H; [|discriminate].
  inversion H; subst res; clear H.
  cbn [SingleStats.equity SingleStats.total_return SingleStats.num_trades
       SingleStats.trades].
  set (g := SingleStats.growth _).
  split; [|split; [|reflexivity]].
  - rewrite cumprod_length. unfold g, SingleStats.growth, SingleStats.return_col.
    now rewrite !length_map, length_seq.
  - apply fsub_compat. unfold fnum_prod.
    destruct g as [|x l]; [apply fnum_eq_refl|].
    cbn [cumprod fold_left]. rewrite last_cumprod_from.
    apply fold_mul_compat, one_times.
Qed.

Lemma total_return_is_last_equity_witness :
  fnum_eq (SingleStats.total_return demo_result)
          (fsub (last (SingleStats.equity demo_result) (Fin 1)) 1).
Proof.
  apply (total_return_is_last_equity demo_strategy demo_series demo_result).
  reflexivity.
Defined.
